(** * The club-data acquisition pipeline of [app_flet.py]

    A shallow embedding of [get_club_data]: bounded member enumeration,
    per-member profile enrichment, and the per-player paginated
    match-history crawl under retry, reauthentication and cooperative
    cancellation.  The external DUPR client and the cancellation event are
    an explicit world that is threaded through every call; the function's
    own effects ([_log], [sleep], the client calls it issues) are recorded
    in a trace. *)

From Stdlib Require Import ZArith Lia Ascii.
From stdpp Require Import gmap strings list fin_maps pretty.

Local Set Warnings "-register-all".
Local Open Scope string_scope.
Local Open Scope Z_scope.
Local Open Scope list_scope.

(** ** Python values *)

(** The JSON-shaped values that flow through the crawl: roster records,
    player details, response bodies and match records. *)
Inductive Val : Type :=
  | VNone
  | VBool (b : bool)
  | VInt (z : Z)
  | VStr (s : string)
  | VList (l : list Val)
  | VDict (d : gmap string Val).

(** Python truthiness, as used by [if not status], [if detailed_profile]. *)
Definition truthy (v : Val) : bool :=
  match v with
  | VNone => false
  | VBool b => b
  | VInt z => negb (z =? 0)
  | VStr s => negb (String.eqb s "")
  | VList l => match l with [] => false | _ => true end
  | VDict d => negb (Nat.eqb (size d) 0)
  end.

(** [d.get(key)] on a dict: the default is [None]. *)
Definition dict_get (d : gmap string Val) (key : string) : Val :=
  default VNone (d !! key).

(** [d.get(key, dflt)]. *)
Definition dict_get_or (d : gmap string Val) (key : string) (dflt : Val) : Val :=
  default dflt (d !! key).

(** [l[:k]] for a Python list and an integer [k]: a negative [k] counts
    from the end. *)
Definition slice_to {A : Type} (l : list A) (k : Z) : list A :=
  if k <? 0 then take (Z.to_nat (Z.max 0 (Z.of_nat (length l) + k))) l
  else take (Z.to_nat k) l.

(** [k or 0] for an integer [k]. *)
Definition or0 (k : Z) : Z := if k =? 0 then 0 else k.

(** ** Exceptions and results *)

Inductive exn : Type :=
  | MembersUnavailable          (* RuntimeError raised at line 62 *)
  | KeyError (key : string)     (* m["id"] on a record without the key *)
  | AttributeError              (* .get on a value that is not a dict *)
  | External (what : string).   (* anything raised inside the client *)

(** The outcome of running a piece of the program: a value, an exception,
    or a loop cut off because the fuel ran out. *)
Inductive Res (A : Type) : Type :=
  | Ok (a : A)
  | Raise (e : exn)
  | OutOfFuel.
Arguments Ok {A} a.
Arguments Raise {A} e.
Arguments OutOfFuel {A}.

(** What a call into the external client (or a decode of its data) gives
    back: a value, or an exception raised inside the call, which the
    program sees as [External what]. *)
Inductive Reply (A : Type) : Type :=
  | Returns (a : A)
  | Raises (what : string).
Arguments Returns {A} a.
Arguments Raises {A} what.

(** ** Data model *)

(** A roster record and an enriched profile are Python dicts. *)
Abbreviation Member := (gmap string Val).
Abbreviation Profile := (gmap string Val).

(** The response object of [dupr_post]: [r.status_code] and [r.json()]. *)
Record Response : Type := mkResponse {
  status_code : Z;
  json : Reply Val
}.

(** The [club_info] dict of the result. *)
Record ClubInfo : Type := mkClubInfo {
  ci_id : string;
  ci_name : Val;
  ci_total_members : nat;
  ci_scraped_matches : nat
}.

(** The dict returned by [get_club_data]. *)
Record CrawlResult : Type := mkCrawlResult {
  club_info : ClubInfo;
  members : list Member;
  player_profiles : list Profile;
  match_history : gmap string (list Val)
}.

(** The messages handed to [_log], one constructor per call site. *)
Inductive LogMsg : Type :=
  | LStart (club_id : string)
  | LFetchingMembers
  | LFetchingProfiles
  | LStopProfiles
  | LProcessing (idx n : nat) (player_id : string)
  | LProfileError (player_id : string) (exc : exn)
  | LFetchingHistory
  | LStopHistory
  | LHistoryFor (idx n : nat) (pid : string)
  | LStopMidway
  | LStatusError (code : Z)
  | LRefreshToken
  | LNoMoreMatches
  | LGotMatches (n : nat)
  | LProcessingError (exc : exn)
  | LNoHistory (pid : string).

(** The effects [get_club_data] performs, in program order. *)
Inductive Event : Type :=
  | ELog (m : LogMsg)
  | EGetMembers (club_id : string)
  | EGetPlayer (player_id : string)
  | EPost (path : string) (json_data : Val)
  | ELogin
  | EIsSet
  | ESleep (secs : Z).

(** ** The external world *)

(** The [DuprClient] object.  Every method may change the world (session
    state, server state, time) and may raise. [login_user] reads the
    credentials held by the client itself. *)
Record Client (W : Type) : Type := mkClient {
  get_members_by_club : string → W → Reply (Val * list Member) * W;
  get_player : string → W → Reply (Val * Val) * W;
  dupr_post : string → Val → W → Reply Response * W;
  login_user : W → Reply unit * W;
  handle_paging : Val → Reply (option Z * list Val)
}.
Arguments get_members_by_club {W} _ _ _.
Arguments get_player {W} _ _ _.
Arguments dupr_post {W} _ _ _ _.
Arguments login_user {W} _ _.
Arguments handle_paging {W} _ _.

(** ** The effect monad: world passing, a trace, exceptions, fuel *)

Record Out (W A : Type) : Type := mkOut {
  out_res : Res A;
  out_world : W;
  out_trace : list Event
}.
Arguments mkOut {W A} _ _ _.
Arguments out_res {W A} _.
Arguments out_world {W A} _.
Arguments out_trace {W A} _.

Definition M (W A : Type) : Type := W → Out W A.

Definition ret {W A} (a : A) : M W A := λ w, mkOut (Ok a) w [].

Definition raise {W A} (e : exn) : M W A := λ w, mkOut (Raise e) w [].

Definition out_of_fuel {W A} : M W A := λ w, mkOut OutOfFuel w [].

Definition bind {W A B} (m : M W A) (k : A → M W B) : M W B :=
  λ w,
    match m w with
    | mkOut (Ok a) w1 t =>
        match k a w1 with
        | mkOut r w2 t' => mkOut r w2 (t ++ t')
        end
    | mkOut (Raise e) w1 t => mkOut (Raise e) w1 t
    | mkOut OutOfFuel w1 t => mkOut OutOfFuel w1 t
    end.

(** [try: m except Exception as exc: h exc]. *)
Definition try_except {W A} (m : M W A) (h : exn → M W A) : M W A :=
  λ w,
    match m w with
    | mkOut (Raise e) w1 t =>
        match h e w1 with
        | mkOut r w2 t' => mkOut r w2 (t ++ t')
        end
    | o => o
    end.

(** The outcome [o] of a continuation, reached after the events [t]. *)
Definition after {W A} (t : list Event) (o : Out W A) : Out W A :=
  mkOut (out_res o) (out_world o) (t ++ out_trace o).

Definition emit {W} (ev : Event) : M W unit := λ w, mkOut (Ok tt) w [ev].

(** A call into the client, recorded as [ev]. *)
Definition call {W A} (ev : Event) (f : W → Reply A * W) : M W A :=
  λ w,
    let '(r, w') := f w in
    mkOut (match r with Returns a => Ok a | Raises s => Raise (External s) end)
      w' [ev].

(** A decode done by client code on data already received. *)
Definition decode {W A} (r : Reply A) : M W A :=
  match r with Returns a => ret a | Raises s => raise (External s) end.

(** A pure computation of the program itself, which may raise. *)
Definition lift {W A} (r : Res A) : M W A := λ w, mkOut r w [].

Declare Scope crawl_scope.
Delimit Scope crawl_scope with crawl.
Notation "x <~ m ; k" := (bind m (λ x, k))
  (at level 100, m at next level, k at level 200, right associativity,
   format "'[v' x  <~  m ; '/' k ']'") : crawl_scope.
Notation "m ;> k" := (bind m (λ _, k))
  (at level 100, k at level 200, right associativity) : crawl_scope.
Local Open Scope crawl_scope.

(** ** [get_club_data] *)

Definition max_retries : Z := 3.

(** The request body of one page request (lines 130-135). *)
Definition page_data (matches_per_player offset : Z) : Val :=
  VDict (list_to_map
    [("filters", VDict ∅);
     ("sort", VDict (list_to_map
        [("order", VStr "DESC"); ("parameter", VStr "MATCH_DATE")]));
     ("limit", VInt matches_per_player);
     ("offset", VInt offset)]).

(** The endpoint addressed by the paging requests (line 138). *)
Definition history_path (pid : string) : string :=
  "/player/v1.0/" +:+ pid +:+ "/history".

(** The baseline profile copied from the roster record (lines 77-90). *)
Definition base_profile (player_id : string) (member : Member) : Profile :=
  list_to_map
    [("id", VStr player_id);
     ("duprId", dict_get member "duprId");
     ("fullName", dict_get member "fullName");
     ("gender", dict_get member "gender");
     ("age", dict_get member "age");
     ("shortAddress", dict_get member "shortAddress");
     ("singles", dict_get member "singles");
     ("doubles", dict_get member "doubles");
     ("singlesVerified", dict_get member "singlesVerified");
     ("doublesVerified", dict_get member "doublesVerified");
     ("singlesReliability", dict_get member "singlesReliability");
     ("doublesReliability", dict_get member "doublesReliability")].

(** [detailed_profile.get(key, {}).get("display", "N/A")]: the inner
    [.get] raises when the value under [key] is not a dict. *)
Definition rating_display (detailed_profile : gmap string Val) (key : string)
  : Res Val :=
  match dict_get_or detailed_profile key (VDict ∅) with
  | VDict d => Ok (dict_get_or d "display" (VStr "N/A"))
  | _ => Raise AttributeError
  end.

(** Lines 93-103: merge the display ratings when a detail was returned. *)
Definition merge_detail (profile : Profile) (detailed_profile : Val)
  : Res Profile :=
  if truthy detailed_profile then
    match detailed_profile with
    | VDict d =>
        match rating_display d "singles" with
        | Ok s =>
            match rating_display d "doubles" with
            | Ok dbl =>
                Ok (<["doubles_rating" := dbl]>
                      (<["singles_rating" := s]> profile))
            | Raise e => Raise e
            | OutOfFuel => OutOfFuel
            end
        | Raise e => Raise e
        | OutOfFuel => OutOfFuel
        end
    | _ => Raise AttributeError
    end
  else Ok profile.

(** Line 113: [[str(m["id"]) for m in ...]]; a record without the key
    raises [KeyError]. *)
Fixpoint player_ids_of (py_str : Val → string) (ms : list Member)
  : Res (list string) :=
  match ms with
  | [] => Ok []
  | m :: ms' =>
      match m !! "id" with
      | None => Raise (KeyError "id")
      | Some v =>
          match player_ids_of py_str ms' with
          | Ok ids => Ok (py_str v :: ids)
          | other => other
          end
      end
  end.

(** Line 179: [sum(len(m) for m in match_history.values())]. *)
Definition scraped_total (match_history : gmap string (list Val)) : nat :=
  map_fold (λ _ m acc, (length m + acc)%nat) 0%nat match_history.

(** The variables of the paging loop of one player. *)
Record Loop : Type := mkLoop {
  offset : option Z;
  match_list : list Val;
  retry_count : Z
}.

(** How one pass through the body of the paging loop ends: with [break],
    or back at the loop condition ([continue], or the end of the body). *)
Inductive Step : Type :=
  | Break (s : Loop)
  | Continue (s : Loop).

Section Pipeline.
Context {W : Type}.

(** Python's built-in [str], taken as given. *)
Variable py_str : Val → string.

(** The arguments [client], [stop_event] and [log] of [get_club_data].
    The event is its [is_set] method; [log] says whether a callable
    was passed. *)
Variable client : Client W.
Variable stop_event : option (W → bool * W).
Variable log : bool.

(** Lines 52-54. *)
Definition _log (message : LogMsg) : M W unit :=
  if log then emit (ELog message) else ret tt.

Definition sleep (secs : Z) : M W unit := emit (ESleep secs).

(** [stop_event is not None and stop_event.is_set()]. *)
Definition stop_requested : M W bool :=
  match stop_event with
  | None => ret false
  | Some is_set => λ w, let '(b, w') := is_set w in mkOut (Ok b) w' [EIsSet]
  end.

(** The body of the [try] of the profile loop (lines 75-106), for one
    member; it yields the list of profiles after the append. *)
Definition enrich_attempt (idx n : nat) (player_id : string)
    (member : Member) (player_profiles : list Profile)
  : M W (list Profile) :=
  _log (LProcessing (idx + 1) n player_id) ;>
  (let profile := base_profile player_id member in
   sd <~ call (EGetPlayer player_id) (get_player client player_id) ;
   profile' <~ lift (merge_detail profile (snd sd)) ;
   sleep 1 ;>
   ret (player_profiles ++ [profile'])).

(** One iteration of the profile loop after the cancellation check
    (lines 73-108). *)
Definition enrich_member (idx n : nat) (member : Member)
    (player_profiles : list Profile) : M W (list Profile) :=
  let player_id := py_str (dict_get member "id") in
  try_except
    (enrich_attempt idx n player_id member player_profiles)
    (λ exc, _log (LProfileError player_id exc) ;> ret player_profiles).

(** The profile loop (lines 69-108) over the members not yet visited. *)
Fixpoint enrich (ms : list Member) (idx n : nat)
    (player_profiles : list Profile) : M W (list Profile) :=
  match ms with
  | [] => ret player_profiles
  | member :: ms' =>
      stop <~ stop_requested ;
      if (stop : bool) then _log LStopProfiles ;> ret player_profiles
      else
        player_profiles' <~ enrich_member idx n member player_profiles ;
        enrich ms' (S idx) n player_profiles'
  end.

(** The body of the [try] of the paging loop (lines 130-161), entered
    with [offset = Some off]. *)
Definition page_attempt (pid : string) (matches_per_player : Z)
    (off : Z) (match_list : list Val) (retry_count : Z) : M W Step :=
  r <~ call (EPost (history_path pid) (page_data matches_per_player off))
         (dupr_post client (history_path pid)
            (page_data matches_per_player off)) ;
  if negb (status_code r =? 200) then
    _log (LStatusError (status_code r)) ;>
    (if status_code r =? 403 then
       _log LRefreshToken ;>
       call ELogin (login_user client) ;>
       ret (Continue (mkLoop (Some off) match_list (retry_count + 1)))
     else ret (Break (mkLoop (Some off) match_list retry_count)))
  else
    data <~ decode (json r) ;
    page <~ decode (handle_paging client data) ;
    (let '(offset', hits) := page in
     match hits with
     | [] =>
         _log LNoMoreMatches ;>
         ret (Break (mkLoop offset' match_list retry_count))
     | _ =>
         _log (LGotMatches (length hits)) ;>
         sleep 1 ;>
         ret (Continue (mkLoop offset' (match_list ++ hits) retry_count))
     end).

(** The [except] clause of the paging loop (lines 163-167). *)
Definition page_except (off : Z) (match_list : list Val)
    (retry_count : Z) (exc : exn) : M W Step :=
  _log (LProcessingError exc) ;>
  sleep 2 ;>
  ret (Continue (mkLoop (Some off) match_list (retry_count + 1))).

(** The [try]/[except] of lines 129-167: one pass through the body. *)
Definition page_step (pid : string) (matches_per_player : Z) (off : Z)
    (match_list : list Val) (retry_count : Z) : M W Step :=
  try_except (page_attempt pid matches_per_player off match_list retry_count)
             (page_except off match_list retry_count).

(** The [while] loop of one player (lines 125-167), started from the
    loop variables [s]; it yields the variables as they stand when the
    loop is left.  [fuel] bounds the number of times the loop condition
    is evaluated. *)
Fixpoint fetch_pages (fuel : nat) (pid : string) (matches_per_player : Z)
    (s : Loop) : M W Loop :=
  match fuel with
  | O => out_of_fuel
  | S fuel' =>
      match offset s with
      | None => ret s
      | Some off =>
          if retry_count s <? max_retries then
            stop <~ stop_requested ;
            if (stop : bool) then _log LStopMidway ;> ret s
            else
              step <~ page_step pid matches_per_player off
                        (match_list s) (retry_count s) ;
              match step with
              | Break s' => ret s'
              | Continue s' => fetch_pages fuel' pid matches_per_player s'
              end
          else ret s
      end
  end.

(** Lines 169-172. *)
Definition keep_history (pid : string) (match_list : list Val)
    (match_history : gmap string (list Val))
  : M W (gmap string (list Val)) :=
  match match_list with
  | [] => _log (LNoHistory pid) ;> ret match_history
  | _ => ret (<[pid := match_list]> match_history)
  end.

(** The loop over [player_ids] (lines 115-172). *)
Fixpoint fetch_history (fuel : nat) (matches_per_player : Z)
    (pids : list string) (idx n : nat)
    (match_history : gmap string (list Val))
  : M W (gmap string (list Val)) :=
  match pids with
  | [] => ret match_history
  | pid :: pids' =>
      stop <~ stop_requested ;
      if (stop : bool) then _log LStopHistory ;> ret match_history
      else
        _log (LHistoryFor (idx + 1) n pid) ;>
        (s <~ fetch_pages fuel pid matches_per_player (mkLoop (Some 0) [] 0) ;
         match_history' <~ keep_history pid (match_list s) match_history ;
         fetch_history fuel matches_per_player pids' (S idx) n
           match_history')
  end.

(** Lines 174-184. *)
Definition assemble (club_id : string) (members : list Member)
    (player_profiles : list Profile)
    (match_history : gmap string (list Val)) : CrawlResult :=
  {| club_info :=
       {| ci_id := club_id;
          ci_name := match members with
                     | m :: _ => dict_get m "clubName"
                     | [] => VStr ""
                     end;
          ci_total_members := length members;
          ci_scraped_matches := scraped_total match_history |};
     members := members;
     player_profiles := player_profiles;
     match_history := match_history |}.

Definition get_club_data (club_id : string)
    (max_members max_matches matches_per_player : Z) (fuel : nat)
  : M W CrawlResult :=
  _log (LStart club_id) ;>
  _log LFetchingMembers ;>
  (sm <~ call (EGetMembers club_id) (get_members_by_club client club_id) ;
   if negb (truthy (fst sm)) then raise MembersUnavailable
   else
     let members := slice_to (snd sm) (or0 max_members) in
     _log LFetchingProfiles ;>
     (player_profiles <~ enrich members 0 (length members) [] ;
      _log LFetchingHistory ;>
      (player_ids <~ lift (player_ids_of py_str
                             (slice_to members (or0 max_matches))) ;
       match_history <~ fetch_history fuel matches_per_player
                          player_ids 0 (length player_ids) ∅ ;
       ret (assemble club_id members player_profiles match_history)))).

End Pipeline.

(** ** [export_to_excel]: the rows of the match-history sheet

    Lines 262-364 flatten [data["match_history"]] into [match_data], one
    dict per match, before pandas and openpyxl take over.  The block
    handles no exception: the first one raised ends the export. *)

(** The two exceptions the block can raise. *)
Inductive flat_exn : Type :=
  | NotADict       (* AttributeError: .get on a value that is not a dict *)
  | NotIterable.   (* TypeError: a for loop over a value without __iter__ *)

Inductive Try (A : Type) : Type :=
  | Done (a : A)
  | Fails (e : flat_exn).
Arguments Done {A} a.
Arguments Fails {A} e.

Definition and_then {A B} (m : Try A) (k : A → Try B) : Try B :=
  match m with
  | Done a => k a
  | Fails e => Fails e
  end.

Declare Scope try_scope.
Delimit Scope try_scope with try.
Notation "x <- m ;; k" := (and_then m (λ x, k))
  (at level 100, m at next level, right associativity,
   format "'[v' x  <-  m  ;;  '/' k ']'") : try_scope.
Local Open Scope try_scope.

(** [v.get(key, dflt)] on any value: only a dict has the method. *)
Definition get_or (v : Val) (key : string) (dflt : Val) : Try Val :=
  match v with
  | VDict d => Done (dict_get_or d key dflt)
  | _ => Fails NotADict
  end.

(** [v.get(key)]. *)
Definition get (v : Val) (key : string) : Try Val := get_or v key VNone.

(** [v.get(outer, {}).get(inner)]. *)
Definition get_in (v : Val) (outer inner : string) : Try Val :=
  x <- get_or v outer (VDict ∅) ;; get x inner.

(** The items a [for] loop over a value visits.  A dict yields its keys
    and a string its characters; the order of the keys is not kept by the
    model of dicts. *)
Definition py_iter (v : Val) : Try (list Val) :=
  match v with
  | VList l => Done l
  | VDict d => Done (VStr <$> (map_to_list d).*1)
  | VStr s => Done ((λ c, VStr (String c "")) <$> String.list_ascii_of_string s)
  | _ => Fails NotIterable
  end.

(** [isinstance(v, dict)]. *)
Definition is_dict (v : Val) : bool :=
  match v with
  | VDict _ => true
  | _ => false
  end.

(** [v == s] for a string literal [s]. *)
Definition eq_str (v : Val) (s : string) : bool :=
  match v with
  | VStr s' => String.eqb s' s
  | _ => false
  end.

(** [v != z] for an integer literal [z]; a bool compares as 0 or 1. *)
Definition ne_int (v : Val) (z : Z) : bool :=
  match v with
  | VInt z' => negb (z' =? z)
  | VBool b => negb ((if b then 1 else 0) =? z)
  | _ => true
  end.

(** [d.update(other)]: the new entries win. *)
Definition dict_update (d : gmap string Val) (other : list (string * Val))
  : gmap string Val :=
  list_to_map other ∪ d.

(** A row of [match_data]. *)
Abbreviation SheetRow := (gmap string Val).

(** Lines 269-271: is the player one of the two players of the team?  The
    second player is looked at only when the first is someone else. *)
Definition on_team (py_str : Val → string) (player_id : string) (team : Val)
  : Try bool :=
  a <- get_in team "player1" "id" ;;
  if String.eqb (py_str a) player_id then Done true
  else b <- get_in team "player2" "id" ;;
       Done (String.eqb (py_str b) player_id).

(** Lines 266-274: the loop over the teams; every team overwrites either
    [player_team] or [opponent_team]. *)
Fixpoint classify (py_str : Val → string) (player_id : string)
    (teams : list Val) (player_team opponent_team : Val)
  : Try (Val * Val) :=
  match teams with
  | [] => Done (player_team, opponent_team)
  | team :: rest =>
      mine <- on_team py_str player_id team ;;
      if mine then classify py_str player_id rest team opponent_team
      else classify py_str player_id rest player_team team
  end.

(** Lines 276-288. *)
Definition match_info (player_id : string) (match_ : Val) : Try SheetRow :=
  match_id <- get match_ "id" ;;
  event_name <- get match_ "eventName" ;;
  event_date <- get match_ "eventDate" ;;
  event_format <- get match_ "eventFormat" ;;
  league <- get match_ "league" ;;
  tournament <- get match_ "tournament" ;;
  score_format <-
    (sf <- get match_ "scoreFormat" ;;
     if is_dict sf then get_in match_ "scoreFormat" "format"
     else get match_ "scoreFormat") ;;
  confirmed <- get match_ "confirmed" ;;
  Done (list_to_map
          [("player_id", VStr player_id); ("match_id", match_id);
           ("event_name", event_name); ("event_date", event_date);
           ("event_format", event_format); ("league", league);
           ("tournament", tournament); ("score_format", score_format);
           ("confirmed", confirmed)]).

(** The keys of lines 293-319 and of lines 326-352, in the order of the
    values of [team_values]. *)
Definition player_keys : list string :=
  ["player_team_id"; "player1_id"; "player1_name"; "player1_dupr";
   "player2_id"; "player2_name"; "player2_dupr"; "player_team_winner";
   "game1_score"; "game2_score"; "game3_score";
   "player_team_rating_before"; "player_team_rating_after"].

Definition opponent_keys : list string :=
  ["opponent_team_id"; "opponent1_id"; "opponent1_name"; "opponent1_dupr";
   "opponent2_id"; "opponent2_name"; "opponent2_dupr";
   "opponent_team_winner"; "opponent_game1_score"; "opponent_game2_score";
   "opponent_game3_score"; "opponent_team_rating_before";
   "opponent_team_rating_after"].

(** The values of the dict literal of lines 292-320 (and of 325-353, which
    reads the same fields of the other team), in evaluation order. *)
Definition team_values (match_ team : Val) : Try (list Val) :=
  team_id <- get team "id" ;;
  p1_id <- get_in team "player1" "id" ;;
  p1_name <- get_in team "player1" "fullName" ;;
  p1_dupr <- get_in team "player1" "duprId" ;;
  p2_id <- get_in team "player2" "id" ;;
  p2_name <- get_in team "player2" "fullName" ;;
  p2_dupr <- get_in team "player2" "duprId" ;;
  winner <- get team "winner" ;;
  game1 <- get team "game1" ;;
  game2 <- get team "game2" ;;
  game3 <- get team "game3" ;;
  rating_before <-
    (event_format <- get match_ "eventFormat" ;;
     if eq_str event_format "DOUBLES"
     then get_in team "preMatchRatingAndImpact" "preMatchDoubleRatingPlayer1"
     else get_in team "preMatchRatingAndImpact"
            "preMatchSingleRatingPlayer1") ;;
  rating_after <-
    (event_format <- get match_ "eventFormat" ;;
     if eq_str event_format "DOUBLES"
     then player1 <- get_or team "player1" (VDict ∅) ;;
          get_in player1 "postMatchRating" "doubles"
     else player1 <- get_or team "player1" (VDict ∅) ;;
          get_in player1 "postMatchRating" "singles") ;;
  Done [team_id; p1_id; p1_name; p1_dupr; p2_id; p2_name; p2_dupr; winner;
        game1; game2; game3; rating_before; rating_after].

(** Lines 290-321 and 323-354: [if team: match_info.update({...})]. *)
Definition with_team (keys : list string) (match_ team : Val) (info : SheetRow)
  : Try SheetRow :=
  if truthy team
  then values <- team_values match_ team ;;
       Done (dict_update info (zip keys values))
  else Done info.

(** Lines 356-362.  An f-string field without a format spec renders a
    value as [str] does. *)
Definition with_result (py_str : Val → string)
    (player_team opponent_team : Val) (info : SheetRow) : Try SheetRow :=
  if truthy player_team && truthy opponent_team
  then
    winner <- get player_team "winner" ;;
    let info := <["result" := VStr (if truthy winner then "Win" else "Loss")]>
                  info in
    game1 <- get player_team "game1" ;;
    opponent_game1 <- get opponent_team "game1" ;;
    let score_summary :=
      String.append (py_str game1)
        (String.append "-" (py_str opponent_game1)) in
    game2 <- get player_team "game2" ;;
    if ne_int game2 (-1)
    then
      game2' <- get player_team "game2" ;;
      opponent_game2 <- get opponent_team "game2" ;;
      Done (<["score_summary" :=
                VStr (String.append score_summary
                        (String.append ", "
                           (String.append (py_str game2')
                              (String.append "-"
                                 (py_str opponent_game2)))))]> info)
    else Done (<["score_summary" := VStr score_summary]> info)
  else Done info.

(** Lines 266-364: the row of one match of one player. *)
Definition match_row (py_str : Val → string) (player_id : string)
    (match_ : Val) : Try SheetRow :=
  teams_value <- get_or match_ "teams" (VList []) ;;
  teams <- py_iter teams_value ;;
  found <- classify py_str player_id teams VNone VNone ;;
  info <- match_info player_id match_ ;;
  info <- with_team player_keys match_ (fst found) info ;;
  info <- with_team opponent_keys match_ (snd found) info ;;
  with_result py_str (fst found) (snd found) info.

(** Lines 265-364: the loop over the matches of one player. *)
Fixpoint player_rows (py_str : Val → string) (player_id : string)
    (matches : list Val) (match_data : list SheetRow) : Try (list SheetRow) :=
  match matches with
  | [] => Done match_data
  | match_ :: rest =>
      row <- match_row py_str player_id match_ ;;
      player_rows py_str player_id rest (match_data ++ [row])
  end.

(** Lines 264-364: the loop over the items of [data["match_history"]]. *)
Fixpoint all_rows (py_str : Val → string)
    (items : list (string * list Val)) (match_data : list SheetRow)
  : Try (list SheetRow) :=
  match items with
  | [] => Done match_data
  | (player_id, matches) :: rest =>
      match_data' <- player_rows py_str player_id matches match_data ;;
      all_rows py_str rest match_data'
  end.

(** Lines 263-364: [match_data] starts empty; [items] are the items of
    [data["match_history"]] in the order the dict gives them. *)
Definition match_data (py_str : Val → string)
    (items : list (string * list Val)) : Try (list SheetRow) :=
  all_rows py_str items [].

(** ** [parse_scores]

    Lines 1193-1216: who won a match, read off a string of game scores
    such as ["11-5, 9-11, 11-7"]. *)

(** [s.split(sep)] for a one-character separator. *)
Fixpoint split_on (sep : Ascii.ascii) (s : string) : list string :=
  match s with
  | EmptyString => [EmptyString]
  | String c rest =>
      if Ascii.eqb c sep then EmptyString :: split_on sep rest
      else match split_on sep rest with
           | piece :: pieces => String c piece :: pieces
           | [] => [String c EmptyString]
           end
  end.

(** [s.split(sep, 1)] when [sep in s]: the text before and after the
    first separator; [None] when [sep not in s]. *)
Fixpoint split_once (sep : Ascii.ascii) (s : string)
  : option (string * string) :=
  match s with
  | EmptyString => None
  | String c rest =>
      if Ascii.eqb c sep then Some (EmptyString, rest)
      else match split_once sep rest with
           | Some (before, after_) => Some (String c before, after_)
           | None => None
           end
  end.

Section ParseScores.
(** Python's [str.strip] and [int] are taken as given; [py_int] is [None]
    where [int] raises. *)
Variable py_strip : string → string.
Variable py_int : string → option Z.

(** Line 1197. *)
Definition games_of (scores_str : string) : list string :=
  py_strip <$> filter (λ g, py_strip g ≠ "") (split_on ","%char scores_str).

(** Lines 1205-1207 for a game with a dash: the two scores, or [None]
    when [int] raises. *)
Definition game_score (g : string) : option (Z * Z) :=
  match split_once "-"%char g with
  | None => None
  | Some (a_s, b_s) =>
      match py_int (py_strip a_s) with
      | None => None
      | Some a_sc =>
          match py_int (py_strip b_s) with
          | None => None
          | Some b_sc => Some (a_sc, b_sc)
          end
      end
  end.

(** Lines 1202-1211: the loop over the games; [None] when it raises. *)
Fixpoint count_wins (games : list string) (wins_a wins_b : Z)
  : option (Z * Z) :=
  match games with
  | [] => Some (wins_a, wins_b)
  | g :: rest =>
      match split_once "-"%char g with
      | None => count_wins rest wins_a wins_b
      | Some _ =>
          match game_score g with
          | None => None
          | Some (a_sc, b_sc) =>
              if b_sc <? a_sc then count_wins rest (wins_a + 1) wins_b
              else if a_sc <? b_sc then count_wins rest wins_a (wins_b + 1)
              else count_wins rest wins_a wins_b
          end
      end
  end.

(** Lines 1193-1216.  The floats 1.0 and 0.0 are written as the integers
    they equal; every exception ends in [return None]. *)
Definition parse_scores (scores_str : string) : option Z :=
  if String.eqb (py_strip scores_str) "" then None
  else
    match games_of scores_str with
    | [] => None
    | games =>
        match count_wins games 0 0 with
        | None => None
        | Some (wins_a, wins_b) =>
            if wins_a =? wins_b then None
            else Some (if wins_b <? wins_a then 1 else 0)
        end
    end.

End ParseScores.

(** The games of a list that have a dash, with the scores read from them
    ([None] for a game whose scores cannot be read). *)
Definition dashed_scores (py_strip : string → string)
    (py_int : string → option Z) (games : list string)
  : list (option (Z * Z)) :=
  game_score py_strip py_int
    <$> filter (λ g, is_Some (split_once "-"%char g)) games.

(** The number of games of a list of scores that the first side won. *)
Definition games_won (scores : list (Z * Z)) : nat :=
  length (filter (λ ab, snd ab < fst ab) scores).

(** The same scores from the other side. *)
Definition swapped (scores : list (Z * Z)) : list (Z * Z) :=
  (λ ab, (snd ab, fst ab)) <$> scores.

(** ** A simulated client

    A scripted stand-in for the external service: every call pops the
    next scripted reply.  When a script has run out, [get_player] and
    [dupr_post] raise and [login_user] succeeds.  The cancellation event
    is set once and stays set: [sw_stop = Some k] lets [k] more polls
    read unset, [None] means it is never set. *)

Record SimWorld : Type := mkSim {
  sw_players : list (Reply (Val * Val));
  sw_posts : list (Reply Response);
  sw_logins : list (Reply unit);
  sw_stop : option nat
}.

Definition sim_get_player (player_id : string) (w : SimWorld)
  : Reply (Val * Val) * SimWorld :=
  match sw_players w with
  | [] => (Raises "get_player", w)
  | r :: rs => (r, mkSim rs (sw_posts w) (sw_logins w) (sw_stop w))
  end.

Definition sim_dupr_post (path : string) (json_data : Val) (w : SimWorld)
  : Reply Response * SimWorld :=
  match sw_posts w with
  | [] => (Raises "dupr_post", w)
  | r :: rs => (r, mkSim (sw_players w) rs (sw_logins w) (sw_stop w))
  end.

Definition sim_login_user (w : SimWorld) : Reply unit * SimWorld :=
  match sw_logins w with
  | [] => (Returns tt, w)
  | r :: rs => (r, mkSim (sw_players w) (sw_posts w) rs (sw_stop w))
  end.

Definition sim_is_set (w : SimWorld) : bool * SimWorld :=
  match sw_stop w with
  | None => (false, w)
  | Some O => (true, w)
  | Some (S k) =>
      (false, mkSim (sw_players w) (sw_posts w) (sw_logins w) (Some k))
  end.

(** The simulated paging decode reads the cursor under ["next"] and the
    batch under ["hits"]. *)
Definition sim_handle_paging (data : Val) : Reply (option Z * list Val) :=
  match data with
  | VDict d =>
      match d !! "hits" with
      | Some (VList hits) =>
          match d !! "next" with
          | Some (VInt z) => Returns (Some z, hits)
          | _ => Returns (None, hits)
          end
      | _ => Raises "hits"
      end
  | _ => Raises "result"
  end.

Definition sim_client (roster : Reply (Val * list Member)) : Client SimWorld :=
  {| get_members_by_club := λ _ w, (roster, w);
     get_player := sim_get_player;
     dupr_post := sim_dupr_post;
     login_user := sim_login_user;
     handle_paging := sim_handle_paging |}.

(** A 200 response whose body decodes to [(next, hits)]. *)
Definition page_response (next : option Z) (hits : list Val) : Response :=
  {| status_code := 200;
     json := Returns (VDict (list_to_map
               [("next", match next with Some z => VInt z | None => VNone end);
                ("hits", VList hits)])) |}.

(** A response with a status code and no usable body. *)
Definition status_response (code : Z) : Response :=
  {| status_code := code; json := Raises "json" |}.

(** [str] on the scalars a roster id can be; other values are not
    rendered by this stand-in. *)
Definition scalar_str (v : Val) : string :=
  match v with
  | VNone => "None"
  | VBool true => "True"
  | VBool false => "False"
  | VInt z => pretty z
  | VStr s => s
  | _ => ""
  end.

(** A roster record with an id and a club name. *)
Definition member_of (id : Z) (club : string) : Member :=
  list_to_map [("id", VInt id); ("clubName", VStr club)].


(** ** Reading a trace *)

(** The page requests of a trace, in order. *)
Definition posts_of (t : list Event) : list (string * Val) :=
  omap (λ ev, match ev with EPost p d => Some (p, d) | _ => None end) t.

(** The number of reauthentication calls of a trace. *)
Definition logins_of (t : list Event) : nat :=
  length (omap (λ ev, match ev with ELogin => Some tt | _ => None end) t).

(** The delays of a trace, in order. *)
Definition sleeps_of (t : list Event) : list Z :=
  omap (λ ev, match ev with ESleep s => Some s | _ => None end) t.

(** The player-detail calls of a trace, in order. *)
Definition players_of (t : list Event) : list string :=
  omap (λ ev, match ev with EGetPlayer p => Some p | _ => None end) t.

(** The number of delays of [secs] seconds in a trace: 1 is the pause
    after a fetched page or profile, 2 the backoff of the paging loop. *)
Definition delays_of (secs : Z) (t : list Event) : nat :=
  length (filter (λ z, z = secs) (sleeps_of t)).


(** ** Vocabulary of the properties *)

(** [m] always returns a value: it neither raises nor runs out of fuel. *)
Definition returns {W A} (m : M W A) : Prop :=
  ∀ w, ∃ a, out_res (m w) = Ok a.

(** [m] lets no exception escape. *)
Definition no_raise {W A} (m : M W A) : Prop :=
  ∀ w e, out_res (m w) ≠ Raise e.

(** [m] contains no loop that can be cut off. *)
Definition no_cutoff {W A} (m : M W A) : Prop :=
  ∀ w, out_res (m w) ≠ OutOfFuel.

(** The value a run returned, if it returned one. *)
Definition result_of {W A} (o : Out W A) : option A :=
  match out_res o with Ok a => Some a | _ => None end.

(** What [_log message] adds to the trace. *)
Definition said (log : bool) (message : LogMsg) : list Event :=
  if log then [ELog message] else [].

(** The outcome of the [except] clause of the paging loop after the
    events [t]. *)
Definition retried {W} (log : bool) (off : Z) (ml : list Val) (rc : Z)
    (w : W) (t : list Event) (e : exn) : Out W Step :=
  mkOut (Ok (Continue (mkLoop (Some off) ml (rc + 1)))) w
    (t ++ said log (LProcessingError e) ++ [ESleep 2]).

(** A reply to a page request on which the loop goes round again without
    using the retry budget: status 200, a non-empty batch, a cursor. *)
Definition advancing {W} (client : Client W) (r : Reply Response) : bool :=
  match r with
  | Returns resp =>
      (status_code resp =? 200) &&
      match json resp with
      | Returns data =>
          match handle_paging client data with
          | Returns (Some _, _ :: _) => true
          | _ => false
          end
      | Raises _ => false
      end
  | Raises _ => false
  end.

(** [mu] counts the advancing pages the service has left: no call adds
    to it and an advancing reply takes one away. *)
Record paging_bounded {W} (client : Client W)
    (stop_event : option (W → bool * W)) (mu : W → nat) : Prop := {
  pb_members : ∀ club_id w,
    (mu (snd (get_members_by_club client club_id w)) ≤ mu w)%nat;
  pb_player : ∀ player_id w,
    (mu (snd (get_player client player_id w)) ≤ mu w)%nat;
  pb_login : ∀ w, (mu (snd (login_user client w)) ≤ mu w)%nat;
  pb_is_set : ∀ is_set w,
    stop_event = Some is_set → (mu (snd (is_set w)) ≤ mu w)%nat;
  pb_post : ∀ path body w,
    (mu (snd (dupr_post client path body w)) ≤ mu w)%nat;
  pb_advance : ∀ path body w,
    advancing client (fst (dupr_post client path body w)) = true →
    (mu (snd (dupr_post client path body w)) < mu w)%nat
}.

(** [m] does not add pages to what the service has left. *)
Definition mono {W A} (mu : W → nat) (m : M W A) : Prop :=
  ∀ w, (mu (out_world (m w)) ≤ mu w)%nat.

(** [hits] is what the paging loop of [pid] ended with in some run
    started from the initial loop variables. *)
Definition accumulated {W} (client : Client W)
    (stop_event : option (W → bool * W)) (log : bool) (fuel : nat) (mpp : Z)
    (pid : string) (hits : list Val) : Prop :=
  ∃ w s,
    out_res (fetch_pages client stop_event log fuel pid mpp
               (mkLoop (Some 0) [] 0) w) = Ok s
    ∧ match_list s = hits.

(** The profiles that the members [ms], visited in order, end up with when
    the detail calls are answered by [replies] in order: a member whose
    call raises (or is made after the script has run out), or whose merge
    raises, contributes none. *)
Fixpoint profiles_of_replies (py_str : Val → string) (ms : list Member)
    (replies : list (Reply (Val * Val))) : list Profile :=
  match ms with
  | [] => []
  | m :: ms' =>
      match replies with
      | [] => profiles_of_replies py_str ms' []
      | Raises _ :: replies' => profiles_of_replies py_str ms' replies'
      | Returns sd :: replies' =>
          match merge_detail
                  (base_profile (py_str (dict_get m "id")) m) (snd sd) with
          | Ok profile => profile :: profiles_of_replies py_str ms' replies'
          | _ => profiles_of_replies py_str ms' replies'
          end
      end
  end.

(** The members the profile loop visits before it reads the event set. *)
Definition visited {A} (stop : option nat) (ms : list A) : list A :=
  match stop with
  | None => ms
  | Some polls => take polls ms
  end.



(** The matches of [data["match_history"]] in the order the export visits
    them, each with the key it is stored under. *)
Definition flat_matches (items : list (string * list Val))
  : list (string * Val) :=
  items ≫= λ item, (λ match_, (fst item, match_)) <$> snd item.

(** A team record the export can read: a dict whose two players and
    rating impact, and the first player's post-match rating, are dicts
    where they are present. *)
Definition readable_team (team : Val) : bool :=
  match team with
  | VDict t =>
      is_dict (dict_get_or t "player2" (VDict ∅))
      && is_dict (dict_get_or t "preMatchRatingAndImpact" (VDict ∅))
      && match dict_get_or t "player1" (VDict ∅) with
         | VDict p => is_dict (dict_get_or p "postMatchRating" (VDict ∅))
         | _ => false
         end
  | _ => false
  end.

(** A match record the export can read: a dict whose teams, if any, are a
    list of readable teams. *)
Definition readable_match (match_ : Val) : bool :=
  match match_ with
  | VDict d =>
      match dict_get_or d "teams" (VList []) with
      | VList teams => forallb readable_team teams
      | _ => false
      end
  | _ => false
  end.

(** What a row of [match_data] says about the stored match it was made
    from. *)
Definition row_of (row : SheetRow) (entry : string * Val) : Prop :=
  ∃ d, snd entry = VDict d
       ∧ row !! "player_id" = Some (VStr (fst entry))
       ∧ row !! "match_id" = Some (dict_get d "id")
       ∧ row !! "event_date" = Some (dict_get d "eventDate").

(** ** Sample crawls *)

(** A roster of two members of club ["A"]. *)
Definition two_members : list Member := [member_of 7 "A"; member_of 8 "A"].



(** The first player has two pages of history, the second none. *)
Definition sample_world : SimWorld :=
  mkSim [Returns (VInt 200, VNone); Returns (VInt 200, VNone)]
        [Returns (page_response (Some 20) [VInt 1]);
         Returns (page_response None [VInt 2]);
         Returns (page_response None [])]
        [] None.

(** Two players with one match each. *)
Definition spread_world : SimWorld :=
  mkSim [Returns (VInt 200, VNone); Returns (VInt 200, VNone)]
        [Returns (page_response None [VInt 1]);
         Returns (page_response None [VInt 2])]
        [] None.

(** A crawl of [two_members] against the world [w]. *)
Definition sample_run (w : SimWorld) : Out SimWorld CrawlResult :=
  get_club_data scalar_str (sim_client (Returns (VBool true, two_members)))
    (Some sim_is_set) true "club" 20 5 10 5 w.

(** The result of [sample_run sample_world]. *)
Definition sample_result : CrawlResult :=
  {| club_info := {| ci_id := "club"; ci_name := VStr "A";
                     ci_total_members := 2; ci_scraped_matches := 2 |};
     members := two_members;
     player_profiles :=
       [base_profile "7" (member_of 7 "A");
        base_profile "8" (member_of 8 "A")];
     match_history := {["7" := [VInt 1; VInt 2]]} |}.

(** A crawl of a two-member roster with [max_members = -1]. *)
Definition negative_cap_run : Out SimWorld CrawlResult :=
  get_club_data scalar_str
    (sim_client (Returns (VBool true, [member_of 7 "A"; member_of 8 "A"])))
    None false "club" (-1) 0 10 1
    (mkSim [] [] [] None).

(** A crawl of one member whose detail call raises; no history is asked
    for. *)
Definition failing_profile_run : Out SimWorld CrawlResult :=
  get_club_data scalar_str
    (sim_client (Returns (VBool true, [member_of 7 "A"])))
    (Some sim_is_set) false "club" 20 0 10 1
    (mkSim [Raises "timeout"] [] [] None).

(** A service whose history endpoint cannot be reached. *)
Definition unreachable_client : Client SimWorld :=
  {| get_members_by_club := λ _ w, (Returns (VBool true, two_members), w);
     get_player := sim_get_player;
     dupr_post := λ _ _ w, (Raises "connection", w);
     login_user := sim_login_user;
     handle_paging := sim_handle_paging |}.

(** The paging loop of player ["7"] against that service. *)
Definition unreachable_run : Out SimWorld Loop :=
  fetch_pages unreachable_client None false 4 "7" 10
    (mkLoop (Some 0) [] 0) (mkSim [] [] [] None).

(** A service whose history endpoint answers 200 with a body that cannot
    be decoded. *)
Definition undecodable_client : Client SimWorld :=
  {| get_members_by_club := λ _ w, (Returns (VBool true, two_members), w);
     get_player := sim_get_player;
     dupr_post := λ _ _ w, (Returns (mkResponse 200 (Raises "json")), w);
     login_user := sim_login_user;
     handle_paging := sim_handle_paging |}.

(** The paging loop of player ["7"] against that service. *)
Definition undecodable_run : Out SimWorld Loop :=
  fetch_pages undecodable_client None false 4 "7" 10
    (mkLoop (Some 0) [] 0) (mkSim [] [] [] None).

(** A roster record that has no ["id"]. *)
Definition nameless_member : Member :=
  list_to_map [("fullName", VStr "Ann"); ("clubName", VStr "A")].

(** A crawl of a roster with that record alone. *)
Definition missing_id_run : Out SimWorld CrawlResult :=
  get_club_data scalar_str
    (sim_client (Returns (VBool true, [nameless_member])))
    None false "club" 20 5 10 1
    (mkSim [Returns (VInt 200, VNone)] [] [] None).

(** The paging loop of player ["7"] against a service with two pages,
    the first with cursor 20, the second with a null cursor. *)
Definition two_page_run : Out SimWorld Loop :=
  fetch_pages (sim_client (Returns (VBool true, two_members)))
    (Some sim_is_set) true 3 "7" 10 (mkLoop (Some 0) [] 0)
    (mkSim [] [Returns (page_response (Some 20) [VInt 1]);
               Returns (page_response None [VInt 2])] [] None).

(** A body that decodes to no hits and a null cursor. *)
Definition empty_page : Val :=
  VDict (list_to_map [("next", VNone); ("hits", VList [])]).

(** A crawl of one member whose history endpoint answers 403 twice and
    then 200 with [empty_page]. *)
Definition reauth_run : Out SimWorld CrawlResult :=
  get_club_data scalar_str
    (sim_client (Returns (VBool true, [member_of 7 "A"])))
    (Some sim_is_set) true "club" 20 5 10 3
    (mkSim []
       [Returns (mkResponse 403 (Raises "json"));
        Returns (mkResponse 403 (Raises "json"));
        Returns (mkResponse 200 (Returns empty_page))]
       [] None).


(** ** Sample records for the export and the score reader *)

(** A player record inside a team. *)
Definition player_of (id : Z) (name : string) : Val :=
  VDict (list_to_map [("id", VInt id); ("fullName", VStr name)]).

(** A doubles team with its two players, the winner flag and two games. *)
Definition team_of (id p1 p2 : Z) (winner : bool) (game1 game2 : Z)
  : gmap string Val :=
  list_to_map
    [("id", VInt id); ("player1", player_of p1 "P"); ("player2", player_of p2 "Q");
     ("winner", VBool winner); ("game1", VInt game1); ("game2", VInt game2)].

(** A singles team as some services send it: the second player is null. *)
Definition singles_team (id p1 : Z) (winner : bool) : gmap string Val :=
  list_to_map
    [("id", VInt id); ("player1", player_of p1 "P"); ("player2", VNone);
     ("winner", VBool winner); ("game1", VInt 11); ("game2", VInt (-1))].

(** A match record without its teams. *)
Definition match_base : gmap string Val :=
  list_to_map
    [("id", VInt 100); ("eventName", VStr "Open");
     ("eventDate", VStr "2024-05-01"); ("eventFormat", VStr "DOUBLES")].

(** Player 7 and player 70 beat players 8 and 80 by 11-5, 11-9. *)
Definition team_a : gmap string Val := team_of 1 7 70 true 11 11.
Definition team_b : gmap string Val := team_of 2 8 80 false 5 9.

Definition doubles_match : gmap string Val :=
  <["teams" := VList [VDict team_a; VDict team_b]]> match_base.

(** A singles match whose teams have a null second player. *)
Definition singles_match : gmap string Val :=
  <["teams" := VList [VDict (singles_team 1 7 true);
                      VDict (singles_team 2 8 false)]]> match_base.

(** The history of player ["7"]: the doubles match. *)
Definition doubles_items : list (string * list Val) :=
  [("7", [VDict doubles_match])].

(** The rows of [doubles_items]. *)
Definition doubles_rows : list SheetRow :=
  match match_data scalar_str doubles_items with
  | Done rows => rows
  | Fails _ => []
  end.

(** The row of [doubles_match] for player ["7"]. *)
Definition doubles_row : SheetRow :=
  match match_row scalar_str "7" (VDict doubles_match) with
  | Done row => row
  | Fails _ => ∅
  end.

(** The row of [doubles_match] for player ["9"], who did not play. *)
Definition stranger_row : SheetRow :=
  match match_row scalar_str "9" (VDict doubles_match) with
  | Done row => row
  | Fails _ => ∅
  end.

(** A service with one page of history for the first player: the doubles
    match. *)
Definition doubles_world : SimWorld :=
  mkSim [Returns (VInt 200, VNone); Returns (VInt 200, VNone)]
        [Returns (page_response None [VDict doubles_match]);
         Returns (page_response None [])]
        [] None.

(** The result of [sample_run doubles_world]. *)
Definition doubles_result : CrawlResult :=
  {| club_info := {| ci_id := "club"; ci_name := VStr "A";
                     ci_total_members := 2; ci_scraped_matches := 1 |};
     members := two_members;
     player_profiles :=
       [base_profile "7" (member_of 7 "A");
        base_profile "8" (member_of 8 "A")];
     match_history := {["7" := [VDict doubles_match]]} |}.

(** A crawl of [two_members] without a cancellation event. *)
Definition uncancelled_run : Out SimWorld CrawlResult :=
  get_club_data scalar_str (sim_client (Returns (VBool true, two_members)))
    None true "club" 20 5 10 5 sample_world.

(** A crawl whose roster fetch answers with a falsy status. *)
Definition refused_run : Out SimWorld CrawlResult :=
  get_club_data scalar_str (sim_client (Returns (VBool false, [])))
    (Some sim_is_set) true "club" 20 5 10 5 sample_world.

(** A crawl of one member, cancelled after the first page of history. *)
Definition page_then_cancel_run : Out SimWorld CrawlResult :=
  get_club_data scalar_str
    (sim_client (Returns (VBool true, [member_of 7 "A"])))
    (Some sim_is_set) true "club" 20 5 10 2
    (mkSim [Returns (VInt 200, VNone)]
       [Returns (mkResponse 200 (Returns (VDict (list_to_map
          [("next", VInt 10); ("hits", VList [VInt 1])]))))]
       [] (Some 3%nat)).

(** [str.strip] on text whose white space is ASCII. *)
Fixpoint lstrip (s : string) : string :=
  match s with
  | EmptyString => EmptyString
  | String c rest => if Ascii.is_space c then lstrip rest else s
  end.

Definition ascii_strip (s : string) : string :=
  String.rev (lstrip (String.rev (lstrip s))).

(** [int] on unsigned decimal text; the other spellings [int] accepts
    are refused by this stand-in. *)
Fixpoint digits_value (s : string) (acc : Z) : option Z :=
  match s with
  | EmptyString => Some acc
  | String c rest =>
      match Ascii.is_nat c with
      | Some n => digits_value rest (10 * acc + Z.of_nat n)
      | None => None
      end
  end.

Definition digits_int (s : string) : option Z :=
  match s with
  | EmptyString => None
  | _ => digits_value s 0
  end.

(** * Properties *)

(** ** Slicing *)

Lemma slice_to_zero {A} (l : list A) : slice_to l (or0 0) = [].
Proof. reflexivity. Qed.

Lemma slice_to_nonneg {A} (l : list A) (k : Z) :
  0 ≤ k → slice_to l (or0 k) = take (Z.to_nat k) l.
Proof.
  intros Hk. unfold slice_to, or0.
  destruct (Z.eqb_spec k 0) as [->|Hne]; [reflexivity|].
  destruct (Z.ltb_spec k 0); [lia | reflexivity].
Qed.

Lemma slice_to_negative {A} (l : list A) (k : Z) :
  k < 0 → slice_to l (or0 k) = take (length l - Z.to_nat (- k)) l.
Proof.
  intros Hk. unfold slice_to, or0.
  destruct (Z.eqb_spec k 0) as [->|Hne]; [lia|].
  destruct (Z.ltb_spec k 0); [|lia].
  f_equal. lia.
Qed.

Lemma slice_to_nil {A} (k : Z) : slice_to (@nil A) k = [].
Proof. unfold slice_to. destruct (k <? 0); apply take_nil. Qed.

Lemma slice_to_length {A} (l : list A) (k : Z) :
  (length (slice_to l k) ≤ length l)%nat.
Proof. unfold slice_to. destruct (k <? 0); rewrite length_take; lia. Qed.

(** ** Running the monad *)

Section Runs.
Context {W : Type}.

Lemma bind_res {A B} (m : M W A) (k : A → M W B) w :
  out_res (bind m k w) =
  match out_res (m w) with
  | Ok a => out_res (k a (out_world (m w)))
  | Raise e => Raise e
  | OutOfFuel => OutOfFuel
  end.
Proof.
  unfold bind. destruct (m w) as [[a|e|] w1 t]; [|reflexivity..].
  simpl. by destruct (k a w1).
Qed.

Lemma bind_trace {A B} (m : M W A) (k : A → M W B) w :
  out_trace (bind m k w) =
  out_trace (m w) ++
  match out_res (m w) with
  | Ok a => out_trace (k a (out_world (m w)))
  | _ => []
  end.
Proof.
  unfold bind. destruct (m w) as [[a|e|] w1 t]; simpl;
    rewrite ?app_nil_r; [|reflexivity..].
  by destruct (k a w1).
Qed.

Lemma bind_world {A B} (m : M W A) (k : A → M W B) w :
  out_world (bind m k w) =
  match out_res (m w) with
  | Ok a => out_world (k a (out_world (m w)))
  | _ => out_world (m w)
  end.
Proof.
  unfold bind. destruct (m w) as [[a|e|] w1 t]; [|reflexivity..].
  simpl. by destruct (k a w1).
Qed.

Lemma bind_Ok_inv {A B} (m : M W A) (k : A → M W B) w b :
  out_res (bind m k w) = Ok b →
  ∃ a, out_res (m w) = Ok a ∧ out_res (k a (out_world (m w))) = Ok b.
Proof.
  rewrite bind_res. destruct (out_res (m w)) as [a| |]; try done.
  intros H. by exists a.
Qed.

(** Running a [bind] whose first part is known. *)
Lemma bind_run_ok {A B} (m : M W A) (k : A → M W B) w a w1 t :
  m w = mkOut (Ok a) w1 t →
  bind m k w =
  mkOut (out_res (k a w1)) (out_world (k a w1)) (t ++ out_trace (k a w1)).
Proof. intros H. unfold bind. rewrite H. by destruct (k a w1). Qed.

Lemma bind_run_raise {A B} (m : M W A) (k : A → M W B) w e w1 t :
  m w = mkOut (Raise e) w1 t → bind m k w = mkOut (Raise e) w1 t.
Proof. intros H. unfold bind. by rewrite H. Qed.

Lemma try_except_run_ok {A} (m : M W A) (h : exn → M W A) w a w1 t :
  m w = mkOut (Ok a) w1 t → try_except m h w = mkOut (Ok a) w1 t.
Proof. intros H. unfold try_except. by rewrite H. Qed.

Lemma try_except_run_raise {A} (m : M W A) (h : exn → M W A) w e w1 t :
  m w = mkOut (Raise e) w1 t →
  try_except m h w =
  mkOut (out_res (h e w1)) (out_world (h e w1)) (t ++ out_trace (h e w1)).
Proof. intros H. unfold try_except. rewrite H. by destruct (h e w1). Qed.

Lemma try_except_res {A} (m : M W A) (h : exn → M W A) w :
  out_res (try_except m h w) =
  match out_res (m w) with
  | Raise e => out_res (h e (out_world (m w)))
  | r => r
  end.
Proof.
  unfold try_except. destruct (m w) as [[a|e|] w1 t]; [reflexivity| |reflexivity].
  simpl. by destruct (h e w1).
Qed.

Lemma try_except_world {A} (m : M W A) (h : exn → M W A) w :
  out_world (try_except m h w) =
  match out_res (m w) with
  | Raise e => out_world (h e (out_world (m w)))
  | _ => out_world (m w)
  end.
Proof.
  unfold try_except. destruct (m w) as [[a|e|] w1 t]; [reflexivity| |reflexivity].
  simpl. by destruct (h e w1).
Qed.

Lemma call_run {A} ev (f : W → Reply A * W) w r w1 :
  f w = (r, w1) →
  call ev f w =
  mkOut (match r with Returns a => Ok a | Raises s => Raise (External s) end)
    w1 [ev].
Proof. intros H. unfold call. by rewrite H. Qed.

Lemma returns_no_raise {A} (m : M W A) : returns m → no_raise m.
Proof. intros H w e. destruct (H w) as [a ->]. discriminate. Qed.

Lemma returns_no_cutoff {A} (m : M W A) : returns m → no_cutoff m.
Proof. intros H w. destruct (H w) as [a ->]. discriminate. Qed.

Lemma returns_ret {A} (a : A) : returns (ret (W:=W) a).
Proof. intros w. by exists a. Qed.

Lemma returns_emit ev : returns (emit (W:=W) ev).
Proof. intros w. by exists tt. Qed.

Lemma returns_bind {A B} (m : M W A) (k : A → M W B) :
  returns m → (∀ a, returns (k a)) → returns (bind m k).
Proof.
  intros Hm Hk w. rewrite bind_res. destruct (Hm w) as [a ->]. apply Hk.
Qed.

Lemma no_raise_bind {A B} (m : M W A) (k : A → M W B) :
  no_raise m → (∀ a, no_raise (k a)) → no_raise (bind m k).
Proof.
  intros Hm Hk w e. rewrite bind_res.
  destruct (out_res (m w)) eqn:E; [apply Hk | by apply Hm in E | done].
Qed.

Lemma no_cutoff_bind {A B} (m : M W A) (k : A → M W B) :
  no_cutoff m → (∀ a, no_cutoff (k a)) → no_cutoff (bind m k).
Proof.
  intros Hm Hk w. rewrite bind_res.
  destruct (out_res (m w)) eqn:E; [apply Hk | done | by apply Hm in E].
Qed.

Lemma no_cutoff_call {A} ev (f : W → Reply A * W) : no_cutoff (call ev f).
Proof. intros w. unfold call. by destruct (f w) as [[a|s] w']. Qed.

Lemma no_cutoff_decode {A} (r : Reply A) : no_cutoff (decode (W:=W) r).
Proof. intros w. by destruct r. Qed.

Lemma no_cutoff_ret {A} (a : A) : no_cutoff (ret (W:=W) a).
Proof. done. Qed.

Lemma no_cutoff_emit ev : no_cutoff (emit (W:=W) ev).
Proof. done. Qed.

(** A [try] whose handler always returns lets nothing escape. *)
Lemma returns_try_except {A} (m : M W A) (h : exn → M W A) :
  no_cutoff m → (∀ e, returns (h e)) → returns (try_except m h).
Proof.
  intros Hm Hh w. rewrite try_except_res.
  destruct (out_res (m w)) eqn:E.
  - by exists a.
  - apply Hh.
  - by apply Hm in E.
Qed.

End Runs.

(** ** One pass through the paging loop *)

Section PageStep.
Context {W : Type}.
Variable client : Client W.
Variable log : bool.

(** The step, by what the service answers. *)
Lemma page_step_run pid mpp off ml rc w :
  let path := history_path pid in
  let body := page_data mpp off in
  page_step client log pid mpp off ml rc w =
  match dupr_post client path body w with
  | (Raises what, w1) =>
      retried log off ml rc w1 [EPost path body] (External what)
  | (Returns r, w1) =>
      if status_code r =? 200 then
        match json r with
        | Raises what =>
            retried log off ml rc w1 [EPost path body] (External what)
        | Returns data =>
            match handle_paging client data with
            | Raises what =>
                retried log off ml rc w1 [EPost path body] (External what)
            | Returns (off', []) =>
                mkOut (Ok (Break (mkLoop off' ml rc))) w1
                  ([EPost path body] ++ said log LNoMoreMatches)
            | Returns (off', hits) =>
                mkOut (Ok (Continue (mkLoop off' (ml ++ hits) rc))) w1
                  ([EPost path body] ++
                   said log (LGotMatches (length hits)) ++ [ESleep 1])
            end
        end
      else if status_code r =? 403 then
        let t := [EPost path body] ++ said log (LStatusError (status_code r))
                 ++ said log LRefreshToken ++ [ELogin] in
        match login_user client w1 with
        | (Returns _, w2) =>
            mkOut (Ok (Continue (mkLoop (Some off) ml (rc + 1)))) w2 t
        | (Raises what, w2) => retried log off ml rc w2 t (External what)
        end
      else
        mkOut (Ok (Break (mkLoop (Some off) ml rc))) w1
          ([EPost path body] ++ said log (LStatusError (status_code r)))
  end.
Proof.
  unfold page_step, page_attempt. cbv zeta.
  generalize (history_path pid), (page_data mpp off). intros path body.
  unfold retried, said, try_except, page_except, bind, call, decode, _log,
    sleep, emit, ret, raise.
  destruct (dupr_post client path body w) as [[r|what] w1]; cbn.
  - destruct (status_code r =? 200); cbn.
    + destruct (json r) as [data|what]; cbn.
      * destruct (handle_paging client data) as [[off' [|h hits]]|what]; cbn;
          destruct log; reflexivity.
      * destruct log; reflexivity.
    + destruct (status_code r =? 403); cbn.
      * destruct log; cbn;
          destruct (login_user client w1) as [[[]|what] w2]; reflexivity.
      * destruct log; reflexivity.
  - destruct log; reflexivity.
Qed.

End PageStep.

(** ** What the stages let escape *)

Lemma rating_display_no_cutoff d key : rating_display d key ≠ OutOfFuel.
Proof. unfold rating_display. by destruct (dict_get_or d key (VDict ∅)). Qed.

Lemma merge_detail_no_cutoff profile detailed :
  merge_detail profile detailed ≠ OutOfFuel.
Proof.
  unfold merge_detail. destruct (truthy detailed); [|done].
  destruct detailed; try done.
  pose proof (rating_display_no_cutoff d "singles").
  pose proof (rating_display_no_cutoff d "doubles").
  destruct (rating_display d "singles"); try done.
  by destruct (rating_display d "doubles").
Qed.

Lemma player_ids_of_no_cutoff py_str ms : player_ids_of py_str ms ≠ OutOfFuel.
Proof.
  induction ms as [|m ms IH]; simpl; [done|].
  destruct (m !! "id"); [|done].
  by destruct (player_ids_of py_str ms).
Qed.

(** With an ["id"] in every record the comprehension of line 113 yields
    one id per record. *)
Lemma player_ids_of_ok py_str ms :
  Forall (λ m : Member, is_Some (m !! "id")) ms →
  ∃ ids, player_ids_of py_str ms = Ok ids ∧ length ids = length ms.
Proof.
  induction 1 as [|m ms [v Hv] _ (ids & Hids & Hlen)]; simpl.
  - by exists [].
  - rewrite Hv, Hids. exists (py_str v :: ids). simpl. by rewrite Hlen.
Qed.

Section StageFacts.
Context {W : Type}.
Variable py_str : Val → string.
Variable client : Client W.
Variable stop_event : option (W → bool * W).
Variable log : bool.

Lemma returns_log message : returns (_log (W:=W) log message).
Proof. unfold _log. destruct log; [apply returns_emit | apply returns_ret]. Qed.

Lemma returns_sleep secs : returns (sleep (W:=W) secs).
Proof. apply returns_emit. Qed.

Lemma returns_stop_requested : returns (stop_requested stop_event).
Proof.
  intros w. unfold stop_requested. destruct stop_event as [f|].
  - destruct (f w) as [b w']. by exists b.
  - by exists false.
Qed.

Lemma no_cutoff_enrich_attempt idx n player_id member profiles :
  no_cutoff (enrich_attempt client log idx n player_id member profiles).
Proof.
  unfold enrich_attempt.
  apply no_cutoff_bind; [apply returns_no_cutoff, returns_log|intros _].
  apply no_cutoff_bind; [apply no_cutoff_call|intros sd].
  apply no_cutoff_bind; [intros w; apply merge_detail_no_cutoff|intros p].
  apply no_cutoff_bind; [apply no_cutoff_emit | intros _; apply no_cutoff_ret].
Qed.

(** No failure of one member's enrichment leaves the iteration. *)
Lemma returns_enrich_member idx n member profiles :
  returns (enrich_member py_str client log idx n member profiles).
Proof.
  unfold enrich_member. apply returns_try_except.
  - apply no_cutoff_enrich_attempt.
  - intros e. apply returns_bind; [apply returns_log|].
    intros _. apply returns_ret.
Qed.

Lemma returns_enrich ms : ∀ idx n profiles,
  returns (enrich py_str client stop_event log ms idx n profiles).
Proof.
  induction ms as [|m ms IH]; intros idx n profiles; simpl.
  - apply returns_ret.
  - apply returns_bind; [apply returns_stop_requested|].
    intros [|].
    + apply returns_bind; [apply returns_log|intros _; apply returns_ret].
    + apply returns_bind; [apply returns_enrich_member|]. intros ps. apply IH.
Qed.

Lemma no_cutoff_page_attempt pid mpp off ml rc :
  no_cutoff (page_attempt client log pid mpp off ml rc).
Proof.
  unfold page_attempt.
  apply no_cutoff_bind; [apply no_cutoff_call|intros r].
  destruct (negb (status_code r =? 200)).
  - apply no_cutoff_bind; [apply returns_no_cutoff, returns_log|intros _].
    destruct (status_code r =? 403); [|apply no_cutoff_ret].
    apply no_cutoff_bind; [apply returns_no_cutoff, returns_log|intros _].
    apply no_cutoff_bind; [apply no_cutoff_call|intros _].
    apply no_cutoff_ret.
  - apply no_cutoff_bind; [apply no_cutoff_decode|intros data].
    apply no_cutoff_bind; [apply no_cutoff_decode|intros [off' hits]].
    destruct hits.
    + apply no_cutoff_bind; [apply returns_no_cutoff, returns_log|intros _].
      apply no_cutoff_ret.
    + apply no_cutoff_bind; [apply returns_no_cutoff, returns_log|intros _].
      apply no_cutoff_bind; [apply no_cutoff_emit|intros _].
      apply no_cutoff_ret.
Qed.

Lemma returns_page_except off ml rc exc :
  returns (page_except (W:=W) log off ml rc exc).
Proof.
  unfold page_except.
  apply returns_bind; [apply returns_log|intros _].
  apply returns_bind; [apply returns_sleep|intros _]. apply returns_ret.
Qed.

(** One pass through the paging loop's body always ends in [break] or
    back at the loop condition. *)
Lemma returns_page_step pid mpp off ml rc :
  returns (page_step client log pid mpp off ml rc).
Proof.
  apply returns_try_except;
    [apply no_cutoff_page_attempt | apply returns_page_except].
Qed.

(** The paging loop of one player lets no exception escape. *)
Lemma no_raise_fetch_pages fuel : ∀ pid mpp s,
  no_raise (fetch_pages client stop_event log fuel pid mpp s).
Proof.
  induction fuel as [|fuel IH]; intros pid mpp s; simpl; [done|].
  destruct (offset s) as [off|]; [|done].
  destruct (retry_count s <? max_retries); [|done].
  apply no_raise_bind;
    [apply returns_no_raise, returns_stop_requested|intros [|]].
  - apply returns_no_raise.
    apply returns_bind; [apply returns_log|intros _; apply returns_ret].
  - apply no_raise_bind;
      [apply returns_no_raise, returns_page_step|intros [s'|s']].
    + done.
    + apply IH.
Qed.

Lemma returns_keep_history pid ml mh :
  returns (keep_history (W:=W) log pid ml mh).
Proof.
  unfold keep_history. destruct ml; [|apply returns_ret].
  apply returns_bind; [apply returns_log|intros _; apply returns_ret].
Qed.

(** Neither does the loop over the players. *)
Lemma no_raise_fetch_history fuel mpp pids : ∀ idx n mh,
  no_raise (fetch_history client stop_event log fuel mpp pids idx n mh).
Proof.
  induction pids as [|pid pids IH]; intros idx n mh; simpl; [done|].
  apply no_raise_bind;
    [apply returns_no_raise, returns_stop_requested|intros [|]].
  - apply returns_no_raise.
    apply returns_bind; [apply returns_log|intros _; apply returns_ret].
  - apply no_raise_bind; [apply returns_no_raise, returns_log|intros _].
    apply no_raise_bind; [apply no_raise_fetch_pages|intros s].
    apply no_raise_bind;
      [apply returns_no_raise, returns_keep_history|intros mh'].
    apply IH.
Qed.

End StageFacts.

(** ** Termination of the crawl

    The paging loop of a player ends when the cursor becomes null, a batch
    is empty, a status other than 200 or 403 arrives, the event is set, or
    three retries are used up.  Nothing in the program bounds the number
    of pages that advance the cursor, so the crawl terminates exactly when
    the service runs out of such pages; [mu] counts the ones it has left. *)

Section Termination.
Context {W : Type}.
Variable py_str : Val → string.
Variable client : Client W.
Variable stop_event : option (W → bool * W).
Variable log : bool.
Variable mu : W → nat.
Hypothesis bounded : paging_bounded client stop_event mu.

Lemma mono_ret {A} (a : A) : mono mu (ret a).
Proof. intros w. simpl. lia. Qed.

Lemma mono_emit ev : mono mu (emit ev).
Proof. intros w. simpl. lia. Qed.

Lemma mono_lift {A} (r : Res A) : mono mu (lift r).
Proof. intros w. simpl. lia. Qed.

Lemma mono_decode {A} (r : Reply A) : mono mu (decode r).
Proof. intros w. destruct r; simpl; lia. Qed.

Lemma mono_log message : mono mu (_log log message).
Proof. unfold _log. destruct log; [apply mono_emit | apply mono_ret]. Qed.

Lemma mono_call {A} ev (f : W → Reply A * W) :
  (∀ w, (mu (snd (f w)) ≤ mu w)%nat) → mono mu (call ev f).
Proof.
  intros Hf w. unfold call. specialize (Hf w).
  by destruct (f w) as [r w'].
Qed.

Lemma mono_bind {A B} (m : M W A) (k : A → M W B) :
  mono mu m → (∀ a, mono mu (k a)) → mono mu (bind m k).
Proof.
  intros Hm Hk w. rewrite bind_world.
  destruct (out_res (m w)); [|apply Hm..].
  etrans; [apply Hk | apply Hm].
Qed.

Lemma mono_try_except {A} (m : M W A) (h : exn → M W A) :
  mono mu m → (∀ e, mono mu (h e)) → mono mu (try_except m h).
Proof.
  intros Hm Hh w. rewrite try_except_world.
  destruct (out_res (m w)); [apply Hm| |apply Hm].
  etrans; [apply Hh | apply Hm].
Qed.

Lemma mono_stop_requested : mono mu (stop_requested stop_event).
Proof.
  intros w. unfold stop_requested.
  destruct stop_event as [f|] eqn:E; [|simpl; lia].
  pose proof (pb_is_set _ _ _ bounded f w eq_refl).
  by destruct (f w).
Qed.

Lemma mono_enrich_member idx n member profiles :
  mono mu (enrich_member py_str client log idx n member profiles).
Proof.
  unfold enrich_member, enrich_attempt. apply mono_try_except.
  - apply mono_bind; [apply mono_log|intros _].
    apply mono_bind; [apply mono_call, (pb_player _ _ _ bounded)|intros sd].
    apply mono_bind; [apply mono_lift|intros p].
    apply mono_bind; [apply mono_emit|intros _; apply mono_ret].
  - intros e. apply mono_bind; [apply mono_log|intros _; apply mono_ret].
Qed.

Lemma mono_enrich ms : ∀ idx n profiles,
  mono mu (enrich py_str client stop_event log ms idx n profiles).
Proof.
  induction ms as [|m ms IH]; intros idx n profiles; simpl.
  - apply mono_ret.
  - apply mono_bind; [apply mono_stop_requested|intros [|]].
    + apply mono_bind; [apply mono_log|intros _; apply mono_ret].
    + apply mono_bind; [apply mono_enrich_member|intros ps; apply IH].
Qed.

Lemma mono_page_attempt pid mpp off ml rc :
  mono mu (page_attempt client log pid mpp off ml rc).
Proof.
  unfold page_attempt.
  apply mono_bind; [apply mono_call, (pb_post _ _ _ bounded)|intros r].
  destruct (negb (status_code r =? 200)).
  - apply mono_bind; [apply mono_log|intros _].
    destruct (status_code r =? 403); [|apply mono_ret].
    apply mono_bind; [apply mono_log|intros _].
    apply mono_bind; [apply mono_call, (pb_login _ _ _ bounded)|intros _].
    apply mono_ret.
  - apply mono_bind; [apply mono_decode|intros data].
    apply mono_bind; [apply mono_decode|intros [off' hits]].
    destruct hits.
    + apply mono_bind; [apply mono_log|intros _; apply mono_ret].
    + apply mono_bind; [apply mono_log|intros _].
      apply mono_bind; [apply mono_emit|intros _; apply mono_ret].
Qed.

Lemma mono_page_except off ml rc exc : mono mu (page_except log off ml rc exc).
Proof.
  unfold page_except.
  apply mono_bind; [apply mono_log|intros _].
  apply mono_bind; [apply mono_emit|intros _; apply mono_ret].
Qed.

Lemma mono_page_step pid mpp off ml rc :
  mono mu (page_step client log pid mpp off ml rc).
Proof.
  apply mono_try_except; [apply mono_page_attempt|apply mono_page_except].
Qed.

(** A pass that comes back to the loop condition has nulled the cursor,
    used one retry, or consumed one of the pages the service had left. *)
Lemma page_step_progress pid mpp off ml rc w s' :
  out_res (page_step client log pid mpp off ml rc w) = Ok (Continue s') →
  offset s' = None ∨ retry_count s' = rc + 1 ∨
  (retry_count s' = rc ∧
   (mu (out_world (page_step client log pid mpp off ml rc w)) < mu w)%nat).
Proof.
  pose proof (pb_advance _ _ _ bounded (history_path pid)
                (page_data mpp off) w) as Hadv.
  pose proof (page_step_run client log pid mpp off ml rc w) as Hrun.
  cbv zeta in Hrun. rewrite Hrun. clear Hrun.
  unfold advancing in Hadv. revert Hadv.
  generalize (history_path pid), (page_data mpp off). intros path body Hadv.
  destruct (dupr_post client path body w) as [[r|what] w1];
    cbn [fst snd] in Hadv.
  - destruct (status_code r =? 200).
    + destruct (json r) as [data|what].
      * destruct (handle_paging client data) as [[[o|] [|h hits]]|what];
          cbn; try done; intros [= <-]; cbn; auto.
      * cbn. intros [= <-]. cbn. auto.
    + destruct (status_code r =? 403).
      * destruct (login_user client w1) as [[[]|what] w2];
          cbn; intros [= <-]; cbn; auto.
      * done.
  - cbn. intros [= <-]. cbn. auto.
Qed.

(** The paging loop of a player returns as soon as the fuel exceeds the
    retries and the pages that are left. *)
Lemma fetch_pages_returns fuel : ∀ pid mpp s w,
  (Z.to_nat (max_retries - retry_count s) + mu w < fuel)%nat →
  ∃ s', out_res (fetch_pages client stop_event log fuel pid mpp s w) = Ok s'
        ∧ (mu (out_world
                 (fetch_pages client stop_event log fuel pid mpp s w))
           ≤ mu w)%nat.
Proof.
  induction fuel as [|fuel IH]; intros pid mpp s w Hfuel; [lia|].
  simpl. destruct (offset s) as [off|]; [|by exists s].
  destruct (Z.ltb_spec (retry_count s) max_retries) as [Hrc|Hrc];
    [|by exists s].
  rewrite bind_res, bind_world.
  destruct (returns_stop_requested stop_event w) as [stop Hstop].
  pose proof (mono_stop_requested w) as Hw1.
  rewrite Hstop.
  set (w1 := out_world (stop_requested stop_event w)) in *.
  destruct stop.
  - destruct (returns_bind (_log log LStopMidway) (λ _, ret s)
                (returns_log log _) (λ _, returns_ret s) w1) as [a Ha].
    exists a. split; [done|].
    etrans; [|apply Hw1].
    apply (mono_bind (_log log LStopMidway) (λ _, ret s));
      [apply mono_log | intros _; apply mono_ret].
  - rewrite bind_res, bind_world.
    set (stepm := page_step client log pid mpp off (match_list s)
                    (retry_count s)).
    destruct (returns_page_step client log pid mpp off
                (match_list s) (retry_count s) w1) as [step Hstep].
    pose proof (mono_page_step pid mpp off (match_list s)
                  (retry_count s) w1) as Hw2.
    pose proof (page_step_progress pid mpp off (match_list s)
                  (retry_count s) w1) as Hprog.
    fold stepm in Hstep, Hw2, Hprog.
    rewrite Hstep in *.
    set (w2 := out_world (stepm w1)) in *.
    destruct step as [s'|s'].
    + exists s'. split; [done|]. simpl. lia.
    + destruct (Hprog s' eq_refl) as [Hnone|[Hretry|[Hsame Hlt]]].
      * destruct fuel as [|fuel]; [unfold max_retries in *; lia|].
        simpl. rewrite Hnone. exists s'. split; [done|]. simpl. lia.
      * destruct (IH pid mpp s' w2) as (s'' & Hs'' & Hmu);
          [unfold max_retries in *; lia|].
        exists s''. split; [done|]. lia.
      * destruct (IH pid mpp s' w2) as (s'' & Hs'' & Hmu);
          [unfold max_retries in *; lia|].
        exists s''. split; [done|]. lia.
Qed.

(** With that much fuel for each player the loop over the players
    returns too. *)
Lemma fetch_history_returns fuel mpp pids : ∀ idx n mh w,
  (mu w + 3 < fuel)%nat →
  ∃ mh',
    out_res (fetch_history client stop_event log fuel mpp pids idx n mh w)
    = Ok mh'.
Proof.
  induction pids as [|pid pids IH]; intros idx n mh w Hfuel; simpl.
  - by exists mh.
  - rewrite bind_res.
    destruct (returns_stop_requested stop_event w) as [stop Hstop].
    pose proof (mono_stop_requested w) as Hw1.
    rewrite Hstop.
    set (w1 := out_world (stop_requested stop_event w)) in *.
    destruct stop.
    + apply (returns_bind (_log log LStopHistory) (λ _, ret mh));
        [apply returns_log | intros _; apply returns_ret].
    + rewrite bind_res.
      destruct (returns_log (W:=W) log (LHistoryFor (idx + 1) n pid) w1)
        as [[] Hlog].
      pose proof (mono_log (LHistoryFor (idx + 1) n pid) w1) as Hw2.
      rewrite Hlog.
      set (w2 := out_world (_log log (LHistoryFor (idx + 1) n pid) w1)) in *.
      rewrite bind_res.
      destruct (fetch_pages_returns fuel pid mpp (mkLoop (Some 0) [] 0) w2)
        as (s & Hs & Hw3); [simpl; unfold max_retries; lia|].
      rewrite Hs.
      set (w3 := out_world (fetch_pages client stop_event log fuel pid mpp
                              (mkLoop (Some 0) [] 0) w2)) in *.
      rewrite bind_res.
      destruct (returns_keep_history (W:=W) log pid (match_list s) mh w3)
        as [mh1 Hkeep].
      rewrite Hkeep. apply IH.
      assert (mu (out_world (keep_history log pid (match_list s) mh w3))
              ≤ mu w3)%nat; [|lia].
      unfold keep_history. destruct (match_list s); [|simpl; lia].
      apply (mono_bind (_log log (LNoHistory pid)) (λ _, ret mh));
        [apply mono_log | intros _; apply mono_ret].
Qed.

End Termination.

(** ** The result of a crawl *)

Section Crawl.
Context {W : Type}.
Variable py_str : Val → string.
Variable client : Client W.
Variable stop_event : option (W → bool * W).
Variable log : bool.

Lemma log_res message (w : W) : out_res (_log log message w) = Ok tt.
Proof. unfold _log. by destruct log. Qed.

Lemma log_world message (w : W) : out_world (_log log message w) = w.
Proof. unfold _log. by destruct log. Qed.

Lemma log_run message (w : W) :
  _log log message w =
  mkOut (Ok tt) w (if log then [ELog message] else []).
Proof. unfold _log. by destruct log. Qed.

(** The outcome of [get_club_data] in terms of its three stages. *)
Lemma get_club_data_res club_id max_members max_matches mpp fuel w :
  out_res (get_club_data py_str client stop_event log club_id
             max_members max_matches mpp fuel w) =
  match get_members_by_club client club_id w with
  | (Raises what, _) => Raise (External what)
  | (Returns (status, roster), w0) =>
      if truthy status then
        let members := slice_to roster (or0 max_members) in
        let o1 := enrich py_str client stop_event log members 0
                    (length members) [] w0 in
        match out_res o1 with
        | Ok profiles =>
            match player_ids_of py_str (slice_to members (or0 max_matches))
            with
            | Ok ids =>
                match out_res (fetch_history client stop_event log fuel mpp
                                 ids 0 (length ids) ∅ (out_world o1)) with
                | Ok mh => Ok (assemble club_id members profiles mh)
                | Raise e => Raise e
                | OutOfFuel => OutOfFuel
                end
            | Raise e => Raise e
            | OutOfFuel => OutOfFuel
            end
        | Raise e => Raise e
        | OutOfFuel => OutOfFuel
        end
      else Raise MembersUnavailable
  end.
Proof.
  unfold get_club_data.
  repeat (rewrite ?bind_res, ?bind_world, ?log_res, ?log_world).
  unfold call.
  destruct (get_members_by_club client club_id w) as [[[status roster]|what] w0];
    simpl; [|done].
  destruct (truthy status); simpl; [|done].
  repeat (rewrite ?bind_res, ?bind_world, ?log_res, ?log_world).
  destruct (out_res (enrich _ _ _ _ _ _ _ _ w0)) as [profiles| |]; try done.
  repeat (rewrite ?bind_res, ?bind_world, ?log_res, ?log_world). simpl.
  destruct (player_ids_of _ _) as [ids| |]; try done.
  rewrite !bind_res.
  by destruct (out_res (fetch_history _ _ _ _ _ _ _ _ _ _)).
Qed.

End Crawl.

(** ** Member enumeration (C3, C10) *)

(** C3: with [max_members = -1] the slice [members[:-1]] drops only the
    last record, so a successfully fetched two-member roster is enumerated
    as its first member and not as the empty sequence. *)
Theorem C3_negative_cap_keeps_members :
  members <$> result_of negative_cap_run = Some [member_of 7 "A"] ∧
  ci_total_members ∘ club_info <$> result_of negative_cap_run = Some 1%nat.
Proof. split; vm_compute; reflexivity. Qed.

Lemma scraped_total_empty : scraped_total ∅ = 0%nat.
Proof. apply map_fold_empty. Qed.

(** C10: when the roster fetch succeeds and the truncated member sequence
    is empty, [get_club_data] returns, for any fuel, the result with name
    [""], zero counts and empty collections. *)
Theorem C10_empty_members_result {W} (py_str : Val → string)
    (client : Client W) (stop_event : option (W → bool * W)) (log : bool)
    (club_id : string) (max_members max_matches mpp : Z) (fuel : nat)
    (w w0 : W) (status : Val) (roster : list Member) :
  get_members_by_club client club_id w = (Returns (status, roster), w0) →
  truthy status = true →
  slice_to roster (or0 max_members) = [] →
  out_res (get_club_data py_str client stop_event log club_id
             max_members max_matches mpp fuel w) =
  Ok {| club_info := {| ci_id := club_id; ci_name := VStr "";
                        ci_total_members := 0; ci_scraped_matches := 0 |};
        members := [];
        player_profiles := [];
        match_history := ∅ |}.
Proof.
  intros Hroster Hstatus Hempty.
  rewrite get_club_data_res, Hroster, Hstatus. cbv zeta.
  rewrite Hempty, slice_to_nil.
  cbn [enrich ret out_res out_world player_ids_of fetch_history length].
  unfold assemble. by rewrite scraped_total_empty.
Qed.

Lemma C10_empty_members_witness :
  out_res (get_club_data scalar_str
             (sim_client (Returns (VBool true, [member_of 7 "A"])))
             (Some sim_is_set) true "club" 0 5 10 0
             (mkSim [] [] [] None)) =
  Ok {| club_info := {| ci_id := "club"; ci_name := VStr "";
                        ci_total_members := 0; ci_scraped_matches := 0 |};
        members := [];
        player_profiles := [];
        match_history := ∅ |}.
Proof.
  apply (C10_empty_members_result scalar_str _ _ _ _ _ _ _ _ _
           (mkSim [] [] [] None) (VBool true) [member_of 7 "A"]);
    reflexivity.
Defined.

(** ** What is kept in [match_history] (C2) *)

Section Kept.
Context {W : Type}.
Variable client : Client W.
Variable stop_event : option (W → bool * W).
Variable log : bool.

Lemma keep_history_res pid ml mh (w : W) :
  out_res (keep_history log pid ml mh w) =
  Ok (match ml with [] => mh | _ => <[pid := ml]> mh end).
Proof.
  unfold keep_history. destruct ml; [|done].
  by rewrite bind_res, log_res.
Qed.

(** Every entry the loop over the players adds is a non-empty
    accumulation of that player's paging loop. *)
Lemma fetch_history_kept fuel mpp pids : ∀ idx n mh w mh',
  out_res (fetch_history client stop_event log fuel mpp pids idx n mh w)
  = Ok mh' →
  ∀ pid hits, mh' !! pid = Some hits →
    mh !! pid = Some hits ∨
    (pid ∈ pids ∧ hits ≠ [] ∧ accumulated client stop_event log fuel mpp pid hits).
Proof.
  induction pids as [|p pids IH]; intros idx n mh w mh' Hrun pid hits Hget.
  - simpl in Hrun. injection Hrun as <-. by left.
  - simpl in Hrun.
    apply bind_Ok_inv in Hrun as ([|] & _ & Hrun).
    + rewrite bind_res, log_res in Hrun. injection Hrun as <-. by left.
    + apply bind_Ok_inv in Hrun as ([] & _ & Hrun).
      apply bind_Ok_inv in Hrun as (s & Hs & Hrun).
      apply bind_Ok_inv in Hrun as (mh1 & Hkeep & Hrun).
      rewrite keep_history_res in Hkeep. injection Hkeep as <-.
      destruct (IH _ _ _ _ _ Hrun pid hits Hget)
        as [Hold|(Hin & Hne & Hacc)].
      * destruct (match_list s) as [|h ml] eqn:Hml; [by left|].
        destruct (decide (p = pid)) as [->|Hneq].
        -- rewrite lookup_insert_eq in Hold. injection Hold as <-.
           right. split; [set_solver|]. split; [done|].
           eexists _, s. by split.
        -- rewrite lookup_insert_ne in Hold by done. by left.
      * right. split; [set_solver|]. by split.
Qed.

End Kept.

(** C2: in the result of any run, a player id is a key of [match_history]
    only with a non-empty sequence, and that sequence is what the paging
    loop of that player accumulated; an empty accumulation is not stored. *)
Theorem C2_match_history_entries_nonempty {W} (py_str : Val → string)
    (client : Client W) (stop_event : option (W → bool * W)) (log : bool)
    (club_id : string) (max_members max_matches mpp : Z) (fuel : nat)
    (w : W) (r : CrawlResult) :
  out_res (get_club_data py_str client stop_event log club_id
             max_members max_matches mpp fuel w) = Ok r →
  ∀ pid hits, match_history r !! pid = Some hits →
    hits ≠ [] ∧ accumulated client stop_event log fuel mpp pid hits.
Proof.
  rewrite get_club_data_res.
  destruct (get_members_by_club client club_id w)
    as [[[status roster]|what] w0]; [|done].
  destruct (truthy status); [|done]. cbv zeta.
  destruct (out_res (enrich _ _ _ _ _ _ _ _ _)) as [profiles| |]; try done.
  destruct (player_ids_of _ _) as [ids| |]; try done.
  destruct (out_res (fetch_history _ _ _ _ _ _ _ _ _ _)) as [mh| |] eqn:Hmh;
    try done.
  intros [= <-] pid hits Hget. simpl in Hget.
  destruct (fetch_history_kept _ _ _ _ _ _ _ _ _ _ _ Hmh pid hits Hget)
    as [Hempty|(_ & Hne & Hacc)]; [|done].
  by rewrite lookup_empty in Hempty.
Qed.

Lemma C2_match_history_entries_nonempty_witness :
  [VInt 1; VInt 2] ≠ [] ∧
  accumulated (sim_client (Returns (VBool true, two_members)))
    (Some sim_is_set) true 5 10 "7" [VInt 1; VInt 2].
Proof.
  eapply (C2_match_history_entries_nonempty scalar_str
            (sim_client (Returns (VBool true, two_members)))
            (Some sim_is_set) true "club" 20 5 10 5 sample_world).
  - vm_compute. reflexivity.
  - vm_compute. reflexivity.
Defined.

(** ** The assembled result (C8) *)

Lemma scraped_total_sum (mh : gmap string (list Val)) :
  scraped_total mh = sum_list (length ∘ snd <$> map_to_list mh).
Proof.
  unfold scraped_total. rewrite map_fold_foldr.
  induction (map_to_list mh) as [|[pid hits] l IH]; simpl; [done|].
  by rewrite IH.
Qed.

(** C8, as stated, fails: [club_info] carries no count of the players with
    history.  Two crawls of the same roster agree on [club_info] while one
    has one player with history and the other two. *)
Lemma C8_club_info_lacks_players_with_history :
  club_info <$> result_of (sample_run sample_world)
  = club_info <$> result_of (sample_run spread_world) ∧
  club_info <$> result_of (sample_run sample_world)
  = Some {| ci_id := "club"; ci_name := VStr "A";
            ci_total_members := 2; ci_scraped_matches := 2 |} ∧
  size ∘ match_history <$> result_of (sample_run sample_world) = Some 1%nat ∧
  size ∘ match_history <$> result_of (sample_run spread_world) = Some 2%nat.
Proof. repeat split; vm_compute; reflexivity. Qed.

(** C8, amended: the [club_info] of an assembled result consists of the
    club id, the first enumerated member's [clubName] (the empty string
    when no member was enumerated), the number of enumerated members and
    the total number of matches over [match_history]; the enumerated
    members are the roster cut at [max_members]. *)
Theorem C8_club_info_fields {W} (py_str : Val → string)
    (client : Client W) (stop_event : option (W → bool * W)) (log : bool)
    (club_id : string) (max_members max_matches mpp : Z) (fuel : nat)
    (w : W) (r : CrawlResult) :
  out_res (get_club_data py_str client stop_event log club_id
             max_members max_matches mpp fuel w) = Ok r →
  (∃ status roster,
     fst (get_members_by_club client club_id w) = Returns (status, roster)
     ∧ members r = slice_to roster (or0 max_members)) ∧
  ci_id (club_info r) = club_id ∧
  ci_name (club_info r) =
    match members r with
    | m :: _ => dict_get m "clubName"
    | [] => VStr ""
    end ∧
  ci_total_members (club_info r) = length (members r) ∧
  ci_scraped_matches (club_info r) =
    sum_list (length ∘ snd <$> map_to_list (match_history r)).
Proof.
  rewrite get_club_data_res.
  destruct (get_members_by_club client club_id w)
    as [[[status roster]|what] w0]; [|done].
  destruct (truthy status); [|done]. cbv zeta.
  destruct (out_res (enrich _ _ _ _ _ _ _ _ _)) as [profiles| |]; try done.
  destruct (player_ids_of _ _) as [ids| |]; try done.
  destruct (out_res (fetch_history _ _ _ _ _ _ _ _ _ _)) as [mh| |];
    try done.
  intros [= <-]. simpl. split; [by exists status, roster|].
  repeat split. apply scraped_total_sum.
Qed.

Lemma C8_club_info_fields_witness :
  (∃ status roster,
     fst (get_members_by_club
            (sim_client (Returns (VBool true, two_members)))
            "club" sample_world) = Returns (status, roster)
     ∧ members sample_result = slice_to roster (or0 20)) ∧
  ci_id (club_info sample_result) = "club" ∧
  ci_name (club_info sample_result) =
    match members sample_result with
    | m :: _ => dict_get m "clubName"
    | [] => VStr ""
    end ∧
  ci_total_members (club_info sample_result) = length (members sample_result) ∧
  ci_scraped_matches (club_info sample_result) =
    sum_list (length ∘ snd <$> map_to_list (match_history sample_result)).
Proof.
  apply (C8_club_info_fields scalar_str
           (sim_client (Returns (VBool true, two_members)))
           (Some sim_is_set) true "club" 20 5 10 5 sample_world
           sample_result).
  vm_compute. reflexivity.
Defined.

(** ** The delay of profile enrichment (C9) *)

(** C9, as stated, fails: the attempt for the member is made, it fails
    with an exception, and the crawl ends without having slept at all. *)
Lemma C9_no_delay_after_failed_attempt :
  out_trace failing_profile_run = [EGetMembers "club"; EIsSet; EGetPlayer "7"] ∧
  sleeps_of (out_trace failing_profile_run) = [] ∧
  player_profiles <$> result_of failing_profile_run = Some [].
Proof. repeat split; vm_compute; reflexivity. Qed.

(** What one iteration of the profile loop does, by the outcome of the
    detail call and of the merge. *)
Lemma enrich_member_run {W} (py_str : Val → string) (client : Client W)
    (log : bool) (idx n : nat) (member : Member) (profiles : list Profile)
    (w : W) :
  let player_id := py_str (dict_get member "id") in
  let said := if log then [ELog (LProcessing (idx + 1) n player_id)] else [] in
  enrich_member py_str client log idx n member profiles w =
  match get_player client player_id w with
  | (Returns sd, w1) =>
      match merge_detail (base_profile player_id member) (snd sd) with
      | Ok profile =>
          mkOut (Ok (profiles ++ [profile])) w1
            (said ++ [EGetPlayer player_id] ++ [ESleep 1])
      | Raise e =>
          mkOut (Ok profiles) w1
            ((said ++ [EGetPlayer player_id]) ++
             (if log then [ELog (LProfileError player_id e)] else []))
      | OutOfFuel => mkOut OutOfFuel w1 (said ++ [EGetPlayer player_id])
      end
  | (Raises what, w1) =>
      mkOut (Ok profiles) w1
        ((said ++ [EGetPlayer player_id]) ++
         (if log then [ELog (LProfileError player_id (External what))]
          else []))
  end.
Proof.
  unfold enrich_member, enrich_attempt. cbv zeta.
  generalize (py_str (dict_get member "id")). intros player_id.
  generalize (base_profile player_id member). intros base.
  destruct (get_player client player_id w) as [[sd|what] w1] eqn:Hcall;
    apply (call_run (EGetPlayer player_id)) in Hcall.
  - destruct (merge_detail base (snd sd)) as [profile|e|] eqn:Hmerge.
    + erewrite try_except_run_ok; [reflexivity|].
      erewrite bind_run_ok by apply log_run.
      erewrite bind_run_ok by apply Hcall.
      erewrite bind_run_ok by (unfold lift; rewrite Hmerge; reflexivity).
      erewrite bind_run_ok by reflexivity.
      reflexivity.
    + erewrite try_except_run_raise; [|
        erewrite bind_run_ok by apply log_run;
        erewrite bind_run_ok by apply Hcall;
        erewrite bind_run_raise by (unfold lift; rewrite Hmerge; reflexivity);
        reflexivity].
      erewrite bind_run_ok by apply log_run.
      simpl. by rewrite app_nil_r.
    + unfold try_except, bind. rewrite log_run. simpl. rewrite Hcall. simpl.
      unfold lift. rewrite Hmerge. reflexivity.
  - erewrite try_except_run_raise; [|
      erewrite bind_run_ok by apply log_run;
      erewrite bind_run_raise by apply Hcall;
      reflexivity].
    erewrite bind_run_ok by apply log_run.
    simpl. by rewrite app_nil_r.
Qed.

(** C9, amended: each per-member attempt calls the detail capability
    once.  When the attempt succeeds the profile is appended and the
    one-second delay is the last thing the iteration does; when it fails
    with an exception (raised by the call or by the merge) nothing is
    appended and the iteration executes no delay. *)
Theorem C9_delay_follows_successful_attempt {W} (py_str : Val → string)
    (client : Client W) (log : bool) (idx n : nat) (member : Member)
    (profiles : list Profile) (w : W) :
  let player_id := py_str (dict_get member "id") in
  let o := enrich_member py_str client log idx n member profiles w in
  players_of (out_trace o) = [player_id] ∧
  match fst (get_player client player_id w) with
  | Returns sd =>
      match merge_detail (base_profile player_id member) (snd sd) with
      | Ok profile =>
          out_res o = Ok (profiles ++ [profile]) ∧
          sleeps_of (out_trace o) = [1] ∧
          last (out_trace o) = Some (ESleep 1)
      | _ => out_res o = Ok profiles ∧ sleeps_of (out_trace o) = []
      end
  | Raises _ => out_res o = Ok profiles ∧ sleeps_of (out_trace o) = []
  end.
Proof.
  cbv zeta.
  pose proof (enrich_member_run py_str client log idx n member profiles w)
    as Hrun.
  cbv zeta in Hrun. rewrite Hrun. clear Hrun.
  generalize (py_str (dict_get member "id")). intros player_id.
  generalize (base_profile player_id member). intros base.
  destruct (get_player client player_id w) as [[sd|what] w1]; cbn [fst].
  - pose proof (merge_detail_no_cutoff base (snd sd)) as Hcut.
    destruct (merge_detail base (snd sd)) as [profile|e|]; [| |done];
      destruct log; done.
  - destruct log; done.
Qed.

(** ** Which failures are fatal (C1) *)

Lemma player_ids_of_raise py_str ms e :
  player_ids_of py_str ms = Raise e → e = KeyError "id".
Proof.
  induction ms as [|m ms IH]; simpl; [done|].
  destruct (m !! "id"); [|by intros [= <-]].
  destruct (player_ids_of py_str ms); [done|exact IH|done].
Qed.

Section Fatal.
Context {W : Type}.
Variable py_str : Val → string.
Variable client : Client W.
Variable stop_event : option (W → bool * W).
Variable log : bool.

Lemma enrich_member_length idx n member profiles w ps :
  out_res (enrich_member py_str client log idx n member profiles w) = Ok ps →
  (length ps ≤ S (length profiles))%nat.
Proof.
  pose proof (enrich_member_run py_str client log idx n member
                profiles w) as H.
  cbv zeta in H. rewrite H. clear H.
  destruct (get_player client _ w) as [[sd|what] w1].
  - destruct (merge_detail _ _) as [p|e|]; [| |done];
      intros [= <-]; rewrite ?length_app; simpl; lia.
  - intros [= <-]. lia.
Qed.

(** The profile loop appends at most one profile per member. *)
Lemma enrich_length ms : ∀ idx n profiles w ps,
  out_res (enrich py_str client stop_event log ms idx n profiles w) = Ok ps →
  (length ps ≤ length profiles + length ms)%nat.
Proof.
  induction ms as [|m ms IH]; intros idx n profiles w ps; simpl.
  - intros [= <-]. lia.
  - intros Hrun. apply bind_Ok_inv in Hrun as ([|] & _ & Hrun).
    + rewrite bind_res, log_res in Hrun. injection Hrun as <-. lia.
    + apply bind_Ok_inv in Hrun as (ps1 & H1 & Hrun).
      apply enrich_member_length in H1. apply IH in Hrun. lia.
Qed.

(** When the roster is fetched, every record whose history is asked for
    has an id and the service runs out of pages, the crawl returns. *)
Lemma get_club_data_returns club_id max_members max_matches mpp fuel w
    status roster mu :
  fst (get_members_by_club client club_id w) = Returns (status, roster) →
  truthy status = true →
  Forall (λ m : Member, is_Some (m !! "id"))
    (slice_to (slice_to roster (or0 max_members)) (or0 max_matches)) →
  paging_bounded client stop_event mu →
  (mu w + 3 < fuel)%nat →
  ∃ profiles mh,
    out_res (get_club_data py_str client stop_event log club_id
               max_members max_matches mpp fuel w)
    = Ok (assemble club_id (slice_to roster (or0 max_members)) profiles mh)
    ∧ (length profiles ≤ length (slice_to roster (or0 max_members)))%nat.
Proof.
  intros Hroster Hstatus Hids Hbound Hfuel.
  rewrite get_club_data_res.
  pose proof (pb_members _ _ _ Hbound club_id w) as Hw0.
  destruct (get_members_by_club client club_id w) as [r w0].
  simpl in Hroster, Hw0. subst r. rewrite Hstatus. cbv zeta.
  set (ms := slice_to roster (or0 max_members)) in *.
  destruct (returns_enrich py_str client stop_event log ms 0 (length ms)
              [] w0) as [profiles Hprofiles].
  pose proof (mono_enrich py_str client stop_event log mu Hbound ms 0
                (length ms) [] w0) as Hw1.
  rewrite Hprofiles.
  destruct (player_ids_of_ok py_str _ Hids) as (ids & Hids' & _).
  rewrite Hids'.
  destruct (fetch_history_returns client stop_event log mu Hbound fuel mpp
              ids 0 (length ids) ∅
              (out_world (enrich py_str client stop_event log ms 0
                            (length ms) [] w0)))
    as [mh Hmh]; [lia|].
  rewrite Hmh. exists profiles, mh. split; [done|].
  apply enrich_length in Hprofiles. simpl in Hprofiles. lia.
Qed.

End Fatal.

(** X21: [get_club_data] raises [MembersUnavailable] exactly when the
    roster fetch returns a false status.  When the roster is fetched and
    the records whose history is asked for carry an id, no exception leaves
    the function whatever the detail calls, page requests, reauthentication
    and cancellation event do; and once the service has no more pages
    than the fuel allows, the function returns the assembled result, whose
    members are the truncated roster and whose profiles are at most as
    many. *)
Theorem fetched_roster_with_ids_is_never_fatal {W} (py_str : Val → string)
    (client : Client W) (stop_event : option (W → bool * W)) (log : bool)
    (club_id : string) (max_members max_matches mpp : Z) (fuel : nat)
    (w : W) :
  let run := get_club_data py_str client stop_event log club_id
               max_members max_matches mpp fuel w in
  (out_res run = Raise MembersUnavailable ↔
   ∃ status roster,
     fst (get_members_by_club client club_id w) = Returns (status, roster)
     ∧ truthy status = false) ∧
  (∀ status roster,
     fst (get_members_by_club client club_id w) = Returns (status, roster) →
     truthy status = true →
     Forall (λ m : Member, is_Some (m !! "id"))
       (slice_to (slice_to roster (or0 max_members)) (or0 max_matches)) →
     (∀ e, out_res run ≠ Raise e) ∧
     (∀ mu, paging_bounded client stop_event mu → (mu w + 3 < fuel)%nat →
        ∃ r, out_res run = Ok r
             ∧ members r = slice_to roster (or0 max_members)
             ∧ (length (player_profiles r) ≤ length (members r))%nat)).
Proof.
  intros run. split; [split|].
  - subst run. rewrite get_club_data_res.
    destruct (get_members_by_club client club_id w)
      as [[[status roster]|what] w0]; [|done].
    destruct (truthy status) eqn:Hstatus; [|by exists status, roster].
    cbv zeta.
    destruct (returns_enrich py_str client stop_event log
                (slice_to roster (or0 max_members)) 0
                (length (slice_to roster (or0 max_members))) [] w0)
      as [profiles ->].
    destruct (player_ids_of _ _) as [ids|e|] eqn:Hids; [| |done].
    + pose proof (no_raise_fetch_history client stop_event log fuel mpp ids
                    0 (length ids) ∅
                    (out_world (enrich py_str client stop_event log
                       (slice_to roster (or0 max_members)) 0
                       (length (slice_to roster (or0 max_members))) [] w0))
                    MembersUnavailable) as Hno.
      destruct (out_res (fetch_history _ _ _ _ _ _ _ _ _ _)) as [mh|e|];
        [done| |done].
      intros [= ->]. by destruct Hno.
    + apply player_ids_of_raise in Hids. by subst e.
  - intros (status & roster & Hroster & Hstatus).
    subst run. rewrite get_club_data_res.
    destruct (get_members_by_club client club_id w) as [r w0].
    simpl in Hroster. subst r. by rewrite Hstatus.
  - intros status roster Hroster Hstatus Hids. split.
    + intros e. subst run. rewrite get_club_data_res.
      destruct (get_members_by_club client club_id w) as [r w0].
      simpl in Hroster. subst r. rewrite Hstatus. cbv zeta.
      destruct (returns_enrich py_str client stop_event log
                  (slice_to roster (or0 max_members)) 0
                  (length (slice_to roster (or0 max_members))) [] w0)
        as [profiles ->].
      destruct (player_ids_of_ok py_str _ Hids) as (ids & -> & _).
      pose proof (no_raise_fetch_history client stop_event log fuel mpp ids
                    0 (length ids) ∅
                    (out_world (enrich py_str client stop_event log
                       (slice_to roster (or0 max_members)) 0
                       (length (slice_to roster (or0 max_members))) [] w0))
                    e) as Hno.
      destruct (out_res (fetch_history _ _ _ _ _ _ _ _ _ _)) as [mh|e'|];
        [done| |done].
      intros [= ->]. by destruct Hno.
    + intros mu Hbound Hfuel.
      destruct (get_club_data_returns py_str client stop_event log club_id
                  max_members max_matches mpp fuel w status roster mu
                  Hroster Hstatus Hids Hbound Hfuel)
        as (profiles & mh & Hrun & Hlen).
      exists (assemble club_id (slice_to roster (or0 max_members)) profiles mh).
      by repeat split.
Qed.

(** The simulated service has as many advancing pages left as its script
    of replies is long. *)
Lemma sim_paging_bounded roster :
  paging_bounded (sim_client roster) (Some sim_is_set)
    (λ w, length (sw_posts w)).
Proof.
  split.
  - intros club_id w. simpl. lia.
  - intros player_id w. simpl. unfold sim_get_player.
    destruct (sw_players w); simpl; lia.
  - intros w. simpl. unfold sim_login_user.
    destruct (sw_logins w); simpl; lia.
  - intros is_set w [= <-]. unfold sim_is_set.
    destruct (sw_stop w) as [[|k]|]; simpl; lia.
  - intros path body w. simpl. unfold sim_dupr_post.
    destruct (sw_posts w) eqn:E; simpl; rewrite ?E; simpl; lia.
  - intros path body w. simpl. unfold sim_dupr_post.
    destruct (sw_posts w) eqn:E; simpl; [done|lia].
Qed.

Lemma fetched_roster_with_ids_is_never_fatal_witness :
  ∃ r,
    out_res (get_club_data scalar_str
               (sim_client (Returns (VBool true, two_members)))
               (Some sim_is_set) true "club" 20 5 10 7 sample_world) = Ok r
    ∧ members r = slice_to two_members (or0 20)
    ∧ (length (player_profiles r) ≤ length (members r))%nat.
Proof.
  refine (proj2 (proj2 (fetched_roster_with_ids_is_never_fatal scalar_str
            (sim_client (Returns (VBool true, two_members)))
            (Some sim_is_set) true "club" 20 5 10 7 sample_world)
            (VBool true) two_members eq_refl eq_refl _)
          (λ w, length (sw_posts w)) (sim_paging_bounded _) _).
  - vm_compute. repeat constructor; by eexists.
  - vm_compute. lia.
Defined.

Lemma player_ids_of_missing py_str ms :
  Exists (λ m : Member, m !! "id" = None) ms →
  player_ids_of py_str ms = Raise (KeyError "id").
Proof.
  induction ms as [|m ms IH]; intros Hex; [by apply Exists_nil in Hex|].
  cbn [player_ids_of]. destruct (m !! "id") as [v|] eqn:Hid; [|done].
  apply Exists_cons in Hex as [Hm|Hms]; [congruence|].
  by rewrite (IH Hms).
Qed.

(** After a successful roster fetch, a record without the key ["id"]
    among those whose history is asked for makes the function raise
    [KeyError], whatever the service answers otherwise. *)
Lemma get_club_data_missing_id {W} (py_str : Val → string)
    (client : Client W) (stop_event : option (W → bool * W)) (log : bool)
    (club_id : string) (max_members max_matches mpp : Z) (fuel : nat)
    (w : W) (status : Val) (roster : list Member) :
  fst (get_members_by_club client club_id w) = Returns (status, roster) →
  truthy status = true →
  Exists (λ m : Member, m !! "id" = None)
    (slice_to (slice_to roster (or0 max_members)) (or0 max_matches)) →
  out_res (get_club_data py_str client stop_event log club_id
             max_members max_matches mpp fuel w) = Raise (KeyError "id").
Proof.
  intros Hroster Hstatus Hmissing. rewrite get_club_data_res.
  destruct (get_members_by_club client club_id w) as [r w0].
  simpl in Hroster. subst r. rewrite Hstatus. cbv zeta.
  destruct (returns_enrich py_str client stop_event log
              (slice_to roster (or0 max_members)) 0
              (length (slice_to roster (or0 max_members))) [] w0)
    as [profiles ->].
  by rewrite (player_ids_of_missing py_str _ Hmissing).
Qed.

(** C1: a roster record without the key ["id"] is fatal although the
    roster fetch reported success.  The profile stage reads the id with
    [member.get("id")] and goes on (it asks for the player ["None"]);
    the history stage reads it with [m["id"]] outside every [try], and
    [KeyError] leaves [get_club_data]: no result is assembled. *)
Theorem C1_record_without_id_is_fatal :
  fst (get_members_by_club
         (sim_client (Returns (VBool true, [nameless_member]))) "club"
         (mkSim [Returns (VInt 200, VNone)] [] [] None))
  = Returns (VBool true, [nameless_member])
  ∧ out_res missing_id_run = Raise (KeyError "id")
  ∧ out_res missing_id_run ≠ Raise MembersUnavailable
  ∧ result_of missing_id_run = None
  ∧ players_of (out_trace missing_id_run) = ["None"].
Proof.
  split; [reflexivity|].
  assert (out_res missing_id_run = Raise (KeyError "id")) as Hrun.
  { apply (get_club_data_missing_id scalar_str
             (sim_client (Returns (VBool true, [nameless_member])))
             None false "club" 20 5 10 1
             (mkSim [Returns (VInt 200, VNone)] [] [] None)
             (VBool true) [nameless_member]); [reflexivity..|].
    vm_compute. by constructor. }
  split; [done|]. split; [by rewrite Hrun|].
  split; vm_compute; reflexivity.
Qed.

(** ** Unrolling the paging loop *)

Lemma posts_of_app t1 t2 : posts_of (t1 ++ t2) = posts_of t1 ++ posts_of t2.
Proof. apply omap_app. Qed.

Lemma logins_of_app t1 t2 : logins_of (t1 ++ t2) = (logins_of t1 + logins_of t2)%nat.
Proof. unfold logins_of. by rewrite omap_app, length_app. Qed.

Lemma posts_of_said log message : posts_of (said log message) = [].
Proof. by destruct log. Qed.

Lemma logins_of_said log message : logins_of (said log message) = 0%nat.
Proof. by destruct log. Qed.

Section Unroll.
Context {W : Type}.
Variable client : Client W.
Variable stop_event : option (W → bool * W).
Variable log : bool.

Lemma stop_requested_run w :
  stop_requested stop_event w =
  match stop_event with
  | None => mkOut (Ok false) w []
  | Some is_set => mkOut (Ok (fst (is_set w))) (snd (is_set w)) [EIsSet]
  end.
Proof.
  unfold stop_requested. destruct stop_event as [f|]; [|done].
  by destruct (f w).
Qed.

(** The poll of the event is no page request and no reauthentication. *)
Lemma stop_requested_quiet w :
  ∃ stop w1 t,
    stop_requested stop_event w = mkOut (Ok stop) w1 t
    ∧ posts_of t = [] ∧ logins_of t = 0%nat
    ∧ (stop_event = None → stop = false).
Proof.
  rewrite stop_requested_run. destruct stop_event as [f|].
  - by eexists _, _, _.
  - by eexists _, _, _.
Qed.

(** One evaluation of the loop condition with the cursor set and retries
    left. *)
Lemma fetch_pages_unroll fuel pid mpp off ml rc w :
  rc < max_retries →
  fetch_pages client stop_event log (S fuel) pid mpp
    (mkLoop (Some off) ml rc) w =
  match stop_requested stop_event w with
  | mkOut (Ok true) w1 t0 =>
      mkOut (Ok (mkLoop (Some off) ml rc)) w1 (t0 ++ said log LStopMidway)
  | mkOut (Ok false) w1 t0 =>
      match page_step client log pid mpp off ml rc w1 with
      | mkOut (Ok (Break s')) w2 t1 => mkOut (Ok s') w2 (t0 ++ t1)
      | mkOut (Ok (Continue s')) w2 t1 =>
          after (t0 ++ t1)
            (fetch_pages client stop_event log fuel pid mpp s' w2)
      | mkOut (Raise e) w2 t1 => mkOut (Raise e) w2 (t0 ++ t1)
      | mkOut OutOfFuel w2 t1 => mkOut OutOfFuel w2 (t0 ++ t1)
      end
  | mkOut (Raise e) w1 t0 => mkOut (Raise e) w1 t0
  | mkOut OutOfFuel w1 t0 => mkOut OutOfFuel w1 t0
  end.
Proof.
  intros Hrc. cbn [fetch_pages offset retry_count match_list].
  destruct (Z.ltb_spec rc max_retries); [|lia].
  unfold bind at 1.
  destruct (stop_requested stop_event w) as [[[|]|e|] w1 t0]; try done.
  - unfold bind, _log, said, emit, ret. by destruct log.
  - unfold bind at 1.
    destruct (page_step client log pid mpp off ml rc w1)
      as [[[s'|s']|e|] w2 t1]; try done.
    + cbn. by rewrite app_nil_r.
    + unfold after.
      destruct (fetch_pages client stop_event log fuel pid mpp s' w2).
      cbn [out_res out_world out_trace]. by rewrite app_assoc.
Qed.

End Unroll.

(** ** Exceptions on every pass of the paging loop (C5) *)

Section AllRaise.
Context {W : Type}.
Variable client : Client W.
Variable stop_event : option (W → bool * W).
Variable log : bool.
Variable pid : string.
Variable mpp off : Z.
Variable ml : list Val.
Hypothesis always_raises :
  ∀ rc w, ∃ e, out_res (page_attempt client log pid mpp off ml rc w) = Raise e.

(** A pass whose [try] body raises has made the request, at most one
    reauthentication call and no delay before the [except] clause runs. *)
Lemma page_step_raised rc w :
  ∃ e w1 t,
    page_step client log pid mpp off ml rc w = retried log off ml rc w1 t e
    ∧ posts_of t = [(history_path pid, page_data mpp off)]
    ∧ (logins_of t ≤ 1)%nat.
Proof.
  destruct (always_raises rc w) as [e He]. revert He.
  pose proof (page_step_run client log pid mpp off ml rc w) as Hrun.
  cbv zeta in Hrun. rewrite Hrun. clear Hrun.
  unfold page_attempt. cbv zeta.
  generalize (history_path pid), (page_data mpp off). intros path body.
  unfold bind, call, decode, _log, sleep, emit, ret, raise.
  destruct (dupr_post client path body w) as [[r|what] w1]; cbn.
  - destruct (status_code r =? 200); cbn.
    + destruct (json r) as [data|what]; cbn.
      * destruct (handle_paging client data) as [[off' [|h hits]]|what]; cbn.
        -- by destruct log.
        -- by destruct log.
        -- intros _. eexists _, _, _.
           split; [reflexivity|split; [reflexivity|cbn; lia]].
      * intros _. eexists _, _, _.
           split; [reflexivity|split; [reflexivity|cbn; lia]].
    + destruct (status_code r =? 403); cbn.
      * destruct log; cbn;
          destruct (login_user client w1) as [[[]|what] w2]; cbn;
          try done; intros _; eexists _, _, _;
          (split; [reflexivity|split; [reflexivity|cbn; lia]]).
      * by destruct log.
  - intros _. eexists _, _, _.
           split; [reflexivity|split; [reflexivity|cbn; lia]].
Qed.

(** From [rc] retries on, the loop asks once per retry that is left, at
    the same offset, and stops with the budget used up or the event set. *)
Lemma fetch_pages_all_raise fuel : ∀ rc w,
  0 ≤ rc ≤ max_retries →
  (Z.to_nat (max_retries - rc) < fuel)%nat →
  let o := fetch_pages client stop_event log fuel pid mpp
             (mkLoop (Some off) ml rc) w in
  ∃ s, out_res o = Ok s
       ∧ offset s = Some off ∧ match_list s = ml
       ∧ rc ≤ retry_count s ≤ max_retries
       ∧ posts_of (out_trace o) =
           replicate (Z.to_nat (retry_count s - rc))
             (history_path pid, page_data mpp off)
       ∧ (logins_of (out_trace o) ≤ Z.to_nat (retry_count s - rc))%nat
       ∧ (stop_event = None → retry_count s = max_retries).
Proof.
  induction fuel as [|fuel IH]; intros rc w Hrc Hfuel; [lia|].
  cbv zeta. destruct (decide (rc = max_retries)) as [->|Hne].
  - exists (mkLoop (Some off) ml max_retries). cbn.
    repeat split; rewrite ?Z.sub_diag; try done; lia.
  - rewrite fetch_pages_unroll by lia.
    destruct (stop_requested_quiet stop_event w)
      as (stop & w1 & t0 & -> & Hp0 & Hl0 & Hnone).
    destruct stop.
    + exists (mkLoop (Some off) ml rc).
      cbn [out_res out_trace offset match_list retry_count].
      rewrite posts_of_app, logins_of_app, Hp0, Hl0, posts_of_said,
        logins_of_said, Z.sub_diag.
      repeat split; try done; try lia.
      intros Hse. by specialize (Hnone Hse).
    + destruct (page_step_raised rc w1) as (e & w2 & t & -> & Hpt & Hlt).
      unfold retried.
      destruct (IH (rc + 1) w2) as (s & Hs & Hoff & Hml & Hret & Hposts
                                     & Hlogins & Hfull);
        [lia|unfold max_retries in *; lia|].
      cbv zeta in Hs, Hposts, Hlogins. exists s.
      cbn [after out_res out_trace].
      rewrite !posts_of_app, !logins_of_app, Hp0, Hl0, Hpt, Hposts,
        posts_of_said, logins_of_said.
      replace (Z.to_nat (retry_count s - rc))
        with (S (Z.to_nat (retry_count s - (rc + 1)))) by lia.
      repeat split; try done; try lia.
      cbn. lia.
Qed.

End AllRaise.

(** C5: when every pass through the [try] body of a player's paging loop
    raises (the request itself, the decoding of its body, or what follows
    an error status), the loop returns (fuel for four evaluations of its
    condition is enough) after at most three requests, all for the offset
    it started with, with the matches it started with; every request used
    one retry, and with no cancellation event there are exactly three. *)
Theorem C5_failing_endpoint_is_asked_thrice {W} (client : Client W)
    (stop_event : option (W → bool * W)) (log : bool) (pid : string)
    (mpp off : Z) (ml : list Val) (fuel : nat) (w : W) :
  (∀ rc w', ∃ e,
     out_res (page_attempt client log pid mpp off ml rc w') = Raise e) →
  (3 < fuel)%nat →
  let o := fetch_pages client stop_event log fuel pid mpp
             (mkLoop (Some off) ml 0) w in
  ∃ s, out_res o = Ok s
       ∧ offset s = Some off ∧ match_list s = ml
       ∧ (length (posts_of (out_trace o)) ≤ 3)%nat
       ∧ Forall (λ req, req = (history_path pid, page_data mpp off))
           (posts_of (out_trace o))
       ∧ Z.of_nat (length (posts_of (out_trace o))) = retry_count s
       ∧ (logins_of (out_trace o) ≤ length (posts_of (out_trace o)))%nat
       ∧ (stop_event = None → length (posts_of (out_trace o)) = 3%nat).
Proof.
  intros Hraise Hfuel.
  destruct (fetch_pages_all_raise client stop_event log pid mpp off ml
              Hraise fuel 0 w) as (s & Hs & Hoff & Hml & Hret & Hposts
                                   & Hlogins & Hfull);
    [unfold max_retries; lia..|].
  cbv zeta in *. exists s. rewrite Hposts, length_replicate.
  unfold max_retries in *.
  repeat split; try done; try lia.
  - apply Forall_replicate. done.
  - intros Hse. specialize (Hfull Hse). lia.
Qed.

Lemma C5_failing_endpoint_is_asked_thrice_witness :
  ∃ s, out_res undecodable_run = Ok s
       ∧ offset s = Some 0 ∧ match_list s = []
       ∧ (length (posts_of (out_trace undecodable_run)) ≤ 3)%nat
       ∧ Forall (λ req, req = (history_path "7", page_data 10 0))
           (posts_of (out_trace undecodable_run))
       ∧ Z.of_nat (length (posts_of (out_trace undecodable_run)))
         = retry_count s
       ∧ (logins_of (out_trace undecodable_run)
          ≤ length (posts_of (out_trace undecodable_run)))%nat
       ∧ (@None (SimWorld → bool * SimWorld) = None →
          length (posts_of (out_trace undecodable_run)) = 3%nat).
Proof.
  apply (C5_failing_endpoint_is_asked_thrice undecodable_client None false
           "7" 10 0 [] 4 (mkSim [] [] [] None)).
  - intros rc w'. by exists (External "json").
  - lia.
Defined.

(** A transport error, a body that cannot be decoded and a page that
    cannot be read each make the pass raise. *)
Lemma page_attempt_raises {W} (client : Client W) (log : bool)
    (pid : string) (mpp off : Z) (ml : list Val) (rc : Z) (w : W) :
  match fst (dupr_post client (history_path pid) (page_data mpp off) w) with
  | Raises _ => True
  | Returns r =>
      status_code r = 200
      ∧ match json r with
        | Raises _ => True
        | Returns data => ∃ what, handle_paging client data = Raises what
        end
  end →
  ∃ e, out_res (page_attempt client log pid mpp off ml rc w) = Raise e.
Proof.
  unfold page_attempt.
  generalize (history_path pid), (page_data mpp off). intros path body.
  unfold bind, call, decode, _log, sleep, emit, ret, raise.
  destruct (dupr_post client path body w) as [[r|what] w1]; cbn;
    [|by eexists].
  intros [-> Hjson]. cbn.
  destruct (json r) as [data|what]; cbn; [|by eexists].
  destruct Hjson as [what ->]. by eexists.
Qed.

(** The service that cannot be reached is asked three times as well. *)
Lemma unreachable_run_is_asked_thrice :
  posts_of (out_trace unreachable_run)
  = replicate 3 (history_path "7", page_data 10 0)
  ∧ retry_count <$> result_of unreachable_run = Some 3.
Proof. split; vm_compute; reflexivity. Qed.

(** ** Pages that arrive with status 200 (C6) *)

(** C6: a pass of the paging loop whose request is answered with status
    200 and a body that decodes to [(next, hits)].  With [hits] empty the
    loop is left at once, the accumulation unchanged.  Otherwise [hits] is
    appended, the cursor becomes [next], the retry count is kept, no
    reauthentication happens, and the loop goes on from there; with a null
    cursor it is left without a further request.  In particular, against
    the simulated service answering a batch with cursor 20 and then a
    batch with a null cursor, the loop asks at offsets 0 and 20, ends with
    both batches, a null cursor and a retry count of 0, and never
    reauthenticates. *)
Theorem C6_paging_on_status_200 :
  (∀ W (client : Client W) (stop_event : option (W → bool * W)) (log : bool)
     (fuel : nat) (pid : string) (mpp off : Z) (ml : list Val) (rc : Z)
     (w w0 w1 : W) (t0 : list Event) (r : Response) (data : Val)
     (next : option Z) (hits : list Val),
     rc < max_retries →
     stop_requested stop_event w = mkOut (Ok false) w0 t0 →
     dupr_post client (history_path pid) (page_data mpp off) w0
       = (Returns r, w1) →
     status_code r = 200 →
     json r = Returns data →
     handle_paging client data = Returns (next, hits) →
     let request := EPost (history_path pid) (page_data mpp off) in
     let go := fetch_pages client stop_event log in
     (hits = [] →
      go (S fuel) pid mpp (mkLoop (Some off) ml rc) w =
      mkOut (Ok (mkLoop next ml rc)) w1
        (t0 ++ [request] ++ said log LNoMoreMatches)) ∧
     (hits ≠ [] →
      go (S fuel) pid mpp (mkLoop (Some off) ml rc) w =
      after (t0 ++ [request] ++ said log (LGotMatches (length hits))
             ++ [ESleep 1])
        (go fuel pid mpp (mkLoop next (ml ++ hits) rc) w1)) ∧
     go (S fuel) pid mpp (mkLoop None (ml ++ hits) rc) w1 =
     mkOut (Ok (mkLoop None (ml ++ hits) rc)) w1 []) ∧
  (∀ (roster : Reply (Val * list Member)) (log : bool) (fuel : nat)
     (pid : string) (mpp : Z) (players : list (Reply (Val * Val)))
     (h1 h2 : list Val) (rest : list (Reply Response))
     (logins : list (Reply unit)) (stop : option nat),
     h1 ≠ [] → h2 ≠ [] →
     (∀ k, stop = Some k → (2 ≤ k)%nat) →
     let w := mkSim players
                (Returns (page_response (Some 20) h1)
                 :: Returns (page_response None h2) :: rest)
                logins stop in
     let o := fetch_pages (sim_client roster) (Some sim_is_set) log
                (S (S (S fuel))) pid mpp (mkLoop (Some 0) [] 0) w in
     out_res o = Ok (mkLoop None (h1 ++ h2) 0) ∧
     posts_of (out_trace o) =
       [(history_path pid, page_data mpp 0);
        (history_path pid, page_data mpp 20)] ∧
     logins_of (out_trace o) = 0%nat ∧
     sw_posts (out_world o) = rest ∧
     sw_logins (out_world o) = logins).
Proof.
  split.
  - intros W client stop_event log fuel pid mpp off ml rc w w0 w1 t0 r data
      next hits Hrc Hstop Hpost H200 Hjson Hpage request go.
    subst request go.
    pose proof (page_step_run client log pid mpp off ml rc w0) as Hstep.
    cbv zeta in Hstep.
    rewrite Hpost, H200, Hjson, Hpage in Hstep. cbn [Z.eqb Pos.eqb] in Hstep.
    split; [|split].
    + intros ->. by rewrite fetch_pages_unroll, Hstop, Hstep.
    + intros Hhits. rewrite fetch_pages_unroll, Hstop, Hstep by done.
      by destruct hits as [|h hits].
    + reflexivity.
  - intros roster log fuel pid mpp players h1 h2 rest logins stop Hh1 Hh2
      Hstop.
    destruct h1 as [|a h1]; [done|]. destruct h2 as [|b h2]; [done|].
    destruct stop as [[|[|k]]|]; try (specialize (Hstop _ eq_refl); lia);
      destruct log; vm_compute; done.
Qed.

Lemma C6_paging_on_status_200_witness :
  out_res two_page_run = Ok (mkLoop None ([VInt 1] ++ [VInt 2]) 0) ∧
  posts_of (out_trace two_page_run) =
    [(history_path "7", page_data 10 0); (history_path "7", page_data 10 20)] ∧
  logins_of (out_trace two_page_run) = 0%nat ∧
  sw_posts (out_world two_page_run) = [] ∧
  sw_logins (out_world two_page_run) = [].
Proof.
  apply (proj2 C6_paging_on_status_200
           (Returns (VBool true, two_members)) true 0%nat "7" 10 []
           [VInt 1] [VInt 2] [] [] None); [done|done|].
  intros k Hk. discriminate Hk.
Defined.

(** ** The trace of a crawl *)

Section CrawlTrace.
Context {W : Type}.
Variable py_str : Val → string.
Variable client : Client W.
Variable stop_event : option (W → bool * W).
Variable log : bool.

Lemma log_trace message (w : W) :
  out_trace (_log log message w) = said log message.
Proof. unfold _log, said. by destruct log. Qed.

(** The events of a crawl whose roster fetch succeeds and whose player
    ids can be read: the roster call, the profile loop, the history loop. *)
Lemma get_club_data_trace club_id max_members max_matches mpp fuel w
    status roster w0 ids :
  get_members_by_club client club_id w = (Returns (status, roster), w0) →
  truthy status = true →
  let members := slice_to roster (or0 max_members) in
  player_ids_of py_str (slice_to members (or0 max_matches)) = Ok ids →
  let o1 := enrich py_str client stop_event log members 0 (length members)
              [] w0 in
  let o2 := fetch_history client stop_event log fuel mpp ids 0 (length ids)
              ∅ (out_world o1) in
  out_trace (get_club_data py_str client stop_event log club_id
               max_members max_matches mpp fuel w) =
  said log (LStart club_id) ++ said log LFetchingMembers ++
  [EGetMembers club_id] ++ said log LFetchingProfiles ++
  out_trace o1 ++ said log LFetchingHistory ++ out_trace o2.
Proof.
  intros Hroster Hstatus members Hids o1 o2.
  unfold get_club_data.
  repeat (rewrite ?bind_trace, ?bind_res, ?bind_world, ?log_res, ?log_world,
            ?log_trace).
  rewrite (call_run (EGetMembers club_id) _ w _ _ Hroster).
  cbn [out_res out_world out_trace fst snd]. rewrite Hstatus. cbn [negb].
  fold members.
  repeat (rewrite ?bind_trace, ?bind_res, ?bind_world, ?log_res, ?log_world,
            ?log_trace).
  fold o1.
  destruct (returns_enrich py_str client stop_event log members 0
              (length members) [] w0) as [profiles Hprofiles].
  fold o1 in Hprofiles. rewrite Hprofiles.
  repeat (rewrite ?bind_trace, ?bind_res, ?bind_world, ?log_res, ?log_world,
            ?log_trace).
  rewrite Hids. cbn [lift out_res out_world out_trace].
  rewrite bind_trace. subst o2.
  destruct (out_res (fetch_history _ _ _ _ _ _ _ _ _ _));
    cbn [ret out_trace app]; by rewrite ?app_nil_r.
Qed.

(** One visit of the profile loop. *)
Lemma enrich_unroll member ms idx n profiles w :
  enrich py_str client stop_event log (member :: ms) idx n profiles w =
  match stop_requested stop_event w with
  | mkOut (Ok true) w1 t0 =>
      mkOut (Ok profiles) w1 (t0 ++ said log LStopProfiles)
  | mkOut (Ok false) w1 t0 =>
      match enrich_member py_str client log idx n member profiles w1 with
      | mkOut (Ok profiles') w2 t1 =>
          after (t0 ++ t1)
            (enrich py_str client stop_event log ms (S idx) n profiles' w2)
      | mkOut (Raise e) w2 t1 => mkOut (Raise e) w2 (t0 ++ t1)
      | mkOut OutOfFuel w2 t1 => mkOut OutOfFuel w2 (t0 ++ t1)
      end
  | mkOut (Raise e) w1 t0 => mkOut (Raise e) w1 t0
  | mkOut OutOfFuel w1 t0 => mkOut OutOfFuel w1 t0
  end.
Proof.
  cbn [enrich]. unfold bind at 1.
  destruct (stop_requested stop_event w) as [[[|]|e|] w1 t0]; try done.
  - unfold bind, _log, said, emit, ret. by destruct log.
  - unfold bind at 1.
    destruct (enrich_member py_str client log idx n member profiles w1)
      as [[profiles'|e|] w2 t1]; try done.
    unfold after.
    destruct (enrich py_str client stop_event log ms (S idx) n profiles' w2).
    cbn [out_res out_world out_trace]. by rewrite app_assoc.
Qed.

(** The profile loop sends no page request and never reauthenticates. *)
Lemma enrich_trace_quiet ms : ∀ idx n profiles w,
  posts_of (out_trace (enrich py_str client stop_event log ms idx n
                         profiles w)) = []
  ∧ logins_of (out_trace (enrich py_str client stop_event log ms idx n
                            profiles w)) = 0%nat.
Proof.
  induction ms as [|m ms IH]; intros idx n profiles w; [done|].
  rewrite enrich_unroll.
  destruct (stop_requested_quiet stop_event w)
    as (stop & w1 & t0 & -> & Hp0 & Hl0 & _).
  destruct stop.
  - cbn [out_trace].
    by rewrite posts_of_app, logins_of_app, Hp0, Hl0, posts_of_said,
      logins_of_said.
  - pose proof (enrich_member_run py_str client log idx n m profiles w1)
      as Hrun.
    cbv zeta in Hrun. rewrite Hrun. clear Hrun.
    assert (∀ profiles' w2 t1,
              posts_of t1 = [] → logins_of t1 = 0%nat →
              let o := after (t0 ++ t1)
                         (enrich py_str client stop_event log ms (S idx) n
                            profiles' w2) in
              posts_of (out_trace o) = [] ∧ logins_of (out_trace o) = 0%nat)
      as Hnext.
    { intros profiles' w2 t1 Hp1 Hl1.
      destruct (IH (S idx) n profiles' w2) as [Hp2 Hl2].
      cbn [after out_trace].
      by rewrite !posts_of_app, !logins_of_app, Hp0, Hl0, Hp1, Hl1, Hp2, Hl2. }
    destruct (get_player client _ w1) as [[sd|what] w2].
    + destruct (merge_detail _ _) as [p|e|].
      * apply Hnext; by destruct log.
      * apply Hnext; by destruct log.
      * cbn [out_trace].
        rewrite !posts_of_app, !logins_of_app, Hp0, Hl0. by destruct log.
    + apply Hnext; by destruct log.
Qed.

End CrawlTrace.
(** ** The profile loop against the simulated service *)

Section SimEnrich.
Variable py_str : Val → string.
Variable roster : Reply (Val * list Member).
Variable log : bool.

Lemma profiles_of_replies_cons m ms replies :
  profiles_of_replies py_str (m :: ms) replies =
  profiles_of_replies py_str [m] replies ++
  profiles_of_replies py_str ms (tail replies).
Proof.
  destruct replies as [|[sd|what] replies];
    cbn [tail profiles_of_replies]; try destruct (merge_detail _ _);
    reflexivity.
Qed.

(** One visit against the simulated service consumes one scripted reply. *)
Lemma sim_enrich_member_run idx n m profiles w :
  ∃ t,
    enrich_member py_str (sim_client roster) log idx n m profiles w =
    mkOut (Ok (profiles ++ profiles_of_replies py_str [m] (sw_players w)))
      (mkSim (tail (sw_players w)) (sw_posts w) (sw_logins w) (sw_stop w)) t.
Proof.
  pose proof (enrich_member_run py_str (sim_client roster) log idx n m
                profiles w) as Hrun.
  cbv zeta in Hrun. rewrite Hrun. clear Hrun.
  cbn [get_player sim_client]. unfold sim_get_player.
  destruct w as [players posts logins stop].
  cbn [sw_players sw_posts sw_logins sw_stop profiles_of_replies].
  destruct players as [|[sd|what] players]; cbn [tail].
  - eexists. by rewrite app_nil_r.
  - pose proof (merge_detail_no_cutoff
                  (base_profile (py_str (dict_get m "id")) m) (snd sd)).
    destruct (merge_detail _ _) as [p|e|]; [| |done]; eexists;
      by rewrite ?app_nil_r.
  - eexists. by rewrite app_nil_r.
Qed.

Lemma sim_enrich_run ms : ∀ idx n profiles w,
  let o := enrich py_str (sim_client roster) (Some sim_is_set) log ms idx n
             profiles w in
  out_res o =
    Ok (profiles ++
        profiles_of_replies py_str (visited (sw_stop w) ms) (sw_players w))
  ∧ sw_posts (out_world o) = sw_posts w
  ∧ sw_logins (out_world o) = sw_logins w
  ∧ sw_stop (out_world o) =
      match sw_stop w with
      | None => None
      | Some polls => Some (polls - length ms)%nat
      end.
Proof.
  induction ms as [|m ms IH]; intros idx n profiles w; cbv zeta.
  - cbn [enrich ret out_res out_world length].
    destruct (sw_stop w) as [polls|] eqn:Hstop; cbn [visited];
      rewrite ?take_nil, ?Nat.sub_0_r; cbn [profiles_of_replies];
      by rewrite app_nil_r.
  - rewrite enrich_unroll, stop_requested_run.
    destruct w as [players posts logins stop].
    destruct stop as [[|polls]|];
      cbn [sim_is_set sw_players sw_posts sw_logins sw_stop fst snd].
    + cbn. by rewrite app_nil_r.
    + destruct (sim_enrich_member_run idx n m profiles
                  (mkSim players posts logins (Some polls))) as [t1 ->].
      cbn [after out_res out_world sw_players sw_posts sw_logins sw_stop].
      destruct (IH (S idx) n
                  (profiles ++ profiles_of_replies py_str [m] players)
                  (mkSim (tail players) posts logins (Some polls)))
        as (Hres & Hposts & Hlogins & Hstop).
      cbv zeta in Hres, Hposts, Hlogins, Hstop.
      rewrite Hres, Hposts, Hlogins, Hstop.
      cbn [sw_players sw_posts sw_logins sw_stop visited take length Nat.sub].
      by rewrite (profiles_of_replies_cons m (take polls ms)), <- app_assoc.
    + destruct (sim_enrich_member_run idx n m profiles
                  (mkSim players posts logins None)) as [t1 ->].
      cbn [after out_res out_world sw_players sw_posts sw_logins sw_stop].
      destruct (IH (S idx) n
                  (profiles ++ profiles_of_replies py_str [m] players)
                  (mkSim (tail players) posts logins None))
        as (Hres & Hposts & Hlogins & Hstop).
      cbv zeta in Hres, Hposts, Hlogins, Hstop.
      rewrite Hres, Hposts, Hlogins, Hstop.
      cbn [sw_players sw_posts sw_logins sw_stop visited].
      by rewrite (profiles_of_replies_cons m ms), <- app_assoc.
Qed.

End SimEnrich.

(** ** The history loop against the simulated service *)

(** One evaluation of the loop condition and one pass, computed against
    the simulated service. *)
Ltac sim_pass :=
  rewrite fetch_pages_unroll by (unfold max_retries; lia);
  rewrite stop_requested_run;
  cbn [sim_is_set sw_stop sw_players sw_posts sw_logins fst snd];
  match goal with
  | |- context [page_step ?c ?l ?pid ?mpp ?off ?ml ?rc ?w] =>
      let H := fresh in
      pose proof (page_step_run c l pid mpp off ml rc w) as H;
      cbv zeta in H; rewrite H; clear H
  end;
  cbn [dupr_post login_user handle_paging sim_client sim_dupr_post
         sim_login_user sw_stop sw_players sw_posts sw_logins status_code
         json Z.eqb Pos.eqb retried fst snd Z.add Pos.add Pos.succ].

Section SimHistory.
Variable roster : Reply (Val * list Member).
Variable log : bool.


(** Two 403 replies and then an empty page: two reauthentications, three
    requests at offset 0, nothing accumulated. *)
Lemma sim_fetch_pages_403_403_empty fuel pid mpp players j1 j2 data next rest
    logins stop :
  sim_handle_paging data = Returns (next, []) →
  (∀ k, stop = Some k → (3 ≤ k)%nat) →
  let w := mkSim players
             (Returns (mkResponse 403 j1) :: Returns (mkResponse 403 j2)
              :: Returns (mkResponse 200 (Returns data)) :: rest)
             logins stop in
  let o := fetch_pages (sim_client roster) (Some sim_is_set) log
             (S (S (S fuel))) pid mpp (mkLoop (Some 0) [] 0) w in
  out_res o = Ok (mkLoop next [] 2)
  ∧ logins_of (out_trace o) = 2%nat
  ∧ posts_of (out_trace o) =
      replicate 3 (history_path pid, page_data mpp 0)
  ∧ sw_posts (out_world o) = rest
  ∧ sw_players (out_world o) = players.
Proof.
  intros Hpage Hstop. cbv zeta.
  destruct stop as [[|[|[|k]]]|]; try (specialize (Hstop _ eq_refl); lia);
    destruct logins as [|[[]|e1] [|[[]|e2] logins]];
    do 3 sim_pass; rewrite ?Hpage;
    cbn [after out_res out_world out_trace sw_posts sw_players];
    rewrite ?posts_of_app, ?logins_of_app, ?posts_of_said, ?logins_of_said;
    done.
Qed.

End SimHistory.

(** ** Reauthentication on 403 (C4) *)

Section Single.
Context {W : Type}.
Variable client : Client W.
Variable stop_event : option (W → bool * W).
Variable log : bool.

(** The loop over the players when there is one player and the event is
    not set. *)
Lemma fetch_history_single fuel mpp pid idx n mh w w1 t0 s :
  stop_requested stop_event w = mkOut (Ok false) w1 t0 →
  out_res (fetch_pages client stop_event log fuel pid mpp
             (mkLoop (Some 0) [] 0) w1) = Ok s →
  let o := fetch_history client stop_event log fuel mpp [pid] idx n mh w in
  out_res o = Ok (match match_list s with
                  | [] => mh
                  | _ => <[pid := match_list s]> mh
                  end)
  ∧ out_trace o =
      t0 ++ said log (LHistoryFor (idx + 1) n pid) ++
      out_trace (fetch_pages client stop_event log fuel pid mpp
                   (mkLoop (Some 0) [] 0) w1) ++
      match match_list s with
      | [] => said log (LNoHistory pid)
      | _ => []
      end.
Proof.
  intros Hstop Hs. cbv zeta. cbn [fetch_history].
  rewrite bind_res, bind_trace, Hstop.
  cbn [out_res out_world out_trace].
  rewrite bind_res, bind_trace, log_res, log_world, log_trace.
  rewrite bind_res, bind_trace, Hs.
  rewrite bind_res, bind_trace, keep_history_res.
  cbn [ret out_res out_trace]. rewrite app_nil_r. split; [done|].
  do 3 f_equal. unfold keep_history.
  destruct (match_list s); [|done].
  by rewrite bind_trace, log_res, log_trace, app_nil_r.
Qed.

End Single.

(** C4: a crawl against the simulated service in which one player's
    history is fetched and the endpoint answers 403, 403 and then 200
    with a body that decodes to no hits.  The crawl returns, the player is
    not a key of [match_history], [login_user] was called exactly twice,
    and the three page requests all carry offset 0. *)
Theorem C4_two_403_then_empty_page (py_str : Val → string) (log : bool)
    (club_id : string) (max_members max_matches mpp : Z) (fuel : nat)
    (status : Val) (roster : list Member) (m : Member) (v : Val)
    (players : list (Reply (Val * Val))) (j1 j2 : Reply Val) (data : Val)
    (next : option Z) (rest : list (Reply Response))
    (logins : list (Reply unit)) (stop : option nat) :
  truthy status = true →
  slice_to (slice_to roster (or0 max_members)) (or0 max_matches) = [m] →
  m !! "id" = Some v →
  sim_handle_paging data = Returns (next, []) →
  (∀ k, stop = Some k →
     (length (slice_to roster (or0 max_members)) + 4 ≤ k)%nat) →
  let w := mkSim players
             (Returns (mkResponse 403 j1) :: Returns (mkResponse 403 j2)
              :: Returns (mkResponse 200 (Returns data)) :: rest)
             logins stop in
  let o := get_club_data py_str (sim_client (Returns (status, roster)))
             (Some sim_is_set) log club_id max_members max_matches mpp
             (S (S (S fuel))) w in
  ∃ r, out_res o = Ok r
       ∧ match_history r !! py_str v = None
       ∧ logins_of (out_trace o) = 2%nat
       ∧ posts_of (out_trace o) =
           replicate 3 (history_path (py_str v), page_data mpp 0).
Proof.
  intros Hstatus Hone Hid Hpage Hstop w o.
  set (client := sim_client (Returns (status, roster))).
  set (ms := slice_to roster (or0 max_members)) in *.
  assert (player_ids_of py_str (slice_to ms (or0 max_matches))
          = Ok [py_str v]) as Hids.
  { rewrite Hone. cbn [player_ids_of]. by rewrite Hid. }
  pose proof (sim_enrich_run py_str (Returns (status, roster)) log ms 0
                (length ms) [] w) as (Hprofiles & Hposts & Hlogins & Hstop1).
  cbv zeta in Hprofiles, Hposts, Hlogins, Hstop1.
  fold client in Hprofiles, Hposts, Hlogins, Hstop1.
  pose proof (get_club_data_res py_str client (Some sim_is_set) log club_id
                max_members max_matches mpp (S (S (S fuel))) w) as Hres.
  pose proof (get_club_data_trace py_str client (Some sim_is_set) log club_id
                max_members max_matches mpp (S (S (S fuel))) w status roster
                w [py_str v] eq_refl Hstatus Hids) as Htrace.
  cbv zeta in Htrace. fold ms in Htrace.
  cbn [get_members_by_club client sim_client] in Hres.
  rewrite Hstatus in Hres. cbv zeta in Hres. fold ms client in Hres.
  rewrite Hprofiles, Hids in Hres.
  destruct (enrich_trace_quiet py_str client (Some sim_is_set) log ms 0
              (length ms) [] w) as [Hq1 Hq2].
  set (w1 := out_world (enrich py_str client (Some sim_is_set) log ms 0
                          (length ms) [] w)) in *.
  destruct w1 as [players1 posts1 logins1 stop1].
  cbn [sw_posts sw_logins sw_stop w] in Hposts, Hlogins, Hstop1.
  subst posts1 logins1.
  assert (∃ stop2,
            sim_is_set (mkSim players1
               (Returns (mkResponse 403 j1) :: Returns (mkResponse 403 j2)
                :: Returns (mkResponse 200 (Returns data)) :: rest)
               logins stop1)
            = (false, mkSim players1
                 (Returns (mkResponse 403 j1) :: Returns (mkResponse 403 j2)
                  :: Returns (mkResponse 200 (Returns data)) :: rest)
                 logins stop2)
            ∧ ∀ k, stop2 = Some k → (3 ≤ k)%nat) as (stop2 & Hpoll & Hstop2).
  { destruct stop as [k|]; subst stop1.
    - specialize (Hstop k eq_refl).
      destruct (k - length ms)%nat as [|k'] eqn:Hk; [lia|].
      exists (Some k'). split; [done|]. intros ? [= <-]. lia.
    - by exists None. }
  pose proof (sim_fetch_pages_403_403_empty (Returns (status, roster)) log
                fuel (py_str v) mpp players1 j1 j2 data next rest logins
                stop2 Hpage Hstop2) as (Hloop & Hl & Hp & _).
  cbv zeta in Hloop, Hl, Hp. fold client in Hloop, Hl, Hp.
  pose proof (fetch_history_single client (Some sim_is_set) log
                (S (S (S fuel))) mpp (py_str v) 0 1 ∅ _ _ [EIsSet] _
                ltac:(rewrite stop_requested_run, Hpoll; reflexivity) Hloop)
    as [Hh1 Hh2].
  cbv zeta in Hh1, Hh2. cbn [match_list] in Hh1, Hh2.
  cbn [length] in Hres, Htrace.
  rewrite Hh1 in Hres. rewrite Hh2 in Htrace.
  eexists. split; [exact Hres|].
  split; [apply lookup_empty|].
  subst o. fold client. rewrite Htrace.
  cbn [snd].
  rewrite !posts_of_app, !logins_of_app, !posts_of_said, !logins_of_said,
    Hq1, Hq2, Hl, Hp.
  done.
Qed.

Lemma C4_two_403_then_empty_page_witness :
  ∃ r, out_res reauth_run = Ok r
       ∧ match_history r !! scalar_str (VInt 7) = None
       ∧ logins_of (out_trace reauth_run) = 2%nat
       ∧ posts_of (out_trace reauth_run) =
           replicate 3 (history_path (scalar_str (VInt 7)), page_data 10 0).
Proof.
  apply (C4_two_403_then_empty_page scalar_str true "club" 20 5 10 0
           (VBool true) [member_of 7 "A"] (member_of 7 "A") (VInt 7) []
           (Raises "json") (Raises "json") empty_page None [] [] None).
  - reflexivity.
  - vm_compute. reflexivity.
  - vm_compute. reflexivity.
  - vm_compute. reflexivity.
  - intros k Hk. discriminate Hk.
Defined.

(** ** Cancellation during profile enrichment (C7) *)







(** ** More about enumeration and the roster fetch *)

(** X1: with a cap that is not negative, the enumerated members of a
    returned crawl are the first [max_members] records of the roster, in
    roster order, so there are as many as the cap allows and the roster
    has. *)
Theorem members_are_the_roster_prefix {W} (py_str : Val → string)
    (client : Client W) (stop_event : option (W → bool * W)) (log : bool)
    (club_id : string) (max_members max_matches mpp : Z) (fuel : nat)
    (w : W) (r : CrawlResult) :
  0 ≤ max_members →
  out_res (get_club_data py_str client stop_event log club_id
             max_members max_matches mpp fuel w) = Ok r →
  ∃ status roster,
    fst (get_members_by_club client club_id w) = Returns (status, roster)
    ∧ members r = take (Z.to_nat max_members) roster
    ∧ length (members r) = (Z.to_nat max_members `min` length roster)%nat
    ∧ ci_total_members (club_info r)
      = (Z.to_nat max_members `min` length roster)%nat.
Proof.
  intros Hcap. rewrite get_club_data_res.
  destruct (get_members_by_club client club_id w)
    as [[[status roster]|what] w0]; [|done].
  destruct (truthy status); [|done]. cbv zeta.
  destruct (out_res (enrich _ _ _ _ _ _ _ _ _)) as [profiles| |]; try done.
  destruct (player_ids_of _ _) as [ids| |]; try done.
  destruct (out_res (fetch_history _ _ _ _ _ _ _ _ _ _)) as [mh| |];
    try done.
  intros [= <-]. exists status, roster.
  cbn [fst assemble members club_info ci_total_members].
  rewrite slice_to_nonneg by done. by rewrite length_take.
Qed.

(** X2: when the roster fetch fails, by a falsy status or by raising,
    the crawl stops there: it makes no detail call, no page request, no
    reauthentication and no delay, and the world is as the roster call
    left it. *)
Theorem roster_failure_stops_the_crawl {W} (py_str : Val → string)
    (client : Client W) (stop_event : option (W → bool * W)) (log : bool)
    (club_id : string) (max_members max_matches mpp : Z) (fuel : nat)
    (w : W) :
  (∀ status roster,
     fst (get_members_by_club client club_id w) = Returns (status, roster) →
     truthy status = false) →
  let o := get_club_data py_str client stop_event log club_id
             max_members max_matches mpp fuel w in
  out_trace o =
    said log (LStart club_id) ++ said log LFetchingMembers ++
    [EGetMembers club_id]
  ∧ out_world o = snd (get_members_by_club client club_id w)
  ∧ players_of (out_trace o) = []
  ∧ posts_of (out_trace o) = []
  ∧ logins_of (out_trace o) = 0%nat
  ∧ sleeps_of (out_trace o) = []
  ∧ ∃ e, out_res o = Raise e.
Proof.
  intros Hfail. cbv zeta.
  assert (out_trace (get_club_data py_str client stop_event log club_id
                       max_members max_matches mpp fuel w) =
            said log (LStart club_id) ++ said log LFetchingMembers ++
            [EGetMembers club_id]
          ∧ out_world (get_club_data py_str client stop_event log club_id
                         max_members max_matches mpp fuel w)
            = snd (get_members_by_club client club_id w)
          ∧ ∃ e, out_res (get_club_data py_str client stop_event log club_id
                            max_members max_matches mpp fuel w) = Raise e)
    as (Htrace & Hworld & He).
  { unfold get_club_data.
    repeat (rewrite ?bind_trace, ?bind_res, ?bind_world, ?log_res,
              ?log_world, ?log_trace).
    destruct (get_members_by_club client club_id w) as [reply w0] eqn:Hcall.
    rewrite (call_run (EGetMembers club_id) _ w _ _ Hcall).
    cbn [out_res out_world out_trace snd].
    destruct reply as [[status roster]|what].
    - cbn [fst]. rewrite (Hfail status roster eq_refl).
      cbn [negb raise out_res out_world out_trace].
      rewrite app_nil_r. eauto.
    - rewrite app_nil_r. eauto. }
  rewrite Htrace, Hworld. repeat split; try done.
  all: unfold said; by destruct log.
Qed.

(** ** More about what a returned crawl contains *)

(** A crawl that returned went through its three stages. *)
Lemma get_club_data_Ok_inv {W} (py_str : Val → string) (client : Client W)
    (stop_event : option (W → bool * W)) (log : bool) (club_id : string)
    (max_members max_matches mpp : Z) (fuel : nat) (w : W)
    (r : CrawlResult) :
  out_res (get_club_data py_str client stop_event log club_id
             max_members max_matches mpp fuel w) = Ok r →
  ∃ status roster w0 profiles ids mh,
    get_members_by_club client club_id w = (Returns (status, roster), w0)
    ∧ truthy status = true
    ∧ out_res (enrich py_str client stop_event log
                 (slice_to roster (or0 max_members)) 0
                 (length (slice_to roster (or0 max_members))) [] w0)
      = Ok profiles
    ∧ player_ids_of py_str
        (slice_to (slice_to roster (or0 max_members)) (or0 max_matches))
      = Ok ids
    ∧ out_res (fetch_history client stop_event log fuel mpp ids 0
                 (length ids) ∅
                 (out_world (enrich py_str client stop_event log
                    (slice_to roster (or0 max_members)) 0
                    (length (slice_to roster (or0 max_members))) [] w0)))
      = Ok mh
    ∧ r = assemble club_id (slice_to roster (or0 max_members)) profiles mh.
Proof.
  rewrite get_club_data_res.
  destruct (get_members_by_club client club_id w)
    as [[[status roster]|what] w0]; [|done].
  destruct (truthy status) eqn:Hstatus; [|done]. cbv zeta.
  destruct (out_res (enrich _ _ _ _ _ _ _ _ _)) as [profiles| |] eqn:Hp;
    try done.
  destruct (player_ids_of _ _) as [ids| |] eqn:Hids; try done.
  destruct (out_res (fetch_history _ _ _ _ _ _ _ _ _ _)) as [mh| |] eqn:Hmh;
    try done.
  intros [= <-]. by exists status, roster, w0, profiles, ids, mh.
Qed.

Lemma player_ids_of_length py_str ms ids :
  player_ids_of py_str ms = Ok ids → length ids = length ms.
Proof.
  revert ids. induction ms as [|m ms IH]; intros ids; cbn [player_ids_of].
  - by intros [= <-].
  - destruct (m !! "id"); [|done].
    destruct (player_ids_of py_str ms) as [ids'| |]; try done.
    intros [= <-]. cbn [length]. by rewrite (IH ids').
Qed.

(** The loop over the players adds at most one entry per player. *)
Lemma fetch_history_size {W} (client : Client W)
    (stop_event : option (W → bool * W)) (log : bool) fuel mpp pids :
  ∀ idx n mh w mh',
    out_res (fetch_history client stop_event log fuel mpp pids idx n mh w)
    = Ok mh' →
    (size mh' ≤ size mh + length pids)%nat.
Proof.
  induction pids as [|p pids IH]; intros idx n mh w mh' Hrun.
  - cbn in Hrun. injection Hrun as <-. lia.
  - cbn [fetch_history] in Hrun.
    apply bind_Ok_inv in Hrun as ([|] & _ & Hrun).
    + rewrite bind_res, log_res in Hrun. injection Hrun as <-. lia.
    + apply bind_Ok_inv in Hrun as ([] & _ & Hrun).
      apply bind_Ok_inv in Hrun as (s & Hs & Hrun).
      apply bind_Ok_inv in Hrun as (mh1 & Hkeep & Hrun).
      rewrite keep_history_res in Hkeep. injection Hkeep as <-.
      apply IH in Hrun. cbn [length].
      destruct (match_list s) as [|h ml]; [lia|].
      pose proof (map_size_insert p (h :: ml) mh) as Hsize.
      destruct (mh !! p); cbn [id] in Hsize; unfold id in Hsize; lia.
Qed.

(** X3: history is kept only for players among the first [max_matches]
    enumerated members.  Every key of [match_history] is the id of one of
    them, so the players with history are at most as many as those
    members, and at most [total_members]. *)
Theorem history_only_for_the_first_players {W} (py_str : Val → string)
    (client : Client W) (stop_event : option (W → bool * W)) (log : bool)
    (club_id : string) (max_members max_matches mpp : Z) (fuel : nat)
    (w : W) (r : CrawlResult) :
  out_res (get_club_data py_str client stop_event log club_id
             max_members max_matches mpp fuel w) = Ok r →
  ∃ ids,
    player_ids_of py_str (slice_to (members r) (or0 max_matches)) = Ok ids
    ∧ (∀ pid, is_Some (match_history r !! pid) → pid ∈ ids)
    ∧ (size (match_history r) ≤ length ids)%nat
    ∧ (size (match_history r) ≤ ci_total_members (club_info r))%nat
    ∧ (0 ≤ max_matches →
       (size (match_history r) ≤ Z.to_nat max_matches)%nat).
Proof.
  intros Hrun.
  apply get_club_data_Ok_inv in Hrun
    as (status & roster & w0 & profiles & ids & mh & _ & _ & _ & Hids & Hmh
        & ->).
  cbn [assemble members match_history club_info ci_total_members].
  exists ids. split; [done|].
  pose proof (player_ids_of_length _ _ _ Hids) as Hlen.
  pose proof (fetch_history_size _ _ _ _ _ _ _ _ _ _ _ Hmh) as Hsize.
  rewrite map_size_empty in Hsize.
  pose proof (slice_to_length (slice_to roster (or0 max_members))
                (or0 max_matches)) as Hslice.
  split; [|split; [lia|split; [lia|]]].
  - intros pid [hits Hget].
    destruct (fetch_history_kept _ _ _ _ _ _ _ _ _ _ _ Hmh pid hits Hget)
      as [Hempty|(Hin & _)]; [|done].
    by rewrite lookup_empty in Hempty.
  - intros Hcap. rewrite slice_to_nonneg, length_take in Hlen by done. lia.
Qed.

Lemma sum_lengths_ge (l : list (string * list Val)) :
  Forall (λ kv, snd kv ≠ []) l →
  (length l ≤ sum_list (length ∘ snd <$> l))%nat.
Proof.
  induction 1 as [|[pid hits] l Hne _ IH]; cbn; [lia|].
  destruct hits; [done|]. cbn. lia.
Qed.

(** X4: in the result of a crawl the number of matches scraped is at least
    the number of players with history, since no player is stored with an
    empty history; it is zero exactly when no player has history. *)
Theorem scraped_matches_cover_players {W} (py_str : Val → string)
    (client : Client W) (stop_event : option (W → bool * W)) (log : bool)
    (club_id : string) (max_members max_matches mpp : Z) (fuel : nat)
    (w : W) (r : CrawlResult) :
  out_res (get_club_data py_str client stop_event log club_id
             max_members max_matches mpp fuel w) = Ok r →
  (size (match_history r) ≤ ci_scraped_matches (club_info r))%nat
  ∧ (ci_scraped_matches (club_info r) = 0%nat ↔ match_history r = ∅).
Proof.
  intros Hrun.
  apply get_club_data_Ok_inv in Hrun
    as (status & roster & w0 & profiles & ids & mh & _ & _ & _ & Hids & Hmh
        & ->).
  cbn [assemble match_history club_info ci_scraped_matches].
  assert (Forall (λ kv : string * list Val, snd kv ≠ []) (map_to_list mh))
    as Hne.
  { apply Forall_forall. intros [pid hits] Hin.
    apply elem_of_map_to_list in Hin. cbn.
    destruct (fetch_history_kept _ _ _ _ _ _ _ _ _ _ _ Hmh pid hits Hin)
      as [Hempty|(_ & Hne & _)]; [|done].
    by rewrite lookup_empty in Hempty. }
  apply sum_lengths_ge in Hne.
  rewrite scraped_total_sum, <- length_map_to_list.
  split; [done|]. split.
  - intros Hzero. apply map_to_list_empty_iff. revert Hne Hzero.
    destruct (map_to_list mh); [done|]. cbn [length]. lia.
  - intros ->. by rewrite map_to_list_empty.
Qed.

(** ** More about the paging loop *)

Lemma delays_of_app secs t1 t2 :
  delays_of secs (t1 ++ t2) = (delays_of secs t1 + delays_of secs t2)%nat.
Proof.
  unfold delays_of, sleeps_of. by rewrite omap_app, filter_app, length_app.
Qed.

Lemma delays_of_said secs log message : delays_of secs (said log message) = 0%nat.
Proof. by destruct log. Qed.

Section StepShape.
Context {W : Type}.
Variable client : Client W.
Variable stop_event : option (W → bool * W).
Variable log : bool.

(** What a pass through the body can be: the end of the loop, a retry at
    the same offset, or a fetched page. *)
Lemma page_step_shape pid mpp off ml rc w :
  ∃ step w' t,
    page_step client log pid mpp off ml rc w = mkOut (Ok step) w' t
    ∧ posts_of t = [(history_path pid, page_data mpp off)]
    ∧ ((∃ s', step = Break s' ∧ match_list s' = ml ∧ retry_count s' = rc
              ∧ logins_of t = 0%nat ∧ delays_of 1 t = 0%nat
              ∧ delays_of 2 t = 0%nat)
       ∨ (step = Continue (mkLoop (Some off) ml (rc + 1))
          ∧ (logins_of t ≤ 1)%nat ∧ delays_of 1 t = 0%nat
          ∧ (delays_of 2 t ≤ 1)%nat)
       ∨ (∃ next hits,
            hits ≠ [] ∧ step = Continue (mkLoop next (ml ++ hits) rc)
            ∧ logins_of t = 0%nat ∧ delays_of 1 t = 1%nat
            ∧ delays_of 2 t = 0%nat)).
Proof.
  pose proof (page_step_run client log pid mpp off ml rc w) as Hrun.
  cbv zeta in Hrun. rewrite Hrun. clear Hrun.
  generalize (history_path pid), (page_data mpp off). intros path body.
  unfold retried.
  destruct (dupr_post client path body w) as [[r|what] w1].
  - destruct (status_code r =? 200).
    + destruct (json r) as [data|what].
      * destruct (handle_paging client data) as [[next [|h hits]]|what].
        -- eexists _, _, _. split; [reflexivity|]. split; [by destruct log|].
           left. eexists. destruct log; repeat split; try done.
        -- eexists _, _, _. split; [reflexivity|]. split; [by destruct log|].
           right. right. exists next, (h :: hits).
           destruct log; repeat split; try done.
        -- eexists _, _, _. split; [reflexivity|]. split; [by destruct log|].
           right. left. destruct log; repeat split; try done; vm_compute; lia.
      * eexists _, _, _. split; [reflexivity|]. split; [by destruct log|].
        right. left. destruct log; repeat split; try done; vm_compute; lia.
    + destruct (status_code r =? 403).
      * cbv zeta. destruct (login_user client w1) as [[[]|what] w2];
          (eexists _, _, _; split; [reflexivity|];
           split; [by destruct log|]; right; left;
           destruct log; repeat split; try done; vm_compute; lia).
      * eexists _, _, _. split; [reflexivity|]. split; [by destruct log|].
        left. eexists. destruct log; repeat split; try done.
  - eexists _, _, _. split; [reflexivity|]. split; [by destruct log|].
    right. left. destruct log; repeat split; try done; vm_compute; lia.
Qed.

(** The poll of the event is no request, no reauthentication, no delay. *)
Lemma stop_requested_silent w :
  ∃ stop w1 t,
    stop_requested stop_event w = mkOut (Ok stop) w1 t
    ∧ posts_of t = [] ∧ logins_of t = 0%nat
    ∧ ∀ secs, delays_of secs t = 0%nat.
Proof.
  rewrite stop_requested_run. destruct stop_event as [f|].
  - by eexists _, _, _.
  - by eexists _, _, _.
Qed.

(** The effort of the paging loop from [rc] retries on. *)
Lemma fetch_pages_effort pid mpp fuel : ∀ s w,
  0 ≤ retry_count s ≤ max_retries →
  let t := out_trace (fetch_pages client stop_event log fuel pid mpp s w) in
  let left := Z.to_nat (max_retries - retry_count s) in
  (logins_of t ≤ left)%nat
  ∧ (delays_of 2 t ≤ left)%nat
  ∧ (length (posts_of t) ≤ left + delays_of 1 t + 1)%nat
  ∧ Forall (λ req, ∃ off, req = (history_path pid, page_data mpp off))
      (posts_of t).
Proof.
  induction fuel as [|fuel IH]; intros [off ml rc] w Hrc; cbv zeta;
    cbn [retry_count] in *.
  - cbn. repeat split; try lia. constructor.
  - destruct off as [off|]; [|cbn; repeat split; try lia; constructor].
    destruct (decide (rc = max_retries)) as [->|Hne].
    { cbn. repeat split; try lia. constructor. }
    rewrite fetch_pages_unroll by lia.
    destruct (stop_requested_silent w)
      as (stop & w1 & t0 & -> & Hp0 & Hl0 & Hd0).
    destruct stop.
    { cbn [out_trace].
      rewrite posts_of_app, logins_of_app, !delays_of_app, Hp0, Hl0, !Hd0,
        posts_of_said, logins_of_said, !delays_of_said.
      cbn. repeat split; try lia. constructor. }
    destruct (page_step_shape pid mpp off ml rc w1)
      as (step & w2 & t1 & -> & Hp1 & Hcase).
    destruct Hcase as [(s' & -> & _ & _ & Hl1 & Hd1 & Hd2)
                      |[(-> & Hl1 & Hd1 & Hd2)
                       |(next & hits & _ & -> & Hl1 & Hd1 & Hd2)]].
    + cbn [out_trace].
      rewrite posts_of_app, logins_of_app, !delays_of_app, Hp0, Hl0, !Hd0,
        Hp1, Hl1, Hd1, Hd2.
      cbn. repeat split; try lia. repeat constructor. by exists off.
    + destruct (IH (mkLoop (Some off) ml (rc + 1)) w2)
        as (Hl & Hd & Hp & Hall); [cbn; lia|].
      cbv zeta in Hl, Hd, Hp, Hall. cbn [retry_count] in Hl, Hd, Hp.
      cbn [after out_trace].
      rewrite !posts_of_app, !logins_of_app, !delays_of_app, Hp0, Hl0, !Hd0,
        Hp1, Hd1.
      cbn [app length]. unfold max_retries in *.
      repeat split; try lia.
      constructor; [by exists off|done].
    + destruct (IH (mkLoop next (ml ++ hits) rc) w2)
        as (Hl & Hd & Hp & Hall); [cbn; lia|].
      cbv zeta in Hl, Hd, Hp, Hall. cbn [retry_count] in Hl, Hd, Hp.
      cbn [after out_trace].
      rewrite !posts_of_app, !logins_of_app, !delays_of_app, Hp0, Hl0, !Hd0,
        Hp1, Hl1, Hd1, Hd2.
      cbn [app length]. unfold max_retries in *.
      repeat split; try lia.
      constructor; [by exists off|done].
Qed.

(** X8: what the paging loop has accumulated is never dropped: whenever
    it returns, by a null cursor, an empty page, a terminal status, used-up
    retries or cancellation, the list it ends with extends the list it
    started with, and its retry count has not gone down. *)
Theorem accumulated_hits_are_kept pid mpp fuel : ∀ s w s',
  out_res (fetch_pages client stop_event log fuel pid mpp s w) = Ok s' →
  (∃ more, match_list s' = match_list s ++ more)
  ∧ retry_count s ≤ retry_count s'.
Proof.
  induction fuel as [|fuel IH]; intros [off ml rc] w s'; [done|].
  destruct off as [off|];
    [|cbn; intros [= <-]; split; [by exists []; rewrite app_nil_r|cbn; lia]].
  destruct (Z.ltb_spec rc max_retries) as [Hrc|Hrc].
  2: { cbn [fetch_pages offset retry_count].
       destruct (Z.ltb_spec rc max_retries); [lia|].
       cbn. intros [= <-]. split; [by exists []; rewrite app_nil_r|cbn; lia]. }
  rewrite fetch_pages_unroll by done.
  destruct (stop_requested_silent w) as (stop & w1 & t0 & -> & _).
  destruct stop.
  { cbn. intros [= <-]. split; [by exists []; rewrite app_nil_r|cbn; lia]. }
  destruct (page_step_shape pid mpp off ml rc w1)
    as (step & w2 & t1 & -> & _ & Hcase).
  destruct Hcase as [(s1 & -> & Hml & Hrc1 & _)
                    |[(-> & _)|(next & hits & _ & -> & _)]].
  - cbn. intros [= <-]. rewrite Hml, Hrc1.
    split; [by exists []; rewrite app_nil_r|lia].
  - cbn [after out_res]. intros Hrun. apply IH in Hrun as [[more Hm] Hr].
    cbn in *. split; [by exists more|lia].
  - cbn [after out_res]. intros Hrun. apply IH in Hrun as [[more Hm] Hr].
    cbn in *. split; [|done]. exists (hits ++ more). by rewrite app_assoc.
Qed.

End StepShape.

Section HistoryEffort.
Context {W : Type}.
Variable client : Client W.
Variable stop_event : option (W → bool * W).
Variable log : bool.

(** One visit of the loop over the players. *)
Lemma fetch_history_unroll fuel mpp pid pids idx n mh w :
  fetch_history client stop_event log fuel mpp (pid :: pids) idx n mh w =
  match stop_requested stop_event w with
  | mkOut (Ok true) w1 t0 => mkOut (Ok mh) w1 (t0 ++ said log LStopHistory)
  | mkOut (Ok false) w1 t0 =>
      match fetch_pages client stop_event log fuel pid mpp
              (mkLoop (Some 0) [] 0) w1 with
      | mkOut (Ok s) w2 t1 =>
          after (t0 ++ said log (LHistoryFor (idx + 1) n pid) ++ t1 ++
                 match match_list s with
                 | [] => said log (LNoHistory pid)
                 | _ => []
                 end)
            (fetch_history client stop_event log fuel mpp pids (S idx) n
               (match match_list s with
                | [] => mh
                | _ => <[pid := match_list s]> mh
                end) w2)
      | mkOut (Raise e) w2 t1 =>
          mkOut (Raise e) w2
            (t0 ++ said log (LHistoryFor (idx + 1) n pid) ++ t1)
      | mkOut OutOfFuel w2 t1 =>
          mkOut OutOfFuel w2
            (t0 ++ said log (LHistoryFor (idx + 1) n pid) ++ t1)
      end
  | mkOut (Raise e) w1 t0 => mkOut (Raise e) w1 t0
  | mkOut OutOfFuel w1 t0 => mkOut OutOfFuel w1 t0
  end.
Proof.
  cbn [fetch_history]. unfold bind at 1.
  destruct (stop_requested stop_event w) as [[[|]|e|] w1 t0]; try done.
  - unfold bind, _log, said, emit, ret. by destruct log.
  - unfold bind at 1. rewrite log_run. unfold bind at 1.
    destruct (fetch_pages client stop_event log fuel pid mpp
                (mkLoop (Some 0) [] 0) w1) as [[s|e|] w2 t1]; try done.
    unfold bind at 1, keep_history, after.
    destruct (match_list s) as [|h ml].
    + unfold bind at 1. rewrite log_run. cbn [ret].
      destruct (fetch_history client stop_event log fuel mpp pids (S idx) n
                  mh w2) as [r w3 t2].
      cbn [out_res out_world out_trace].
      by rewrite app_nil_r, <- !app_assoc.
    + cbn [ret].
      destruct (fetch_history client stop_event log fuel mpp pids (S idx) n
                  (<[pid:=h :: ml]> mh) w2) as [r w3 t2].
      cbn [out_res out_world out_trace].
      by rewrite !app_nil_r, <- !app_assoc.
Qed.

(** The effort of the loop over the players: per player at most three
    reauthentications and three backoffs, and page requests only for
    these players. *)
Lemma fetch_history_effort fuel mpp pids : ∀ idx n mh w,
  let t := out_trace (fetch_history client stop_event log fuel mpp pids idx
                        n mh w) in
  (logins_of t ≤ 3 * length pids)%nat
  ∧ (delays_of 2 t ≤ 3 * length pids)%nat
  ∧ (length (posts_of t) ≤ 4 * length pids + delays_of 1 t)%nat
  ∧ Forall (λ req, ∃ pid off,
              pid ∈ pids ∧ req = (history_path pid, page_data mpp off))
      (posts_of t).
Proof.
  induction pids as [|pid pids IH]; intros idx n mh w; cbv zeta.
  - cbn. repeat split; try lia. constructor.
  - rewrite fetch_history_unroll.
    destruct (stop_requested_silent stop_event w)
      as (stop & w1 & t0 & -> & Hp0 & Hl0 & Hd0).
    destruct stop.
    { cbn [out_trace].
      rewrite posts_of_app, logins_of_app, !delays_of_app, Hp0, Hl0, !Hd0,
        posts_of_said, logins_of_said, !delays_of_said.
      cbn. repeat split; try lia. constructor. }
    pose proof (fetch_pages_effort client stop_event log pid mpp fuel
                  (mkLoop (Some 0) [] 0) w1) as (Hl1 & Hd1 & Hp1 & Hall1);
      [cbn; unfold max_retries; lia|].
    cbv zeta in Hl1, Hd1, Hp1, Hall1.
    cbn [retry_count] in Hl1, Hd1, Hp1. unfold max_retries in Hl1, Hd1, Hp1.
    assert (Forall (λ req, ∃ pid0 off,
                      pid0 ∈ pid :: pids
                      ∧ req = (history_path pid0, page_data mpp off))
              (posts_of (out_trace
                 (fetch_pages client stop_event log fuel pid mpp
                    (mkLoop (Some 0) [] 0) w1)))) as Hall1'.
    { eapply Forall_impl; [exact Hall1|].
      intros req [off ->]. exists pid, off. split; [by constructor|done]. }
    destruct (fetch_pages client stop_event log fuel pid mpp
                (mkLoop (Some 0) [] 0) w1) as [[s|e|] w2 t1];
      cbn [out_trace] in Hl1, Hd1, Hp1, Hall1'.
    + set (mh' := match match_list s with [] => mh | _ => _ end).
      destruct (IH (S idx) n mh' w2) as (Hl & Hd & Hp & Hall).
      cbv zeta in Hl, Hd, Hp, Hall.
      cbn [after out_trace].
      assert (∀ tail : list Event,
                posts_of tail = [] → logins_of tail = 0%nat →
                (∀ secs, delays_of secs tail = 0%nat) →
                posts_of tail = [] ∧ logins_of tail = 0%nat
                ∧ delays_of 1 tail = 0%nat ∧ delays_of 2 tail = 0%nat)
        as Hquiet by (intros; by repeat split).
      destruct (Hquiet (match match_list s with
                        | [] => said log (LNoHistory pid)
                        | _ => []
                        end)) as (Hpt & Hlt & Hd1t & Hd2t);
        [by destruct (match_list s); rewrite ?posts_of_said
        |by destruct (match_list s); rewrite ?logins_of_said
        |by intros; destruct (match_list s); rewrite ?delays_of_said|].
      rewrite !posts_of_app, !logins_of_app, !delays_of_app, Hp0, Hl0, !Hd0,
        !posts_of_said, !logins_of_said, !delays_of_said, Hpt, Hlt, Hd1t,
        Hd2t.
      cbn [app]. rewrite ?app_nil_r, !length_app. cbn [length].
      split; [lia|]. split; [lia|]. split; [lia|].
      apply Forall_app. split; [done|].
      eapply Forall_impl; [exact Hall|].
      intros req (p & off & Hin & ->). exists p, off.
      split; [by constructor|done].
    + cbn [out_trace].
      rewrite !posts_of_app, !logins_of_app, !delays_of_app, Hp0, Hl0, !Hd0,
        !posts_of_said, !logins_of_said, !delays_of_said.
      cbn [app length]. repeat split; try lia. done.
    + cbn [out_trace].
      rewrite !posts_of_app, !logins_of_app, !delays_of_app, Hp0, Hl0, !Hd0,
        !posts_of_said, !logins_of_said, !delays_of_said.
      cbn [app length]. repeat split; try lia. done.
Qed.

End HistoryEffort.

(** ** More about the requests of a crawl *)


(** The events of any crawl: a part without page requests and
    reauthentications, followed, when the history stage is reached, by the
    events of the loop over the players. *)
Lemma get_club_data_trace_split {W} (py_str : Val → string)
    (client : Client W) (stop_event : option (W → bool * W)) (log : bool)
    (club_id : string) (max_members max_matches mpp : Z) (fuel : nat)
    (w : W) :
  ∃ t1 t2,
    out_trace (get_club_data py_str client stop_event log club_id
                 max_members max_matches mpp fuel w) = t1 ++ t2
    ∧ posts_of t1 = [] ∧ logins_of t1 = 0%nat
    ∧ (t2 = []
       ∨ ∃ roster ids w1,
           player_ids_of py_str
             (slice_to (slice_to roster (or0 max_members)) (or0 max_matches))
           = Ok ids
           ∧ t2 = out_trace (fetch_history client stop_event log fuel mpp
                               ids 0 (length ids) ∅ w1)).
Proof.
  destruct (get_members_by_club client club_id w) as [reply w0] eqn:Hcall.
  assert (∀ t, t = said log (LStart club_id) ++ said log LFetchingMembers ++
                   [EGetMembers club_id] →
               posts_of t = [] ∧ logins_of t = 0%nat) as Hpre.
  { intros t ->. unfold said. by destruct log. }
  destruct reply as [[status roster]|what];
    [destruct (truthy status) eqn:Hstatus|].
  - set (ms := slice_to roster (or0 max_members)).
    destruct (enrich_trace_quiet py_str client stop_event log ms 0
                (length ms) [] w0) as [Hq1 Hq2].
    destruct (player_ids_of py_str (slice_to ms (or0 max_matches)))
      as [ids|e|] eqn:Hids.
    + pose proof (get_club_data_trace py_str client stop_event log club_id
                    max_members max_matches mpp fuel w status roster w0 ids
                    Hcall Hstatus Hids) as Htrace.
      cbv zeta in Htrace. fold ms in Htrace.
      exists (said log (LStart club_id) ++ said log LFetchingMembers ++
              [EGetMembers club_id] ++ said log LFetchingProfiles ++
              out_trace (enrich py_str client stop_event log ms 0
                           (length ms) [] w0) ++
              said log LFetchingHistory),
        (out_trace (fetch_history client stop_event log fuel mpp ids 0
                      (length ids) ∅
                      (out_world (enrich py_str client stop_event log ms 0
                                    (length ms) [] w0)))).
      split; [by rewrite Htrace, <- !app_assoc|].
      rewrite !posts_of_app, !logins_of_app, !posts_of_said, !logins_of_said,
        Hq1, Hq2.
      split; [done|]. split; [done|]. right. by eexists roster, ids, _.
    + eexists _, []. rewrite app_nil_r. split; [reflexivity|].
      split; [|split; [|by left]].
      all: unfold get_club_data;
        repeat (rewrite ?bind_trace, ?bind_res, ?bind_world, ?log_res,
                  ?log_world, ?log_trace);
        rewrite (call_run (EGetMembers club_id) _ w _ _ Hcall);
        cbn [out_res out_world out_trace fst snd]; rewrite Hstatus;
        cbn [negb]; fold ms;
        repeat (rewrite ?bind_trace, ?bind_res, ?bind_world, ?log_res,
                  ?log_world, ?log_trace);
        destruct (returns_enrich py_str client stop_event log ms 0
                    (length ms) [] w0) as [profiles ->];
        repeat (rewrite ?bind_trace, ?bind_res, ?bind_world, ?log_res,
                  ?log_world, ?log_trace);
        rewrite Hids; cbn [lift out_res out_trace];
        rewrite ?posts_of_app, ?logins_of_app, ?posts_of_said,
          ?logins_of_said, ?Hq1, ?Hq2; done.
    + by destruct (player_ids_of_no_cutoff py_str (slice_to ms (or0 max_matches))).
  - eexists _, []. rewrite app_nil_r. split; [reflexivity|].
    split; [|split; [|by left]].
    all: unfold get_club_data;
      repeat (rewrite ?bind_trace, ?bind_res, ?bind_world, ?log_res,
                ?log_world, ?log_trace);
      rewrite (call_run (EGetMembers club_id) _ w _ _ Hcall);
      cbn [out_res out_world out_trace fst snd]; rewrite Hstatus;
      cbn [negb raise out_trace];
      rewrite ?posts_of_app, ?logins_of_app, ?posts_of_said,
        ?logins_of_said; done.
  - eexists _, []. rewrite app_nil_r. split; [reflexivity|].
    split; [|split; [|by left]].
    all: unfold get_club_data;
      repeat (rewrite ?bind_trace, ?bind_res, ?bind_world, ?log_res,
                ?log_world, ?log_trace);
      rewrite (call_run (EGetMembers club_id) _ w _ _ Hcall);
      cbn [out_res out_world out_trace fst snd];
      rewrite ?posts_of_app, ?logins_of_app, ?posts_of_said,
        ?logins_of_said; done.
Qed.

(** X5: whatever the service answers, the paging loop of one player
    reauthenticates at most three times, backs off at most three times,
    and sends at most four requests more than the pages it fetched. *)
Theorem paging_effort_per_player {W} (client : Client W)
    (stop_event : option (W → bool * W)) (log : bool) (fuel : nat)
    (pid : string) (mpp : Z) (w : W) :
  let t := out_trace (fetch_pages client stop_event log fuel pid mpp
                        (mkLoop (Some 0) [] 0) w) in
  (logins_of t ≤ 3)%nat
  ∧ (delays_of 2 t ≤ 3)%nat
  ∧ (length (posts_of t) ≤ delays_of 1 t + 4)%nat.
Proof.
  pose proof (fetch_pages_effort client stop_event log pid mpp fuel
                (mkLoop (Some 0) [] 0) w) as (Hl & Hd & Hp & _);
    [cbn; unfold max_retries; lia|].
  cbv zeta in *. cbn [retry_count] in *. unfold max_retries in *.
  repeat split; lia.
Qed.


(** X7: a crawl reauthenticates at most three times for each player whose
    history it requests, so at most [3 * max_matches] times in all. *)
Theorem crawl_reauthentications_are_bounded {W} (py_str : Val → string)
    (client : Client W) (stop_event : option (W → bool * W)) (log : bool)
    (club_id : string) (max_members max_matches mpp : Z) (fuel : nat)
    (w : W) :
  0 ≤ max_matches →
  (logins_of (out_trace (get_club_data py_str client stop_event log club_id
                           max_members max_matches mpp fuel w))
   ≤ 3 * Z.to_nat max_matches)%nat.
Proof.
  intros Hcap.
  destruct (get_club_data_trace_split py_str client stop_event log club_id
              max_members max_matches mpp fuel w)
    as (t1 & t2 & -> & _ & Hl1 & Ht2).
  rewrite logins_of_app, Hl1.
  destruct Ht2 as [->|(roster & ids & w1 & Hids & ->)]; [cbn; lia|].
  pose proof (fetch_history_effort client stop_event log fuel mpp ids 0
                (length ids) ∅ w1) as (Hl & _).
  cbv zeta in Hl.
  apply player_ids_of_length in Hids.
  rewrite slice_to_nonneg, length_take in Hids by done. lia.
Qed.

Lemma accumulated_hits_are_kept_witness :
  (∃ more, match_list (mkLoop None ([VInt 1] ++ [VInt 2]) 0)
           = match_list (mkLoop (Some 0) [] 0) ++ more)
  ∧ retry_count (mkLoop (Some 0) [] 0)
    ≤ retry_count (mkLoop None ([VInt 1] ++ [VInt 2]) 0).
Proof.
  apply (accumulated_hits_are_kept
           (sim_client (Returns (VBool true, two_members)))
           (Some sim_is_set) true "7" 10 3 (mkLoop (Some 0) [] 0)
           (mkSim [] [Returns (page_response (Some 20) [VInt 1]);
                      Returns (page_response None [VInt 2])] [] None)).
  vm_compute. reflexivity.
Defined.

(** X9: a status other than 200 and 403 ends the paging loop of the player
    at once: one request, no reauthentication, no delay, and the cursor,
    the accumulation and the retry count as they were. *)
Theorem other_status_ends_the_paging {W} (client : Client W)
    (stop_event : option (W → bool * W)) (log : bool) (fuel : nat)
    (pid : string) (mpp off : Z) (ml : list Val) (rc : Z) (w w0 w1 : W)
    (t0 : list Event) (r : Response) :
  rc < max_retries →
  stop_requested stop_event w = mkOut (Ok false) w0 t0 →
  dupr_post client (history_path pid) (page_data mpp off) w0
    = (Returns r, w1) →
  status_code r ≠ 200 →
  status_code r ≠ 403 →
  fetch_pages client stop_event log (S fuel) pid mpp
    (mkLoop (Some off) ml rc) w =
  mkOut (Ok (mkLoop (Some off) ml rc)) w1
    (t0 ++ [EPost (history_path pid) (page_data mpp off)] ++
     said log (LStatusError (status_code r))).
Proof.
  intros Hrc Hstop Hpost H200 H403.
  pose proof (page_step_run client log pid mpp off ml rc w0) as Hstep.
  cbv zeta in Hstep. rewrite Hpost in Hstep.
  destruct (Z.eqb_spec (status_code r) 200); [done|].
  destruct (Z.eqb_spec (status_code r) 403); [done|].
  by rewrite fetch_pages_unroll, Hstop, Hstep.
Qed.

Lemma other_status_ends_the_paging_witness :
  fetch_pages (sim_client (Returns (VBool true, two_members)))
    (Some sim_is_set) true 1 "7" 10 (mkLoop (Some 0) [] 0)
    (mkSim [] [Returns (status_response 500)] [] None) =
  mkOut (Ok (mkLoop (Some 0) [] 0)) (mkSim [] [] [] None)
    ([EIsSet] ++ [EPost (history_path "7") (page_data 10 0)] ++
     said true (LStatusError (status_code (status_response 500)))).
Proof.
  apply (other_status_ends_the_paging
           (sim_client (Returns (VBool true, two_members)))
           (Some sim_is_set) true 0 "7" 10 0 [] 0
           (mkSim [] [Returns (status_response 500)] [] None)
           (mkSim [] [Returns (status_response 500)] [] None)
           (mkSim [] [] [] None) [EIsSet] (status_response 500)).
  - reflexivity.
  - reflexivity.
  - reflexivity.
  - discriminate.
  - discriminate.
Defined.

(** ** More about cancellation in the middle of paging *)

Lemma scraped_total_singleton pid (hits : list Val) :
  scraped_total {[pid := hits]} = length hits.
Proof.
  rewrite scraped_total_sum, map_to_list_singleton. cbn. lia.
Qed.

(** A fetched page and then the event set: the page is kept. *)
Lemma sim_fetch_pages_page_then_cancel roster log fuel pid mpp players data
    next hits rest logins :
  sim_handle_paging data = Returns (Some next, hits) →
  hits ≠ [] →
  let w := mkSim players (Returns (mkResponse 200 (Returns data)) :: rest)
             logins (Some 1%nat) in
  let o := fetch_pages (sim_client roster) (Some sim_is_set) log
             (S (S fuel)) pid mpp (mkLoop (Some 0) [] 0) w in
  out_res o = Ok (mkLoop (Some next) hits 0)
  ∧ posts_of (out_trace o) = [(history_path pid, page_data mpp 0)]
  ∧ logins_of (out_trace o) = 0%nat.
Proof.
  intros Hpage Hhits. cbv zeta.
  sim_pass. rewrite Hpage.
  destruct hits as [|h hits]; [done|].
  cbn [after out_res out_trace app].
  rewrite fetch_pages_unroll by (unfold max_retries; lia).
  rewrite stop_requested_run.
  cbn [sim_is_set sw_stop fst snd out_res out_trace].
  by destruct log.
Qed.

(** X10: a crawl against the simulated service that is cancelled in the
    middle of a player's paging, after one page with hits was fetched,
    keeps that page: the player is stored with exactly these hits, they
    are counted in [scraped_matches], and no further request is sent. *)
Theorem cancellation_keeps_fetched_pages (py_str : Val → string) (log : bool)
    (club_id : string) (max_members max_matches mpp : Z) (fuel : nat)
    (status : Val) (roster : list Member) (m : Member) (v : Val)
    (players : list (Reply (Val * Val))) (data : Val) (next : Z)
    (hits : list Val) (rest : list (Reply Response))
    (logins : list (Reply unit)) :
  truthy status = true →
  slice_to (slice_to roster (or0 max_members)) (or0 max_matches) = [m] →
  m !! "id" = Some v →
  sim_handle_paging data = Returns (Some next, hits) →
  hits ≠ [] →
  let w := mkSim players (Returns (mkResponse 200 (Returns data)) :: rest)
             logins
             (Some (length (slice_to roster (or0 max_members)) + 2)%nat) in
  let o := get_club_data py_str (sim_client (Returns (status, roster)))
             (Some sim_is_set) log club_id max_members max_matches mpp
             (S (S fuel)) w in
  ∃ r, out_res o = Ok r
       ∧ match_history r = {[py_str v := hits]}
       ∧ ci_scraped_matches (club_info r) = length hits
       ∧ posts_of (out_trace o)
         = [(history_path (py_str v), page_data mpp 0)].
Proof.
  intros Hstatus Hone Hid Hpage Hhits w o.
  set (client := sim_client (Returns (status, roster))).
  set (ms := slice_to roster (or0 max_members)) in *.
  assert (player_ids_of py_str (slice_to ms (or0 max_matches))
          = Ok [py_str v]) as Hids.
  { rewrite Hone. cbn [player_ids_of]. by rewrite Hid. }
  pose proof (sim_enrich_run py_str (Returns (status, roster)) log ms 0
                (length ms) [] w) as (Hprofiles & Hposts & Hlogins & Hstop1).
  cbv zeta in Hprofiles, Hposts, Hlogins, Hstop1.
  fold client in Hprofiles, Hposts, Hlogins, Hstop1.
  pose proof (get_club_data_res py_str client (Some sim_is_set) log club_id
                max_members max_matches mpp (S (S fuel)) w) as Hres.
  pose proof (get_club_data_trace py_str client (Some sim_is_set) log club_id
                max_members max_matches mpp (S (S fuel)) w status roster
                w [py_str v] eq_refl Hstatus Hids) as Htrace.
  cbv zeta in Htrace. fold ms in Htrace.
  cbn [get_members_by_club client sim_client] in Hres.
  rewrite Hstatus in Hres. cbv zeta in Hres. fold ms client in Hres.
  rewrite Hprofiles, Hids in Hres.
  destruct (enrich_trace_quiet py_str client (Some sim_is_set) log ms 0
              (length ms) [] w) as [Hq1 Hq2].
  set (w1 := out_world (enrich py_str client (Some sim_is_set) log ms 0
                          (length ms) [] w)) in *.
  destruct w1 as [players1 posts1 logins1 stop1].
  cbn [sw_posts sw_logins sw_stop w] in Hposts, Hlogins, Hstop1.
  subst posts1 logins1.
  replace (length ms + 2 - length ms)%nat with 2%nat in Hstop1 by lia.
  subst stop1.
  pose proof (sim_fetch_pages_page_then_cancel (Returns (status, roster)) log
                fuel (py_str v) mpp players1 data next hits rest logins
                Hpage Hhits) as (Hloop & Hp & Hl).
  cbv zeta in Hloop, Hl, Hp. fold client in Hloop, Hl, Hp.
  pose proof (fetch_history_single client (Some sim_is_set) log
                (S (S fuel)) mpp (py_str v) 0 1 ∅
                (mkSim players1
                   (Returns (mkResponse 200 (Returns data)) :: rest) logins
                   (Some 2%nat))
                (mkSim players1
                   (Returns (mkResponse 200 (Returns data)) :: rest) logins
                   (Some 1%nat))
                [EIsSet] _ eq_refl Hloop)
    as [Hh1 Hh2].
  cbv zeta in Hh1, Hh2. cbn [match_list] in Hh1, Hh2.
  cbn [length] in Hres, Htrace.
  rewrite Hh1 in Hres. rewrite Hh2 in Htrace.
  destruct hits as [|h hits]; [done|].
  eexists. split; [exact Hres|].
  cbn [assemble match_history club_info ci_scraped_matches].
  split; [done|]. split; [apply scraped_total_singleton|].
  subst o. fold client. rewrite Htrace.
  rewrite !posts_of_app, !posts_of_said, Hq1, Hp.
  done.
Qed.

(** ** More about the detail calls *)

Lemma players_of_app t1 t2 :
  players_of (t1 ++ t2) = players_of t1 ++ players_of t2.
Proof. apply omap_app. Qed.

Lemma players_of_said log message : players_of (said log message) = [].
Proof. by destruct log. Qed.

Section DetailCalls.
Context {W : Type}.
Variable py_str : Val → string.
Variable client : Client W.
Variable stop_event : option (W → bool * W).
Variable log : bool.

Lemma stop_requested_no_players w :
  players_of (out_trace (stop_requested stop_event w)) = [].
Proof. rewrite stop_requested_run. by destruct stop_event. Qed.

Lemma page_step_no_players pid mpp off ml rc w :
  players_of (out_trace (page_step client log pid mpp off ml rc w)) = [].
Proof.
  pose proof (page_step_run client log pid mpp off ml rc w) as Hrun.
  cbv zeta in Hrun. rewrite Hrun. clear Hrun.
  generalize (history_path pid), (page_data mpp off). intros path body.
  unfold retried.
  destruct (dupr_post client path body w) as [[r|what] w1];
    [destruct (status_code r =? 200);
     [destruct (json r) as [data|what];
      [destruct (handle_paging client data) as [[next [|h hits]]|what]|]
     |destruct (status_code r =? 403);
      [cbv zeta; destruct (login_user client w1) as [[[]|what] w2]|]]|];
    by destruct log.
Qed.

(** The paging loop makes no detail call. *)
Lemma fetch_pages_no_players pid mpp fuel : ∀ s w,
  players_of (out_trace (fetch_pages client stop_event log fuel pid mpp s w))
  = [].
Proof.
  induction fuel as [|fuel IH]; intros [off ml rc] w; [done|].
  destruct off as [off|]; [|done].
  destruct (Z.ltb_spec rc max_retries) as [Hrc|Hrc].
  2: { cbn [fetch_pages offset retry_count].
       by destruct (Z.ltb_spec rc max_retries); [lia|]. }
  rewrite fetch_pages_unroll by done.
  pose proof (stop_requested_no_players w) as H0.
  destruct (stop_requested stop_event w) as [[[|]|e|] w1 t0];
    cbn [out_trace] in H0 |- *; try done.
  - by rewrite players_of_app, H0, players_of_said.
  - pose proof (page_step_no_players pid mpp off ml rc w1) as H1.
    destruct (page_step client log pid mpp off ml rc w1)
      as [[[s'|s']|e|] w2 t1]; cbn [out_trace after] in H1 |- *;
      rewrite ?players_of_app, ?H0, ?H1, ?IH; done.
Qed.

(** Neither does the loop over the players. *)
Lemma fetch_history_no_players fuel mpp pids : ∀ idx n mh w,
  players_of (out_trace (fetch_history client stop_event log fuel mpp pids
                           idx n mh w)) = [].
Proof.
  induction pids as [|pid pids IH]; intros idx n mh w; [done|].
  rewrite fetch_history_unroll.
  pose proof (stop_requested_no_players w) as H0.
  destruct (stop_requested stop_event w) as [[[|]|e|] w1 t0];
    cbn [out_trace] in H0 |- *; try done.
  - by rewrite players_of_app, H0, players_of_said.
  - pose proof (fetch_pages_no_players pid mpp fuel (mkLoop (Some 0) [] 0) w1)
      as H1.
    destruct (fetch_pages client stop_event log fuel pid mpp
                (mkLoop (Some 0) [] 0) w1) as [[s|e|] w2 t1];
      cbn [out_trace after] in H1 |- *;
      rewrite ?players_of_app, ?H0, ?H1, ?IH, ?players_of_said;
      try done.
    by destruct (match_list s); rewrite ?players_of_said.
Qed.

(** The events of a crawl whose roster fetch succeeds. *)
Lemma get_club_data_trace_fetched club_id max_members max_matches mpp fuel w
    status roster w0 :
  get_members_by_club client club_id w = (Returns (status, roster), w0) →
  truthy status = true →
  let members := slice_to roster (or0 max_members) in
  let o1 := enrich py_str client stop_event log members 0 (length members)
              [] w0 in
  ∃ t2,
    out_trace (get_club_data py_str client stop_event log club_id
                 max_members max_matches mpp fuel w) =
    said log (LStart club_id) ++ said log LFetchingMembers ++
    [EGetMembers club_id] ++ said log LFetchingProfiles ++
    out_trace o1 ++ said log LFetchingHistory ++ t2
    ∧ (t2 = []
       ∨ ∃ ids,
           t2 = out_trace (fetch_history client stop_event log fuel mpp ids
                             0 (length ids) ∅ (out_world o1))).
Proof.
  intros Hcall Hstatus members o1.
  destruct (player_ids_of py_str (slice_to members (or0 max_matches)))
    as [ids|e|] eqn:Hids.
  - eexists. split; [|right; by exists ids].
    apply (get_club_data_trace py_str client stop_event log club_id
             max_members max_matches mpp fuel w status roster w0 ids
             Hcall Hstatus Hids).
  - exists []. split; [|by left].
    unfold get_club_data.
    repeat (rewrite ?bind_trace, ?bind_res, ?bind_world, ?log_res,
              ?log_world, ?log_trace).
    rewrite (call_run (EGetMembers club_id) _ w _ _ Hcall).
    cbn [out_res out_world out_trace fst snd]. rewrite Hstatus.
    cbn [negb]. fold members.
    repeat (rewrite ?bind_trace, ?bind_res, ?bind_world, ?log_res,
              ?log_world, ?log_trace).
    fold o1.
    destruct (returns_enrich py_str client stop_event log members 0
                (length members) [] w0) as [profiles Hprofiles].
    fold o1 in Hprofiles. rewrite Hprofiles.
    repeat (rewrite ?bind_trace, ?bind_res, ?bind_world, ?log_res,
              ?log_world, ?log_trace).
    rewrite Hids. cbn [lift out_res out_trace]. by rewrite !app_nil_r.
  - by destruct (player_ids_of_no_cutoff py_str
                   (slice_to members (or0 max_matches))).
Qed.

End DetailCalls.

(** Without a cancellation event the profile loop calls the detail
    capability once for every member, in order. *)
Lemma enrich_players_uncancelled {W} (py_str : Val → string)
    (client : Client W) (log : bool) ms : ∀ idx n profiles w,
  players_of (out_trace (enrich py_str client None log ms idx n profiles w))
  = (λ m : Member, py_str (dict_get m "id")) <$> ms.
Proof.
  induction ms as [|m ms IH]; intros idx n profiles w; [done|].
  rewrite enrich_unroll, stop_requested_run.
  pose proof (enrich_member_run py_str client log idx n m profiles w)
    as Hrun.
  cbv zeta in Hrun. rewrite Hrun. clear Hrun.
  pose proof (merge_detail_no_cutoff
                (base_profile (py_str (dict_get m "id")) m)) as Hcut.
  destruct (get_player client _ w) as [[sd|what] w1];
    [specialize (Hcut (snd sd)); destruct (merge_detail _ _) as [p|e|];
     [| |done]|];
    cbn [after out_trace fmap list_fmap];
    rewrite !players_of_app, IH, ?players_of_said; by destruct log.
Qed.

(** X11: in a crawl without a cancellation event whose roster fetch
    succeeds, the detail capability is called exactly once for every
    enumerated member, in roster order and with the member's id as a
    string, whatever the earlier calls answered; the history stage makes
    no detail call. *)
Theorem detail_calls_follow_the_roster {W} (py_str : Val → string)
    (client : Client W) (log : bool) (club_id : string)
    (max_members max_matches mpp : Z) (fuel : nat) (w : W) (status : Val)
    (roster : list Member) :
  fst (get_members_by_club client club_id w) = Returns (status, roster) →
  truthy status = true →
  players_of (out_trace (get_club_data py_str client None log club_id
                           max_members max_matches mpp fuel w))
  = (λ m : Member, py_str (dict_get m "id"))
      <$> slice_to roster (or0 max_members).
Proof.
  intros Hroster Hstatus.
  destruct (get_members_by_club client club_id w) as [reply w0] eqn:Hcall.
  cbn [fst] in Hroster. subst reply.
  destruct (get_club_data_trace_fetched py_str client None log club_id
              max_members max_matches mpp fuel w status roster w0
              Hcall Hstatus) as (t2 & -> & Ht2).
  rewrite !players_of_app, !players_of_said, enrich_players_uncancelled.
  destruct Ht2 as [->|[ids ->]].
  - cbn. by rewrite app_nil_r.
  - rewrite fetch_history_no_players. cbn. by rewrite app_nil_r.
Qed.

(** ** The rows of the match-history sheet *)

Lemma and_then_Done {A B} (m : Try A) (k : A → Try B) (b : B) :
  and_then m k = Done b → ∃ a, m = Done a ∧ k a = Done b.
Proof. destruct m as [a|e]; [by exists a|done]. Qed.

Lemma get_or_Done v key dflt x :
  get_or v key dflt = Done x → ∃ d, v = VDict d ∧ x = dict_get_or d key dflt.
Proof. destruct v; try done. intros [= <-]. by eexists. Qed.

Lemma dict_update_lookup_ne (info : SheetRow) keys values key :
  key ∉ keys → dict_update info (zip keys values) !! key = info !! key.
Proof.
  intros Hkey. unfold dict_update. apply lookup_union_r.
  apply not_elem_of_list_to_map_1. intros Hin. apply Hkey.
  apply list_elem_of_fmap in Hin as ([k v] & -> & Hin).
  by apply elem_of_zip_l in Hin.
Qed.

Lemma with_team_lookup_ne keys match_ team info info' key :
  with_team keys match_ team info = Done info' →
  key ∉ keys → info' !! key = info !! key.
Proof.
  unfold with_team. destruct (truthy team).
  - intros (values & _ & [= <-])%and_then_Done Hkey.
    by apply dict_update_lookup_ne.
  - by intros [= <-].
Qed.

Lemma with_result_lookup_ne py_str player_team opponent_team info info' key :
  with_result py_str player_team opponent_team info = Done info' →
  key ≠ "result" → key ≠ "score_summary" → info' !! key = info !! key.
Proof.
  unfold with_result.
  destruct (truthy player_team && truthy opponent_team); [|by intros [= <-]].
  intros (winner & _ & H)%and_then_Done Hr Hs. cbv zeta in H.
  apply and_then_Done in H as (g1 & _ & H).
  apply and_then_Done in H as (og1 & _ & H).
  apply and_then_Done in H as (g2 & _ & H).
  destruct (ne_int g2 (-1)).
  - apply and_then_Done in H as (g2' & _ & H).
    apply and_then_Done in H as (og2 & _ & [= <-]).
    by rewrite !lookup_insert_ne.
  - injection H as <-. by rewrite !lookup_insert_ne.
Qed.

Lemma match_info_Done player_id match_ info :
  match_info player_id match_ = Done info →
  ∃ d, match_ = VDict d
       ∧ info !! "player_id" = Some (VStr player_id)
       ∧ info !! "match_id" = Some (dict_get d "id")
       ∧ info !! "event_date" = Some (dict_get d "eventDate")
       ∧ info !! "result" = None.
Proof.
  destruct match_ as [| | | | |d]; try done.
  intros H. exists d. split; [done|].
  unfold match_info in H. cbn [get get_or and_then] in H.
  apply and_then_Done in H as (score_format & _ & [= <-]).
  done.
Qed.

(** What every row says about its match. *)
Lemma match_row_Done py_str player_id match_ row :
  match_row py_str player_id match_ = Done row →
  ∃ d, match_ = VDict d
       ∧ row !! "player_id" = Some (VStr player_id)
       ∧ row !! "match_id" = Some (dict_get d "id")
       ∧ row !! "event_date" = Some (dict_get d "eventDate").
Proof.
  unfold match_row. intros H.
  apply and_then_Done in H as (teams_value & _ & H).
  apply and_then_Done in H as (teams & _ & H).
  apply and_then_Done in H as (found & _ & H).
  apply and_then_Done in H as (info & Hinfo & H).
  apply and_then_Done in H as (info1 & H1 & H).
  apply and_then_Done in H as (info2 & H2 & H).
  apply match_info_Done in Hinfo as (d & -> & Hp & Hm & He & _).
  exists d. split; [done|].
  rewrite !(with_result_lookup_ne _ _ _ _ _ _ H) by done.
  rewrite !(with_team_lookup_ne _ _ _ _ _ _ H2)
    by (by apply (bool_decide_unpack _)).
  rewrite !(with_team_lookup_ne _ _ _ _ _ _ H1)
    by (by apply (bool_decide_unpack _)).
  done.
Qed.

Lemma player_rows_Done py_str player_id matches : ∀ acc rows,
  player_rows py_str player_id matches acc = Done rows →
  ∃ new, rows = acc ++ new
         ∧ Forall2 row_of new ((λ m, (player_id, m)) <$> matches).
Proof.
  induction matches as [|m matches IH]; intros acc rows H.
  - injection H as <-. exists []. by rewrite app_nil_r.
  - cbn [player_rows] in H.
    apply and_then_Done in H as (row & Hrow & H).
    apply IH in H as (new & -> & Hnew).
    exists (row :: new). split; [by rewrite <- app_assoc|].
    constructor; [|done].
    apply match_row_Done in Hrow as (d & -> & Hp & Hm & He).
    by exists d.
Qed.

Lemma all_rows_Done py_str items : ∀ acc rows,
  all_rows py_str items acc = Done rows →
  ∃ new, rows = acc ++ new ∧ Forall2 row_of new (flat_matches items).
Proof.
  induction items as [|[pid matches] items IH]; intros acc rows H.
  - injection H as <-. exists []. by rewrite app_nil_r.
  - cbn [all_rows] in H.
    apply and_then_Done in H as (acc' & Hacc & H).
    apply player_rows_Done in Hacc as (new1 & -> & Hnew1).
    apply IH in H as (new2 & -> & Hnew2).
    exists (new1 ++ new2). split; [by rewrite <- app_assoc|].
    unfold flat_matches. rewrite bind_cons. by apply Forall2_app.
Qed.

(** X12: when the flattening of the match history succeeds, [match_data]
    has exactly one row per stored match, in the order of the items and of
    each player's list; the row carries the key the match is stored under
    as [player_id] and the match's own id and date. *)
Theorem rows_follow_the_stored_matches (py_str : Val → string)
    (items : list (string * list Val)) (rows : list SheetRow) :
  match_data py_str items = Done rows →
  Forall2 row_of rows (flat_matches items).
Proof.
  intros H. by apply all_rows_Done in H as (new & -> & Hnew).
Qed.

Lemma flat_matches_length items :
  length (flat_matches items) = sum_list (length ∘ snd <$> items).
Proof.
  unfold flat_matches.
  induction items as [|[pid matches] items IH]; [done|].
  rewrite bind_cons, length_app, length_fmap, IH. done.
Qed.

Lemma sum_lengths_Permutation (l1 l2 : list (string * list Val)) :
  l1 ≡ₚ l2 →
  sum_list (length ∘ snd <$> l1) = sum_list (length ∘ snd <$> l2).
Proof.
  induction 1 as [|x l1 l2 _ IH|x y l|l1 l2 l3 _ IH1 _ IH2]; cbn;
    [done|by rewrite IH|lia|congruence].
Qed.

(** X13: the export of a crawl result writes as many match rows as the
    result's [scraped_matches] says, in whatever order the history dict
    is enumerated. *)
Theorem exported_rows_match_the_scraped_count {W} (py_str : Val → string)
    (client : Client W) (stop_event : option (W → bool * W)) (log : bool)
    (club_id : string) (max_members max_matches mpp : Z) (fuel : nat)
    (w : W) (r : CrawlResult) (items : list (string * list Val))
    (rows : list SheetRow) :
  out_res (get_club_data py_str client stop_event log club_id
             max_members max_matches mpp fuel w) = Ok r →
  items ≡ₚ map_to_list (match_history r) →
  match_data py_str items = Done rows →
  length rows = ci_scraped_matches (club_info r).
Proof.
  intros Hr Hitems Hrows.
  apply get_club_data_Ok_inv in Hr
    as (status & roster & w0 & profiles & ids & mh & _ & _ & _ & _ & _ & ->).
  cbn [assemble club_info ci_scraped_matches match_history] in *.
  apply all_rows_Done in Hrows as (new & -> & Hrows%Forall2_length).
  cbn [app]. rewrite Hrows, flat_matches_length, scraped_total_sum.
  by apply sum_lengths_Permutation.
Qed.

(** ** Records the export cannot read *)

Lemma get_in_dict t outer inner :
  get_in (VDict t) outer inner = get (dict_get_or t outer (VDict ∅)) inner.
Proof. done. Qed.

Lemma get_not_a_dict v key :
  is_dict v = false → get v key = Fails NotADict.
Proof. by destruct v. Qed.

Lemma get_is_dict v key :
  is_dict v = true → ∃ x, get v key = Done x.
Proof. destruct v; try done. by eexists. Qed.

Lemma get_in_fails v outer inner e :
  get_in v outer inner = Fails e → e = NotADict.
Proof.
  destruct v as [| | | | |t]; try by intros [= <-].
  rewrite get_in_dict. destruct (dict_get_or t outer (VDict ∅));
    by intros [= <-].
Qed.

Lemma on_team_fails py_str player_id team e :
  on_team py_str player_id team = Fails e → e = NotADict.
Proof.
  unfold on_team.
  destruct (get_in team "player1" "id") as [a|e1] eqn:H1; cbn [and_then].
  - destruct (String.eqb (py_str a) player_id); [done|].
    destruct (get_in team "player2" "id") as [b|e2] eqn:H2; cbn [and_then];
      [done|].
    intros [= <-]. by apply get_in_fails in H2.
  - intros [= <-]. by apply get_in_fails in H1.
Qed.

Lemma classify_fails py_str player_id teams : ∀ player_team opponent_team e,
  classify py_str player_id teams player_team opponent_team = Fails e →
  e = NotADict.
Proof.
  induction teams as [|team teams IH]; intros pt ot e; [done|].
  cbn [classify].
  destruct (on_team py_str player_id team) as [[|]|e1] eqn:H1;
    cbn [and_then]; [apply IH|apply IH|].
  intros [= <-]. by apply on_team_fails in H1.
Qed.

Lemma classify_app py_str player_id teams1 teams2 :
  ∀ player_team opponent_team,
  classify py_str player_id (teams1 ++ teams2) player_team opponent_team =
  (found <- classify py_str player_id teams1 player_team opponent_team ;;
   classify py_str player_id teams2 (fst found) (snd found)).
Proof.
  induction teams1 as [|team teams1 IH]; intros pt ot; [done|].
  cbn [app classify].
  destruct (on_team py_str player_id team) as [[|]|e]; cbn [and_then];
    [apply IH|apply IH|done].
Qed.

Lemma match_info_dict player_id d :
  ∃ info, match_info player_id (VDict d) = Done info.
Proof.
  unfold match_info. cbn [get get_or and_then].
  destruct (is_dict (dict_get_or d "scoreFormat" VNone)) eqn:Hsf.
  - rewrite get_in_dict.
    assert (dict_get_or d "scoreFormat" (VDict ∅)
            = dict_get_or d "scoreFormat" VNone) as ->.
    { revert Hsf. unfold dict_get_or. by destruct (d !! "scoreFormat"). }
    destruct (get_is_dict _ "format" Hsf) as [x ->]. by eexists.
  - by eexists.
Qed.

(** A team whose second player is bound to something that is not a dict
    cannot be the player's team. *)
Lemma team_values_partner match_ t v :
  t !! "player2" = Some v → is_dict v = false →
  team_values match_ (VDict t) = Fails NotADict.
Proof.
  intros Ht Hv. unfold team_values.
  cbn [get get_or and_then]. rewrite !get_in_dict.
  destruct (dict_get_or t "player1" (VDict ∅)) as [| | | | |p]; try done.
  cbn [get get_or and_then].
  unfold dict_get_or at 1. rewrite Ht. cbn [default].
  by rewrite get_not_a_dict.
Qed.

Lemma truthy_dict_lookup (t : gmap string Val) key v :
  t !! key = Some v → truthy (VDict t) = true.
Proof.
  intros Ht. cbn [truthy]. destruct (size t) eqn:Hsize; [|done].
  apply map_size_empty_iff in Hsize. subst t. by rewrite lookup_empty in Ht.
Qed.

(** The row of a match whose last team has a second player that is not a
    dict. *)
Lemma match_row_partner py_str player_id d teams t v :
  d !! "teams" = Some (VList (teams ++ [VDict t])) →
  t !! "player2" = Some v → is_dict v = false →
  match_row py_str player_id (VDict d) = Fails NotADict.
Proof.
  intros Hd Ht Hv. unfold match_row.
  cbn [get_or]. unfold dict_get_or at 1. rewrite Hd.
  cbn [default and_then]. unfold id. cbn [py_iter and_then].
  rewrite classify_app.
  destruct (classify py_str player_id teams VNone VNone) as [[pt ot]|e]
    eqn:Hfirst; cbn [and_then fst snd].
  2: { by apply classify_fails in Hfirst as ->. }
  cbn [classify]. unfold on_team. rewrite !get_in_dict.
  destruct (dict_get_or t "player1" (VDict ∅)) as [| | | | |p] eqn:Hp;
    try done.
  cbn [get get_or and_then].
  destruct (String.eqb (py_str (dict_get_or p "id" VNone)) player_id).
  - cbn [and_then fst snd].
    destruct (match_info_dict player_id d) as [info ->]. cbn [and_then].
    unfold with_team at 1. rewrite (truthy_dict_lookup _ _ _ Ht).
    by rewrite (team_values_partner _ _ _ Ht Hv).
  - unfold dict_get_or at 1. rewrite Ht. cbn [default].
    by rewrite get_not_a_dict.
Qed.

Lemma player_rows_fails py_str player_id matches match_ e : ∀ acc,
  match_ ∈ matches →
  match_row py_str player_id match_ = Fails e →
  ∃ e', player_rows py_str player_id matches acc = Fails e'.
Proof.
  induction matches as [|m matches IH]; intros acc Hin Hrow.
  - by apply elem_of_nil in Hin.
  - cbn [player_rows].
    destruct (match_row py_str player_id m) as [row|e1] eqn:Hm;
      cbn [and_then]; [|by eexists].
    apply elem_of_cons in Hin as [->|Hin]; [congruence|by apply IH].
Qed.

Lemma all_rows_fails py_str items player_id matches match_ e : ∀ acc,
  (player_id, matches) ∈ items → match_ ∈ matches →
  match_row py_str player_id match_ = Fails e →
  ∃ e', all_rows py_str items acc = Fails e'.
Proof.
  induction items as [|[pid ms] items IH]; intros acc Hin Hm Hrow.
  - by apply elem_of_nil in Hin.
  - cbn [all_rows].
    apply elem_of_cons in Hin as [[= <- <-]|Hin].
    + destruct (player_rows_fails py_str player_id matches match_ e acc
                  Hm Hrow) as [e' ->]. by eexists.
    + destruct (player_rows py_str pid ms acc) as [acc'|e1];
        cbn [and_then]; [by eapply IH|by eexists].
Qed.

(** X14: one stored match whose last team binds [player2] to something
    that is not a dict (a JSON null, say) makes the flattening raise, so
    that no row is produced for any player. *)
Theorem partner_that_is_no_dict_fails_the_export (py_str : Val → string)
    (items : list (string * list Val)) (player_id : string)
    (matches : list Val) (d t : gmap string Val) (teams : list Val)
    (v : Val) :
  (player_id, matches) ∈ items →
  VDict d ∈ matches →
  d !! "teams" = Some (VList (teams ++ [VDict t])) →
  t !! "player2" = Some v →
  is_dict v = false →
  match_row py_str player_id (VDict d) = Fails NotADict
  ∧ ∃ e, match_data py_str items = Fails e.
Proof.
  intros Hitems Hmatches Hd Ht Hv.
  pose proof (match_row_partner py_str player_id d teams t v Hd Ht Hv)
    as Hrow.
  split; [done|]. by eapply all_rows_fails.
Qed.

(** ** The row of a match *)

Lemma get_eventFormat_teams d x y :
  get (VDict (<["teams" := x]> d)) "eventFormat"
  = get (VDict (<["teams" := y]> d)) "eventFormat".
Proof.
  cbn [get get_or]. unfold dict_get_or. by rewrite !lookup_insert_ne.
Qed.

Lemma match_info_teams player_id d x y :
  match_info player_id (VDict (<["teams" := x]> d))
  = match_info player_id (VDict (<["teams" := y]> d)).
Proof.
  unfold match_info. rewrite !get_in_dict. cbn [get get_or].
  unfold dict_get_or. by rewrite !lookup_insert_ne.
Qed.

Lemma with_team_teams keys d x y team info :
  with_team keys (VDict (<["teams" := x]> d)) team info
  = with_team keys (VDict (<["teams" := y]> d)) team info.
Proof.
  unfold with_team, team_values.
  by rewrite (get_eventFormat_teams d x y).
Qed.

Lemma match_row_classified py_str player_id d teams :
  match_row py_str player_id (VDict (<["teams" := VList teams]> d)) =
  (found <- classify py_str player_id teams VNone VNone ;;
   info <- match_info player_id (VDict (<["teams" := VNone]> d)) ;;
   info <- with_team player_keys (VDict (<["teams" := VNone]> d))
             (fst found) info ;;
   info <- with_team opponent_keys (VDict (<["teams" := VNone]> d))
             (snd found) info ;;
   with_result py_str (fst found) (snd found) info).
Proof.
  unfold match_row. cbn [get_or]. unfold dict_get_or at 1.
  rewrite lookup_insert_eq. cbn [default]. unfold id.
  cbn [py_iter and_then].
  rewrite (match_info_teams player_id d (VList teams) VNone).
  destruct (classify py_str player_id teams VNone VNone) as [found|e];
    cbn [and_then]; [|done].
  destruct (match_info player_id _) as [info|e]; cbn [and_then]; [|done].
  rewrite (with_team_teams player_keys d (VList teams) VNone).
  destruct (with_team player_keys _ _ _) as [info1|e]; cbn [and_then];
    [|done].
  by rewrite (with_team_teams opponent_keys d (VList teams) VNone).
Qed.

(** X15: for a match with two teams, one with the player and one
    without, the row does not depend on which team comes first. *)
Theorem team_order_is_irrelevant (py_str : Val → string)
    (player_id : string) (d : gmap string Val) (a b : Val) :
  on_team py_str player_id a = Done true →
  on_team py_str player_id b = Done false →
  match_row py_str player_id (VDict (<["teams" := VList [a; b]]> d))
  = match_row py_str player_id (VDict (<["teams" := VList [b; a]]> d)).
Proof.
  intros Ha Hb. rewrite !match_row_classified.
  cbn [classify]. by rewrite Ha, Hb; cbn [and_then]; rewrite ?Ha, ?Hb.
Qed.

Lemma team_values_Done match_ t values :
  team_values match_ (VDict t) = Done values →
  ∃ rest, values = dict_get t "id" :: rest
          ∧ length rest = 12%nat.
Proof.
  unfold team_values. intros H.
  apply and_then_Done in H as (team_id & [= <-] & H).
  repeat (apply and_then_Done in H as (? & _ & H)).
  injection H as <-. by eexists.
Qed.

Lemma with_team_id keys key match_ t info info' :
  head keys = Some key →
  truthy (VDict t) = true →
  with_team keys match_ (VDict t) info = Done info' →
  info' !! key = Some (dict_get t "id").
Proof.
  intros Hkey Ht. unfold with_team. rewrite Ht.
  intros (values & (rest & -> & _)%team_values_Done & [= <-])%and_then_Done.
  destruct keys as [|k keys]; [done|]. injection Hkey as ->.
  unfold dict_update. cbn [zip zip_with list_to_map foldr].
  apply lookup_union_Some_l. cbn [fst snd uncurry]. apply lookup_insert_eq.
Qed.

(** X16: for a match with two teams that are not empty dicts, the first
    with the player and the second without, the row reports the first
    team as the player's and the second as the opponent's; [result] is
    "Win" exactly when the player's team has a truthy [winner], and the
    second game enters the score summary unless the player's team has
    [game2] equal to -1. *)
Theorem row_reports_the_players_team (py_str : Val → string)
    (player_id : string) (d a b : gmap string Val) (row : SheetRow) :
  d !! "teams" = Some (VList [VDict a; VDict b]) →
  on_team py_str player_id (VDict a) = Done true →
  on_team py_str player_id (VDict b) = Done false →
  truthy (VDict a) = true →
  truthy (VDict b) = true →
  match_row py_str player_id (VDict d) = Done row →
  row !! "player_team_id" = Some (dict_get a "id")
  ∧ row !! "opponent_team_id" = Some (dict_get b "id")
  ∧ row !! "result"
    = Some (VStr (if truthy (dict_get a "winner") then "Win" else "Loss"))
  ∧ row !! "score_summary"
    = Some (VStr (
        let first := String.append (py_str (dict_get a "game1"))
                       (String.append "-" (py_str (dict_get b "game1"))) in
        if ne_int (dict_get a "game2") (-1)
        then String.append first
               (String.append ", "
                  (String.append (py_str (dict_get a "game2"))
                     (String.append "-" (py_str (dict_get b "game2")))))
        else first)).
Proof.
  intros Hd Ha Hb Hane Hbne. unfold match_row.
  cbn [get_or]. unfold dict_get_or at 1. rewrite Hd.
  cbn [default and_then]. unfold id. cbn [py_iter and_then classify].
  rewrite Ha. cbn [and_then]. rewrite Hb. cbn [and_then fst snd].
  intros H.
  apply and_then_Done in H as (info & Hinfo & H).
  apply and_then_Done in H as (info1 & H1 & H).
  apply and_then_Done in H as (info2 & H2 & H).
  pose proof (with_team_id player_keys "player_team_id" _ a _ _
                eq_refl Hane H1) as Hp.
  pose proof (with_team_id opponent_keys "opponent_team_id" _ b _ _
                eq_refl Hbne H2) as Ho.
  assert (info2 !! "player_team_id" = Some (dict_get a "id")) as Hp2.
  { rewrite (with_team_lookup_ne _ _ _ _ _ "player_team_id" H2); [done|].
    by apply (bool_decide_unpack _). }
  unfold with_result in H.
  rewrite Hane, Hbne in H.
  cbn [andb get get_or and_then] in H. cbv zeta. cbv zeta in H.
  unfold dict_get_or in H. unfold dict_get in *.
  destruct (ne_int (default VNone (a !! "game2")) (-1)); injection H as <-;
    rewrite lookup_insert_eq, !lookup_insert_ne, lookup_insert_eq by done;
    by rewrite Hp2, Ho.
Qed.

Lemma classify_absent py_str player_id teams : ∀ player_team opponent_team,
  Forall (λ team, on_team py_str player_id team = Done false) teams →
  ∃ other,
    classify py_str player_id teams player_team opponent_team
    = Done (player_team, other).
Proof.
  induction teams as [|team teams IH]; intros pt ot Hteams.
  - by eexists.
  - apply Forall_cons in Hteams as [Hteam Hteams].
    cbn [classify]. rewrite Hteam. cbn [and_then]. by apply IH.
Qed.

(** X17: when the player is on none of the teams of a match (or the
    match has no teams), the row has no result, no score summary and none
    of the columns of the player's team. *)
Theorem player_on_no_team_has_no_result (py_str : Val → string)
    (player_id : string) (d : gmap string Val) (teams : list Val)
    (row : SheetRow) :
  dict_get_or d "teams" (VList []) = VList teams →
  Forall (λ team, on_team py_str player_id team = Done false) teams →
  match_row py_str player_id (VDict d) = Done row →
  row !! "result" = None
  ∧ row !! "score_summary" = None
  ∧ Forall (λ key, row !! key = None) player_keys.
Proof.
  intros Hd Hteams. unfold match_row. cbn [get_or]. rewrite Hd.
  cbn [py_iter and_then].
  destruct (classify_absent py_str player_id teams VNone VNone Hteams)
    as [other ->].
  cbn [and_then fst snd]. intros H.
  apply and_then_Done in H as (info & Hinfo & H).
  unfold with_team at 1 in H. cbn [truthy and_then] in H.
  apply and_then_Done in H as (info2 & H2 & H).
  unfold with_result in H. cbn [truthy andb] in H. injection H as <-.
  assert (∀ key, key ∉ opponent_keys → info !! key = None →
                 info2 !! key = None) as Hkeep.
  { intros key Hkey Hnone.
    by rewrite (with_team_lookup_ne _ _ _ _ _ key H2). }
  assert (∃ sf, info = list_to_map
            [("player_id", VStr player_id); ("match_id", dict_get d "id");
             ("event_name", dict_get d "eventName");
             ("event_date", dict_get d "eventDate");
             ("event_format", dict_get d "eventFormat");
             ("league", dict_get d "league");
             ("tournament", dict_get d "tournament");
             ("score_format", sf);
             ("confirmed", dict_get d "confirmed")]) as [sf ->].
  { unfold match_info in Hinfo. cbn [get get_or and_then] in Hinfo.
    apply and_then_Done in Hinfo as (sf & _ & [= <-]). by exists sf. }
  split; [|split].
  - apply Hkeep; [by apply (bool_decide_unpack _)|done].
  - apply Hkeep; [by apply (bool_decide_unpack _)|done].
  - unfold player_keys.
    repeat (apply Forall_cons; split;
            [apply Hkeep; [by apply (bool_decide_unpack _)|done]|]).
    apply Forall_nil_2.
Qed.

(** ** Records the export can read *)

Lemma readable_team_inv team :
  readable_team team = true →
  ∃ t p, team = VDict t
    ∧ dict_get_or t "player1" (VDict ∅) = VDict p
    ∧ is_dict (dict_get_or t "player2" (VDict ∅)) = true
    ∧ is_dict (dict_get_or t "preMatchRatingAndImpact" (VDict ∅)) = true
    ∧ is_dict (dict_get_or p "postMatchRating" (VDict ∅)) = true.
Proof.
  destruct team as [| | | | |t]; try done. cbn [readable_team].
  intros [[H2 Hpre]%andb_prop Hp]%andb_prop.
  destruct (dict_get_or t "player1" (VDict ∅)) as [| | | | |p] eqn:H1;
    try done.
  by exists t, p.
Qed.

Lemma get_in_readable t outer inner :
  is_dict (dict_get_or t outer (VDict ∅)) = true →
  ∃ x, get_in (VDict t) outer inner = Done x.
Proof. intros H. rewrite get_in_dict. by apply get_is_dict. Qed.

Lemma on_team_readable py_str player_id team :
  readable_team team = true →
  ∃ mine, on_team py_str player_id team = Done mine.
Proof.
  intros (t & p & -> & H1 & H2 & _)%readable_team_inv.
  unfold on_team. rewrite !get_in_dict, H1. cbn [get get_or and_then].
  destruct (String.eqb _ player_id); [by eexists|].
  destruct (get_is_dict _ "id" H2) as [b ->]. by eexists.
Qed.

Lemma classify_readable py_str player_id teams :
  ∀ player_team opponent_team,
  forallb readable_team teams = true →
  (player_team = VNone ∨ readable_team player_team = true) →
  (opponent_team = VNone ∨ readable_team opponent_team = true) →
  ∃ found,
    classify py_str player_id teams player_team opponent_team = Done found
    ∧ (fst found = VNone ∨ readable_team (fst found) = true)
    ∧ (snd found = VNone ∨ readable_team (snd found) = true).
Proof.
  induction teams as [|team teams IH]; intros pt ot Hteams Hpt Hot.
  - by exists (pt, ot).
  - cbn [forallb] in Hteams. apply andb_prop in Hteams as [Hteam Hteams].
    cbn [classify].
    destruct (on_team_readable py_str player_id team Hteam) as [mine ->].
    cbn [and_then]. destruct mine; apply IH; auto.
Qed.

Lemma team_values_readable d team :
  readable_team team = true →
  ∃ values, team_values (VDict d) team = Done values.
Proof.
  intros (t & p & -> & H1 & H2 & Hpre & Hpost)%readable_team_inv.
  unfold team_values. rewrite !get_in_dict, H1.
  cbn [get get_or and_then]. rewrite H1.
  destruct (get_is_dict _ "id" H2) as [x1 ->].
  destruct (get_is_dict _ "fullName" H2) as [x2 ->].
  destruct (get_is_dict _ "duprId" H2) as [x3 ->].
  cbn [and_then]. rewrite !get_in_dict.
  destruct (get_is_dict _ "preMatchDoubleRatingPlayer1" Hpre) as [x4 ->].
  destruct (get_is_dict _ "preMatchSingleRatingPlayer1" Hpre) as [x5 ->].
  destruct (get_is_dict _ "doubles" Hpost) as [x6 ->].
  destruct (get_is_dict _ "singles" Hpost) as [x7 ->].
  destruct (eq_str _ "DOUBLES"); cbn [and_then]; by eexists.
Qed.

Lemma with_team_readable keys d team info :
  team = VNone ∨ readable_team team = true →
  ∃ info', with_team keys (VDict d) team info = Done info'.
Proof.
  intros [->|Hteam]; [by eexists|]. unfold with_team.
  destruct (truthy team); [|by eexists].
  destruct (team_values_readable d team Hteam) as [values ->].
  by eexists.
Qed.

Lemma with_result_readable py_str player_team opponent_team info :
  player_team = VNone ∨ readable_team player_team = true →
  opponent_team = VNone ∨ readable_team opponent_team = true →
  ∃ info', with_result py_str player_team opponent_team info = Done info'.
Proof.
  intros [->|Hpt]; [by eexists|].
  intros [->|Hot]; [unfold with_result; rewrite andb_false_r; by eexists|].
  apply readable_team_inv in Hpt as (a & ? & -> & _).
  apply readable_team_inv in Hot as (b & ? & -> & _).
  unfold with_result.
  destruct (truthy (VDict a) && truthy (VDict b)); [|by eexists].
  cbn [get get_or and_then]. cbv zeta.
  destruct (ne_int _ (-1)); by eexists.
Qed.

Lemma match_row_readable py_str player_id match_ :
  readable_match match_ = true →
  ∃ row, match_row py_str player_id match_ = Done row.
Proof.
  destruct match_ as [| | | | |d]; try done. cbn [readable_match].
  destruct (dict_get_or d "teams" (VList [])) as [| | | |teams|] eqn:Hd;
    try done.
  intros Hteams. unfold match_row. cbn [get_or]. rewrite Hd.
  cbn [py_iter and_then].
  destruct (classify_readable py_str player_id teams VNone VNone Hteams)
    as ([pt ot] & -> & Hpt & Hot); [by left|by left|].
  cbn [fst snd and_then] in *.
  destruct (match_info_dict player_id d) as [info ->]. cbn [and_then].
  destruct (with_team_readable player_keys d pt info Hpt) as [info1 ->].
  cbn [and_then].
  destruct (with_team_readable opponent_keys d ot info1 Hot) as [info2 ->].
  cbn [and_then]. by apply with_result_readable.
Qed.

Lemma player_rows_readable py_str player_id matches : ∀ acc,
  forallb readable_match matches = true →
  ∃ rows, player_rows py_str player_id matches acc = Done rows.
Proof.
  induction matches as [|m matches IH]; intros acc Hall; [by eexists|].
  cbn [forallb] in Hall. apply andb_prop in Hall as [Hm Hall].
  cbn [player_rows].
  destruct (match_row_readable py_str player_id m Hm) as [row ->].
  cbn [and_then]. by apply IH.
Qed.

(** X18: a match history all of whose records are readable is flattened
    without an exception. *)
Theorem readable_history_is_exported (py_str : Val → string)
    (items : list (string * list Val)) :
  Forall (λ item, forallb readable_match (snd item) = true) items →
  ∃ rows, match_data py_str items = Done rows.
Proof.
  unfold match_data. generalize (@nil SheetRow).
  induction items as [|[pid matches] items IH]; intros acc Hitems.
  - by eexists.
  - apply Forall_cons in Hitems as [Hmatches Hitems].
    cbn [all_rows].
    destruct (player_rows_readable py_str pid matches acc Hmatches)
      as [acc' ->].
    cbn [and_then]. by apply IH.
Qed.

(** ** Reading a score string *)

Section ScoreFacts.
Variable py_strip : string → string.
Variable py_int : string → option Z.

Lemma count_wins_unreadable games g : ∀ wins_a wins_b,
  g ∈ games → is_Some (split_once "-"%char g) →
  game_score py_strip py_int g = None →
  count_wins py_strip py_int games wins_a wins_b = None.
Proof.
  induction games as [|g' games IH]; intros wa wb Hin Hdash Hscore.
  - by apply elem_of_nil in Hin.
  - cbn [count_wins]. apply elem_of_cons in Hin as [<-|Hin].
    + destruct Hdash as [ab ->]. by rewrite Hscore.
    + destruct (split_once "-"%char g') as [ab|]; [|by apply IH].
      destruct (game_score py_strip py_int g') as [[a b]|]; [|done].
      destruct (b <? a); [by apply IH|].
      destruct (a <? b); by apply IH.
Qed.

(** The loop, in closed form: it adds to each counter the games that side
    won. *)
Lemma count_wins_closed games : ∀ wins_a wins_b wins_a' wins_b',
  count_wins py_strip py_int games wins_a wins_b = Some (wins_a', wins_b') →
  ∃ scores,
    dashed_scores py_strip py_int games = Some <$> scores
    ∧ wins_a' = wins_a + Z.of_nat (games_won scores)
    ∧ wins_b' = wins_b + Z.of_nat (games_won (swapped scores)).
Proof.
  unfold dashed_scores.
  induction games as [|g games IH]; intros wa wb wa' wb' H.
  - injection H as <- <-. exists []. cbn. split; [done|lia].
  - cbn [count_wins] in H. rewrite filter_cons.
    destruct (split_once "-"%char g) as [ab|] eqn:Hdash.
    2: { destruct (decide (is_Some (@None (string * string))))
           as [[? [=]]|_].
         by apply IH. }
    destruct (decide (is_Some (Some ab))) as [_|Hno];
      [|by destruct Hno; eexists].
    destruct (game_score py_strip py_int g) as [[a b]|] eqn:Hscore;
      [|done].
    cbn [fmap list_fmap]. rewrite Hscore.
    assert (∀ scores,
      games_won ((a, b) :: scores)
      = ((if decide (b < a)%Z then 1 else 0) + games_won scores)%nat
      ∧ games_won (swapped ((a, b) :: scores))
        = ((if decide (a < b)%Z then 1 else 0)
           + games_won (swapped scores))%nat) as Hcons.
    { intros scores. unfold games_won, swapped.
      rewrite fmap_cons, !filter_cons. cbn [fst snd].
      split; by case_decide. }
    destruct (Z.ltb_spec b a) as [Hba|Hba];
      [|destruct (Z.ltb_spec a b) as [Hab|Hab]];
      apply IH in H as (scores & Hscores & -> & ->);
      exists ((a, b) :: scores);
      (split; [by rewrite Hscores|]);
      destruct (Hcons scores) as [-> ->];
      repeat case_decide; lia.
Qed.

End ScoreFacts.

(** X19: one game with a dash whose scores cannot be read as integers
    voids the whole string, whatever the other games say. *)
Theorem unreadable_game_voids_the_scores (py_strip : string → string)
    (py_int : string → option Z) (scores_str g a_s b_s : string) :
  g ∈ games_of py_strip scores_str →
  split_once "-"%char g = Some (a_s, b_s) →
  py_int (py_strip a_s) = None ∨ py_int (py_strip b_s) = None →
  parse_scores py_strip py_int scores_str = None.
Proof.
  intros Hin Hdash Hint. unfold parse_scores.
  destruct (String.eqb (py_strip scores_str) ""); [done|].
  destruct (games_of py_strip scores_str) as [|g0 games]; [done|].
  rewrite (count_wins_unreadable py_strip py_int _ g 0 0 Hin); [done| |].
  - by rewrite Hdash.
  - unfold game_score. rewrite Hdash.
    destruct Hint as [->| ->]; [done|].
    by destruct (py_int (py_strip a_s)).
Qed.

(** X20: when [parse_scores] gives an outcome, every game with a dash was
    read, the two sides won different numbers of those games, and the
    outcome is 1 when the first side won more of them and 0 otherwise;
    games without a dash and drawn games count for neither side. *)
Theorem outcome_is_the_side_with_more_games (py_strip : string → string)
    (py_int : string → option Z) (scores_str : string) (y : Z) :
  parse_scores py_strip py_int scores_str = Some y →
  ∃ scores,
    dashed_scores py_strip py_int (games_of py_strip scores_str)
    = Some <$> scores
    ∧ games_won scores ≠ games_won (swapped scores)
    ∧ y = if decide (games_won (swapped scores) < games_won scores)%nat
          then 1 else 0.
Proof.
  unfold parse_scores.
  destruct (String.eqb (py_strip scores_str) ""); [done|].
  destruct (games_of py_strip scores_str) as [|g0 games]; [done|].
  destruct (count_wins py_strip py_int (g0 :: games) 0 0)
    as [[wa wb]|] eqn:Hcount; [|done].
  apply count_wins_closed in Hcount as (scores & Hscores & -> & ->).
  intros H. exists scores. split; [done|].
  destruct (Z.eqb_spec (0 + Z.of_nat (games_won scores))
              (0 + Z.of_nat (games_won (swapped scores)))); [done|].
  injection H as <-. split; [lia|].
  destruct (Z.ltb_spec (0 + Z.of_nat (games_won (swapped scores)))
              (0 + Z.of_nat (games_won scores)));
    case_decide; done || lia.
Qed.

(** ** The properties on the sample records *)

Lemma members_are_the_roster_prefix_witness :
  ∃ status roster,
    fst (get_members_by_club
           (sim_client (Returns (VBool true, two_members))) "club"
           sample_world) = Returns (status, roster)
    ∧ members sample_result = take (Z.to_nat 20) roster
    ∧ length (members sample_result)
      = (Z.to_nat 20 `min` length roster)%nat
    ∧ ci_total_members (club_info sample_result)
      = (Z.to_nat 20 `min` length roster)%nat.
Proof.
  apply (members_are_the_roster_prefix scalar_str
           (sim_client (Returns (VBool true, two_members)))
           (Some sim_is_set) true "club" 20 5 10 5 sample_world
           sample_result).
  - lia.
  - vm_compute. reflexivity.
Defined.

Lemma roster_failure_stops_the_crawl_witness :
  out_trace refused_run =
    said true (LStart "club") ++ said true LFetchingMembers ++
    [EGetMembers "club"]
  ∧ out_world refused_run
    = snd (get_members_by_club (sim_client (Returns (VBool false, [])))
             "club" sample_world)
  ∧ players_of (out_trace refused_run) = []
  ∧ posts_of (out_trace refused_run) = []
  ∧ logins_of (out_trace refused_run) = 0%nat
  ∧ sleeps_of (out_trace refused_run) = []
  ∧ ∃ e, out_res refused_run = Raise e.
Proof.
  apply (roster_failure_stops_the_crawl scalar_str
           (sim_client (Returns (VBool false, [])))
           (Some sim_is_set) true "club" 20 5 10 5 sample_world).
  intros status roster [= <- <-]. reflexivity.
Defined.

Lemma history_only_for_the_first_players_witness :
  ∃ ids,
    player_ids_of scalar_str (slice_to (members sample_result) (or0 5))
    = Ok ids
    ∧ (∀ pid, is_Some (match_history sample_result !! pid) → pid ∈ ids)
    ∧ (size (match_history sample_result) ≤ length ids)%nat
    ∧ (size (match_history sample_result)
       ≤ ci_total_members (club_info sample_result))%nat
    ∧ (0 ≤ 5 → (size (match_history sample_result) ≤ Z.to_nat 5)%nat).
Proof.
  apply (history_only_for_the_first_players scalar_str
           (sim_client (Returns (VBool true, two_members)))
           (Some sim_is_set) true "club" 20 5 10 5 sample_world
           sample_result).
  vm_compute. reflexivity.
Defined.

Lemma scraped_matches_cover_players_witness :
  (size (match_history sample_result)
   ≤ ci_scraped_matches (club_info sample_result))%nat
  ∧ (ci_scraped_matches (club_info sample_result) = 0%nat
     ↔ match_history sample_result = ∅).
Proof.
  apply (scraped_matches_cover_players scalar_str
           (sim_client (Returns (VBool true, two_members)))
           (Some sim_is_set) true "club" 20 5 10 5 sample_world
           sample_result).
  vm_compute. reflexivity.
Defined.

Lemma crawl_reauthentications_are_bounded_witness :
  (logins_of (out_trace reauth_run) ≤ 3 * Z.to_nat 5)%nat.
Proof.
  apply (crawl_reauthentications_are_bounded scalar_str
           (sim_client (Returns (VBool true, [member_of 7 "A"])))
           (Some sim_is_set) true "club" 20 5 10 3).
  lia.
Defined.

Lemma cancellation_keeps_fetched_pages_witness :
  ∃ r, out_res page_then_cancel_run = Ok r
       ∧ match_history r = {["7" := [VInt 1]]}
       ∧ ci_scraped_matches (club_info r) = 1%nat
       ∧ posts_of (out_trace page_then_cancel_run)
         = [(history_path "7", page_data 10 0)].
Proof.
  apply (cancellation_keeps_fetched_pages scalar_str true "club" 20 5 10 0
           (VBool true) [member_of 7 "A"] (member_of 7 "A") (VInt 7)
           [Returns (VInt 200, VNone)]
           (VDict (list_to_map
              [("next", VInt 10); ("hits", VList [VInt 1])]))
           10 [VInt 1] [] []).
  - reflexivity.
  - reflexivity.
  - reflexivity.
  - reflexivity.
  - discriminate.
Defined.

Lemma detail_calls_follow_the_roster_witness :
  players_of (out_trace uncancelled_run)
  = (λ m : Member, scalar_str (dict_get m "id"))
      <$> slice_to two_members (or0 20).
Proof.
  apply (detail_calls_follow_the_roster scalar_str
           (sim_client (Returns (VBool true, two_members)))
           true "club" 20 5 10 5 sample_world (VBool true) two_members).
  - reflexivity.
  - reflexivity.
Defined.

Lemma rows_follow_the_stored_matches_witness :
  Forall2 row_of doubles_rows (flat_matches doubles_items).
Proof.
  apply (rows_follow_the_stored_matches scalar_str doubles_items
           doubles_rows).
  vm_compute. reflexivity.
Defined.

Lemma exported_rows_match_the_scraped_count_witness :
  length doubles_rows = ci_scraped_matches (club_info doubles_result).
Proof.
  apply (exported_rows_match_the_scraped_count scalar_str
           (sim_client (Returns (VBool true, two_members)))
           (Some sim_is_set) true "club" 20 5 10 5 doubles_world
           doubles_result doubles_items doubles_rows).
  - vm_compute. reflexivity.
  - vm_compute. reflexivity.
  - vm_compute. reflexivity.
Defined.

Lemma partner_that_is_no_dict_fails_the_export_witness :
  match_row scalar_str "7" (VDict singles_match) = Fails NotADict
  ∧ ∃ e, match_data scalar_str [("7", [VDict singles_match])] = Fails e.
Proof.
  apply (partner_that_is_no_dict_fails_the_export scalar_str
           [("7", [VDict singles_match])] "7" [VDict singles_match]
           singles_match (singles_team 2 8 false)
           [VDict (singles_team 1 7 true)] VNone).
  - constructor.
  - constructor.
  - reflexivity.
  - reflexivity.
  - reflexivity.
Defined.

Lemma team_order_is_irrelevant_witness :
  match_row scalar_str "7"
    (VDict (<["teams" := VList [VDict team_a; VDict team_b]]> match_base))
  = match_row scalar_str "7"
      (VDict (<["teams" := VList [VDict team_b; VDict team_a]]> match_base)).
Proof.
  apply (team_order_is_irrelevant scalar_str "7" match_base
           (VDict team_a) (VDict team_b)).
  - vm_compute. reflexivity.
  - vm_compute. reflexivity.
Defined.

Lemma row_reports_the_players_team_witness :
  doubles_row !! "player_team_id" = Some (dict_get team_a "id")
  ∧ doubles_row !! "opponent_team_id" = Some (dict_get team_b "id")
  ∧ doubles_row !! "result"
    = Some (VStr (if truthy (dict_get team_a "winner")
                  then "Win" else "Loss"))
  ∧ doubles_row !! "score_summary"
    = Some (VStr (
        let first := String.append (scalar_str (dict_get team_a "game1"))
                       (String.append "-"
                          (scalar_str (dict_get team_b "game1"))) in
        if ne_int (dict_get team_a "game2") (-1)
        then String.append first
               (String.append ", "
                  (String.append (scalar_str (dict_get team_a "game2"))
                     (String.append "-"
                        (scalar_str (dict_get team_b "game2")))))
        else first)).
Proof.
  apply (row_reports_the_players_team scalar_str "7" doubles_match
           team_a team_b doubles_row).
  - reflexivity.
  - vm_compute. reflexivity.
  - vm_compute. reflexivity.
  - reflexivity.
  - reflexivity.
  - vm_compute. reflexivity.
Defined.

Lemma player_on_no_team_has_no_result_witness :
  stranger_row !! "result" = None
  ∧ stranger_row !! "score_summary" = None
  ∧ Forall (λ key, stranger_row !! key = None) player_keys.
Proof.
  apply (player_on_no_team_has_no_result scalar_str "9" doubles_match
           [VDict team_a; VDict team_b] stranger_row).
  - reflexivity.
  - repeat constructor.
  - vm_compute. reflexivity.
Defined.

Lemma readable_history_is_exported_witness :
  ∃ rows, match_data scalar_str doubles_items = Done rows.
Proof.
  apply (readable_history_is_exported scalar_str doubles_items).
  repeat constructor.
Defined.

Lemma unreadable_game_voids_the_scores_witness :
  parse_scores ascii_strip digits_int "11-5, x-3" = None.
Proof.
  apply (unreadable_game_voids_the_scores ascii_strip digits_int
           "11-5, x-3" "x-3" "x" "3").
  - apply (bool_decide_unpack _). vm_compute. reflexivity.
  - reflexivity.
  - left. reflexivity.
Defined.

Lemma outcome_is_the_side_with_more_games_witness :
  ∃ scores,
    dashed_scores ascii_strip digits_int
      (games_of ascii_strip "11-5, 9-11, 11-7")
    = Some <$> scores
    ∧ games_won scores ≠ games_won (swapped scores)
    ∧ 1 = if decide (games_won (swapped scores) < games_won scores)%nat
          then 1 else 0.
Proof.
  apply (outcome_is_the_side_with_more_games ascii_strip digits_int
           "11-5, 9-11, 11-7" 1).
  vm_compute. reflexivity.
Defined.
